(** * logmd: the entry store, the entry loader and the timeline browser

    A shallow embedding of the Go sources of logmd (packages [vault] and
    [tui], the [view] and [today] commands of package [cmd], and
    [StripFrontMatter] of package [markdown]) together with the
    properties of its specification and further properties of the code.

    Conventions of the embedding:
    - a Go [int] is a [Z] kept in the 64-bit two's-complement range; every
      [+] and [-] of the source goes through [GoInt.add] / [GoInt.sub],
      which wrap around;
    - a Go [string] is a Rocq [string], that is a sequence of bytes;
    - a Go slice is a [list]; indexing outside the slice panics, which the
      embedding renders as [None];
    - a Go [error] value is [option] of an error description, [None] being
      [nil];
    - the functions of Go's standard library the program calls ([strings],
      [unicode/utf8], [time.Parse], [path/filepath], [os]) are embedded
      with the behaviour the library documents on Unix; the file system
      behind [os] is a tree of directories and regular files, passed
      explicitly to every function that touches it;
    - a [for] loop is a recursive function over the data it walks, or over
      a number of rounds that is shown to be enough where it is used;
    - what a command gets from outside the program (the result of
      [config.Load], the markdown renderer, the editor process, the
      readings of the clock) is an argument of the function that embeds
      it, so that its properties hold whatever these are. *)

From Stdlib Require Import ZArith Lia Bool List String Ascii.
From stdpp Require Import base option list strings sorting.

Local Open Scope string_scope.
Local Open Scope Z_scope.

(** ** Go's [int] on a 64-bit platform *)

Module GoInt.

Definition min_int : Z := - 2 ^ 63.
Definition max_int : Z := 2 ^ 63 - 1.

Definition in_range (z : Z) : Prop := min_int <= z <= max_int.

(** Two's-complement wrap-around of a mathematical integer. *)
Definition wrap (z : Z) : Z := (z + 2 ^ 63) mod 2 ^ 64 - 2 ^ 63.

Definition add (a b : Z) : Z := wrap (a + b).
Definition sub (a b : Z) : Z := wrap (a - b).

#[global] Arguments wrap : simpl never.
#[global] Arguments min_int : simpl never.
#[global] Arguments max_int : simpl never.

End GoInt.

(** ** Go slices *)

Module GoSlice.

(** [l[i]]: the element at index [i]; [None] is the panic of an index out
    of range. *)
Definition index {A} (l : list A) (i : Z) : option A :=
  if i <? 0 then None else l !! Z.to_nat i.

(** [len(l)]. *)
Definition len {A} (l : list A) : Z := Z.of_nat (length l).

End GoSlice.

(** ** Go's standard packages [unicode/utf8], [unicode] and [strings]

    Only the functions the program calls, with the behaviour of the Go
    standard library on a string of bytes. *)

Module GoStrings.

(** The value of a byte [s[i]]. *)
Definition byte (c : ascii) : Z := Z.of_N (N_of_ascii c).

(** [s[i]]; the callers below only index inside the string. *)
Definition byte_at (s : string) (i : Z) : Z :=
  match String.get (Z.to_nat i) s with
  | Some c => byte c
  | None => 0
  end.

(** [s[lo:hi]]. *)
Definition slice (s : string) (lo hi : Z) : string :=
  String.substring (Z.to_nat lo) (Z.to_nat (hi - lo)) s.

Definition strlen (s : string) : Z := Z.of_nat (String.length s).

Definition RuneError : Z := 65533.
Definition RuneSelf : Z := 128.
Definition UTFMax : Z := 4.

(** [utf8.first] together with [utf8.acceptRanges]: for a leading byte of
    a multi-byte sequence, the length of the sequence and the range its
    second byte must lie in; [None] for the bytes marked [xx]. *)
Definition first (s0 : Z) : option (Z * Z * Z) :=
  if (s0 <? 194) || (244 <? s0) then None
  else if s0 <? 224 then Some (2, 128, 191)
  else if s0 =? 224 then Some (3, 160, 191)
  else if s0 =? 237 then Some (3, 128, 159)
  else if s0 <? 240 then Some (3, 128, 191)
  else if s0 =? 240 then Some (4, 144, 191)
  else if s0 =? 244 then Some (4, 128, 143)
  else Some (4, 128, 191).

(** [utf8.DecodeRuneInString]: the first rune of [s] and its width. *)
Definition DecodeRuneInString (s : string) : Z * Z :=
  let n := strlen s in
  if n <? 1 then (RuneError, 0)
  else
    let s0 := byte_at s 0 in
    if s0 <? RuneSelf then (s0, 1)
    else match first s0 with
    | None => (RuneError, 1)
    | Some (sz, lo, hi) =>
        if n <? sz then (RuneError, 1)
        else
          let s1 := byte_at s 1 in
          if (s1 <? lo) || (hi <? s1) then (RuneError, 1)
          else if sz <=? 2 then
            (Z.lor (Z.shiftl (Z.land s0 31) 6) (Z.land s1 63), 2)
          else
            let s2 := byte_at s 2 in
            if (s2 <? 128) || (191 <? s2) then (RuneError, 1)
            else if sz <=? 3 then
              (Z.lor (Z.lor (Z.shiftl (Z.land s0 15) 12)
                            (Z.shiftl (Z.land s1 63) 6))
                     (Z.land s2 63), 3)
            else
              let s3 := byte_at s 3 in
              if (s3 <? 128) || (191 <? s3) then (RuneError, 1)
              else
                (Z.lor (Z.lor (Z.lor (Z.shiftl (Z.land s0 7) 18)
                                     (Z.shiftl (Z.land s1 63) 12))
                              (Z.shiftl (Z.land s2 63) 6))
                       (Z.land s3 63), 4)
    end.

(** [utf8.RuneStart]. *)
Definition RuneStart (b : Z) : bool := negb (Z.land b 192 =? 128).

(** The loop [for start--; start >= lim; start-- { if RuneStart(s[start])
    { break } }] of [DecodeLastRuneInString]; it runs at most [UTFMax - 1]
    times. *)
Fixpoint scan_back (fuel : nat) (s : string) (start lim : Z) : Z :=
  match fuel with
  | O => start
  | S fuel' =>
      if start >=? lim then
        if RuneStart (byte_at s start) then start
        else scan_back fuel' s (start - 1) lim
      else start
  end.

(** [utf8.DecodeLastRuneInString]: the last rune of [s] and its width. *)
Definition DecodeLastRuneInString (s : string) : Z * Z :=
  let end_ := strlen s in
  if end_ =? 0 then (RuneError, 0)
  else
    let start := end_ - 1 in
    let r := byte_at s start in
    if r <? RuneSelf then (r, 1)
    else
      let lim := end_ - UTFMax in
      let lim := if lim <? 0 then 0 else lim in
      let start := scan_back 4 s (start - 1) lim in
      let start := if start <? 0 then 0 else start in
      let '(r, size) := DecodeRuneInString (slice s start end_) in
      if negb (start + size =? end_) then (RuneError, 1) else (r, size).

(** [unicode.IsSpace]: the Latin-1 cases, then the [White_Space] table. *)
Definition IsSpace (r : Z) : bool :=
  if r <=? 255 then
    (r =? 9) || (r =? 10) || (r =? 11) || (r =? 12) || (r =? 13)
    || (r =? 32) || (r =? 133) || (r =? 160)
  else
    (r =? 5760) || ((8192 <=? r) && (r <=? 8202))
    || (r =? 8232) || (r =? 8233) || (r =? 8239) || (r =? 8287)
    || (r =? 12288).

(** [strings.TrimLeftFunc(s, unicode.IsSpace)]: drop runes from the front
    while they are spaces. *)
Fixpoint trim_left_go (fuel : nat) (s : string) : string :=
  match fuel with
  | O => s
  | S fuel' =>
      let '(r, size) := DecodeRuneInString s in
      if (0 <? size) && IsSpace r
      then trim_left_go fuel' (slice s size (strlen s))
      else s
  end.

Definition TrimLeftSpace (s : string) : string :=
  trim_left_go (String.length s) s.

(** [strings.lastIndexFunc(s, unicode.IsSpace, false)]: the index at
    which the last rune that is not a space starts, [-1] if there is
    none.  [i] is the loop variable. *)
Fixpoint lastIndexNotSpace (fuel : nat) (s : string) (i : Z) : Z :=
  match fuel with
  | O => -1
  | S fuel' =>
      if i >? 0 then
        let '(r, size) := DecodeLastRuneInString (slice s 0 i) in
        let i := i - size in
        if negb (IsSpace r) then i else lastIndexNotSpace fuel' s i
      else -1
  end.

(** [strings.TrimRightFunc(s, unicode.IsSpace)]. *)
Definition TrimRightSpace (s : string) : string :=
  let i := lastIndexNotSpace (S (String.length s)) s (strlen s) in
  let i := if (i >=? 0) && (byte_at s i >=? RuneSelf)
           then i + snd (DecodeRuneInString (slice s i (strlen s)))
           else i + 1 in
  slice s 0 i.

(** [strings.TrimSpace]: white space, as Unicode defines it, removed from
    both ends.  (The library runs a byte loop over ASCII first and falls
    back to the two functions above at the first non-ASCII byte; on ASCII
    bytes the two agree.) *)
Definition TrimSpace (s : string) : string :=
  TrimRightSpace (TrimLeftSpace s).

(** [strings.HasPrefix]. *)
Definition HasPrefix (s pre : string) : bool :=
  (strlen pre <=? strlen s) && String.eqb (slice s 0 (strlen pre)) pre.

(** [strings.HasSuffix]. *)
Definition HasSuffix (s suffix : string) : bool :=
  (strlen suffix <=? strlen s)
  && String.eqb (slice s (strlen s - strlen suffix) (strlen s)) suffix.

(** [strings.TrimSuffix]. *)
Definition TrimSuffix (s suffix : string) : string :=
  if HasSuffix s suffix then slice s 0 (strlen s - strlen suffix) else s.

(** [strings.Split(s, sep)] for a separator of one byte: the pieces
    between the separators, at least one piece. *)
Fixpoint Split (s : string) (sep : ascii) : list string :=
  match s with
  | EmptyString => [EmptyString]
  | String c rest =>
      if Ascii.eqb c sep then EmptyString :: Split rest sep
      else match Split rest sep with
           | piece :: pieces => String c piece :: pieces
           | [] => [String c EmptyString]
           end
  end.

(** [strings.Join]. *)
Fixpoint Join (elems : list string) (sep : string) : string :=
  match elems with
  | [] => EmptyString
  | [e] => e
  | e :: rest => e ++ sep ++ Join rest sep
  end.

End GoStrings.

(** ** Go's standard package [time]: [time.Parse] with the layout
       ["2006-01-02"] *)

Module GoTime.
Import GoStrings.

(** [isDigit(s, i)]: is [s[i]] in range and a decimal digit. *)
Definition isDigit (s : string) (i : Z) : bool :=
  if strlen s <=? i then false
  else let c := byte_at s i in (48 <=? c) && (c <=? 57).

(** [getnum(s, fixed)]: a one- or two-digit number; two digits are
    mandatory when [fixed]. *)
Definition getnum (s : string) (fixed : bool) : option (Z * string) :=
  if negb (isDigit s 0) then None
  else if negb (isDigit s 1) then
    if fixed then None
    else Some (byte_at s 0 - 48, slice s 1 (strlen s))
  else Some ((byte_at s 0 - 48) * 10 + (byte_at s 1 - 48),
             slice s 2 (strlen s)).

(** [leadingInt]: the leading decimal digits of [s] as a number, and the
    rest of [s]; [None] on overflow.  [x] is the value read so far. *)
Fixpoint leadingInt (s : string) (x : Z) : option (Z * string) :=
  match s with
  | EmptyString => Some (x, s)
  | String c rest =>
      if (byte c <? 48) || (57 <? byte c) then Some (x, s)
      else if x >? 2 ^ 63 / 10 then None
      else
        let x := x * 10 + byte c - 48 in
        if x >? 2 ^ 63 then None else leadingInt rest x
  end.

(** [atoi], for a string that begins with a digit (no sign). *)
Definition atoi (s : string) : option Z :=
  match leadingInt s 0 with
  | Some (q, EmptyString) => Some q
  | _ => None
  end.

(** The chunk [stdLongYear]: four bytes, all digits. *)
Definition longYear (value : string) : option (Z * string) :=
  if (strlen value <? 4) || negb (isDigit value 0) then None
  else
    year ← atoi (slice value 0 4);
    Some (year, slice value 4 (strlen value)).

(** [skip(value, "-")]: the literal between two chunks. *)
Definition skip_dash (value : string) : option string :=
  match value with
  | String "-" rest => Some rest
  | _ => None
  end.

(** [isLeap] and [daysIn]. *)
Definition isLeap (year : Z) : bool :=
  (year mod 4 =? 0) && (negb (year mod 100 =? 0) || (year mod 400 =? 0)).

Definition daysIn (month year : Z) : Z :=
  if month =? 2 then (if isLeap year then 29 else 28)
  else if (month =? 4) || (month =? 6) || (month =? 9) || (month =? 11)
       then 30 else 31.

(** [time.Parse("2006-01-02", value)]: the year, month and day when the
    call returns a [nil] error, [None] when it returns an error.  The
    layout is the chunks year, "-", zero-padded month, "-", zero-padded
    day; the month is checked when it is read, text after the day is an
    error, and the day is checked against the month at the end. *)
Definition ParseDate (value : string) : option (Z * Z * Z) :=
  '(year, value) ← longYear value;
  value ← skip_dash value;
  '(month, value) ← getnum value true;
  if (month <=? 0) || (12 <? month) then None
  else
    value ← skip_dash value;
    '(day, value) ← getnum value true;
    if negb (strlen value =? 0) then None
    else if (day <? 1) || (day >? daysIn month year) then None
    else Some (year, month, day).

End GoTime.

(** ** Go's standard package [path/filepath] (Unix) *)

Module GoFilepath.
Import GoStrings.

Definition Separator : ascii := "/"%char.

(** One step of [Clean] over the elements of a path: [stack] holds the
    elements kept so far, the last one first. *)
Definition clean_step (rooted : bool) (stack : list string) (elem : string)
  : list string :=
  if String.eqb elem "" || String.eqb elem "." then stack
  else if String.eqb elem ".." then
    match stack with
    | top :: below =>
        if String.eqb top ".." then elem :: stack else below
    | [] => if rooted then [] else [elem]
    end
  else elem :: stack.

(** [filepath.Clean]: the shortest equivalent path by lexical processing:
    empty and [.] elements dropped, an inner [..] removed together with
    the element before it, [..] at the start of a rooted path dropped. *)
Definition Clean (path : string) : string :=
  if String.eqb path "" then "."
  else
    let rooted := byte_at path 0 =? byte Separator in
    let kept := rev (fold_left (clean_step rooted) (Split path Separator) []) in
    let out := Join kept "/" in
    if rooted then "/" ++ out
    else if String.eqb out "" then "." else out.

(** [filepath.Join]: the elements from the first non-empty one on, joined
    by the separator and cleaned; [""] when every element is empty. *)
Fixpoint Join (elem : list string) : string :=
  match elem with
  | [] => ""
  | e :: rest =>
      if String.eqb e "" then Join rest
      else Clean (GoStrings.Join elem "/")
  end.

End GoFilepath.

(** ** The file system behind Go's package [os]

    A tree of directories and regular files.  A directory that is not
    [writable] refuses new children, a regular file that is not [writable]
    refuses to be overwritten.  The calls are total functions of the tree:
    they return the failure of the system call as an [Errno].

    The tree keeps no read permissions and puts no limit on names: what
    is in it can be read and listed, and any name can be created.  The
    properties below therefore conclude that a read succeeds only from a
    write that succeeded on the same file, and that a create succeeds
    only for the name of a valid date. *)

Module GoOS.
Import GoStrings.

Inductive Errno := ENOENT | ENOTDIR | EISDIR | EACCES.

#[warnings="-register-all"]
Inductive Object :=
| Regular (writable : bool) (content : string)
| Directory (writable : bool) (children : list (string * Object)).

(** The state of the file system is its root directory. *)
Definition FileSystem := Object.

(** [os.FileInfo] and [os.DirEntry], the parts the program reads. *)
Record FileInfo := mkFileInfo { fi_IsDir : bool; fi_Size : Z }.
Record DirEntry := mkDirEntry { de_Name : string; de_IsDir : bool }.

Definition is_dir (o : Object) : bool :=
  match o with Directory _ _ => true | Regular _ _ => false end.

Definition info_of (o : Object) : FileInfo :=
  match o with
  | Regular _ content => mkFileInfo false (strlen content)
  | Directory _ _ => mkFileInfo true 0
  end.

(** The child called [name] of a directory. *)
Fixpoint child (name : string) (children : list (string * Object))
  : option Object :=
  match children with
  | [] => None
  | (n, o) :: rest => if String.eqb n name then Some o else child name rest
  end.

(** The children with the one called [name] replaced by [o]. *)
Fixpoint set_child (name : string) (o : Object)
         (children : list (string * Object)) : list (string * Object) :=
  match children with
  | [] => []
  | (n, o') :: rest =>
      if String.eqb n name then (n, o) :: rest
      else (n, o') :: set_child name o rest
  end.

(** The names a path walks through, from the root: its non-empty
    elements, with [.] and [..] resolved lexically.  A relative path is
    taken from the root (the working directory is [/]). *)
Definition names (path : string) : list string :=
  rev (fold_left (GoFilepath.clean_step true)
                 (Split path GoFilepath.Separator) []).

(** Path resolution. *)
Fixpoint walk (path : list string) (o : Object) : result Object Errno :=
  match path with
  | [] => Ok o
  | name :: rest =>
      match o with
      | Regular _ _ => Error ENOTDIR
      | Directory _ children =>
          match child name children with
          | None => Error ENOENT
          | Some o' => walk rest o'
          end
      end
  end.

(** [os.Stat]. *)
Definition Stat (fs : FileSystem) (name : string) : result FileInfo Errno :=
  match walk (names name) fs with
  | Ok o => Ok (info_of o)
  | Error e => Error e
  end.

(** [os.ReadFile]. *)
Definition ReadFile (fs : FileSystem) (name : string) : result string Errno :=
  match walk (names name) fs with
  | Ok (Regular _ content) => Ok content
  | Ok (Directory _ _) => Error EISDIR
  | Error e => Error e
  end.

(** Create or truncate the regular file at [path] below [o] and write
    [data] to it: the tree after the call, or why the call failed. *)
Fixpoint put (path : list string) (data : string) (o : Object)
  : result Object Errno :=
  match path with
  | [] =>
      match o with
      | Regular w _ => if w then Ok (Regular w data) else Error EACCES
      | Directory _ _ => Error EISDIR
      end
  | name :: rest =>
      match o with
      | Regular _ _ => Error ENOTDIR
      | Directory w children =>
          match child name children with
          | Some o' =>
              match put rest data o' with
              | Ok o'' => Ok (Directory w (set_child name o'' children))
              | Error e => Error e
              end
          | None =>
              match rest with
              | [] =>
                  if w
                  then Ok (Directory w (children ++ [(name, Regular true data)]))
                  else Error EACCES
              | _ :: _ => Error ENOENT
              end
          end
      end
  end.

(** [os.WriteFile(name, data, 0644)]: the file system after the call and
    the error of the call. *)
Definition WriteFile (fs : FileSystem) (name : string) (data : string)
  : FileSystem * option Errno :=
  match put (names name) data fs with
  | Ok fs' => (fs', None)
  | Error e => (fs, Some e)
  end.

Definition name_le (a b : DirEntry) : Prop := String.le (de_Name a) (de_Name b).

#[global] Instance name_le_dec : RelDecision name_le :=
  fun a b => String.le_dec (de_Name a) (de_Name b).

(** [os.ReadDir]: the entries of a directory, sorted by file name. *)
Definition ReadDir (fs : FileSystem) (name : string)
  : result (list DirEntry) Errno :=
  match walk (names name) fs with
  | Ok (Directory _ children) =>
      Ok (merge_sort name_le
            (map (fun '(n, o) => mkDirEntry n (is_dir o)) children))
  | Ok (Regular _ _) => Error ENOTDIR
  | Error e => Error e
  end.

End GoOS.

(** ** Package [vault]: the entry store *)

Module Vault.
Import GoStrings GoOS.

(** [type Vault struct]. *)
Record Vault := mkVault { Directory : string }.

(** The errors the package builds with [fmt.Errorf]. *)
Inductive Err :=
| ErrAlreadyExists (date : string)
    (* "entry %s already exists" *)
| ErrNotExist (date : string)
    (* "entry %s does not exist" *)
| ErrRead (date : string) (cause : Errno)
    (* "failed to read entry %s: %w" *)
| ErrWrite (date : string) (cause : Errno)
    (* "failed to write entry %s: %w" *)
| ErrReadDir (dir : string) (cause : Errno)
    (* "failed to read directory %s: %w" *).

(** [DatePath]. *)
Definition DatePath (v : Vault) (date : string) : string :=
  GoFilepath.Join [Directory v; date ++ ".md"].

(** [EntryExists]: [err == nil] for the error of [os.Stat]. *)
Definition EntryExists (fs : FileSystem) (v : Vault) (date : string) : bool :=
  let path := DatePath v date in
  match Stat fs path with
  | Ok _ => true
  | Error _ => false
  end.

(** [ReadEntry]. *)
Definition ReadEntry (fs : FileSystem) (v : Vault) (date : string)
  : result string Err :=
  let path := DatePath v date in
  match ReadFile fs path with
  | Ok content => Ok content
  | Error ENOENT => Error (ErrNotExist date)
  | Error e => Error (ErrRead date e)
  end.

(** [WriteEntry]. *)
Definition WriteEntry (fs : FileSystem) (v : Vault) (date content : string)
  : FileSystem * option Err :=
  let path := DatePath v date in
  match WriteFile fs path content with
  | (fs', Some e) => (fs', Some (ErrWrite date e))
  | (fs', None) => (fs', None)
  end.

(** [CreateEntry]. *)
Definition CreateEntry (fs : FileSystem) (v : Vault) (date : string)
  : FileSystem * option Err :=
  if EntryExists fs v date then (fs, Some (ErrAlreadyExists date))
  else
    let template := "# " ++ date ++ String "010" (String "010" "") in
    WriteEntry fs v date template.

(** [isValidDateFormat] of the package. *)
Definition isValidDateFormat (filename : string) : bool :=
  if negb (HasSuffix filename ".md") then false
  else
    let datePart := TrimSuffix filename ".md" in
    match GoTime.ParseDate datePart with
    | Some _ => true
    | None => false
    end.

(** The order [sort.Slice] is called with in [ListEntries]:
    [mdFiles[i] > mdFiles[j]] puts [a] before [b] when [a > b], so the
    sorted slice is descending. *)
Definition newer_first (a b : string) : Prop := String.le b a.

#[global] Instance newer_first_dec : RelDecision newer_first :=
  fun a b => String.le_dec b a.

(** The loop of [ListEntries] over the directory entries. *)
Fixpoint collect (entries : list DirEntry) (mdFiles : list string)
  : list string :=
  match entries with
  | [] => mdFiles
  | entry :: rest =>
      if de_IsDir entry then collect rest mdFiles
      else
        let name := de_Name entry in
        if HasSuffix name ".md" && isValidDateFormat name
        then collect rest (mdFiles ++ [name])
        else collect rest mdFiles
  end.

(** [ListEntries].  [sort.Slice] is rendered by a merge sort: the order
    on strings is total and antisymmetric, so a slice has one descending
    arrangement, whichever algorithm produces it. *)
Definition ListEntries (fs : FileSystem) (v : Vault)
  : result (list string) Err :=
  match ReadDir fs (Directory v) with
  | Error e => Error (ErrReadDir (Directory v) e)
  | Ok entries =>
      let mdFiles := collect entries [] in
      Ok (merge_sort newer_first mdFiles)
  end.

End Vault.

(** ** Package [tui]: the model of the timeline browser *)

Module Tui.
Import GoStrings.

(** [type Entry struct] of model.go. *)
Record Entry := mkEntry {
  Date : string;
  Path : string;
  Title : string;
  Preview : list string;
  Expanded : bool
}.

(** [type Model struct] of model.go.  [err] holds the message of the Go
    error, [None] for [nil]. *)
Record Model := mkModel {
  entries : list Entry;
  cursor : Z;
  viewportHeight : Z;
  scrollOffset : Z;
  quitting : bool;
  loading : bool;
  err : option string;
  vaultDir : string;
  previewLines : Z
}.

(** The messages [Update] distinguishes; [OtherMsg] stands for every
    message type of the [default] branch.  A [tea.KeyMsg] is represented
    by its [String()], the only part of it the code looks at. *)
Inductive Msg :=
| KeyMsg (key : string)
| WindowSizeMsg (width height : Z)
| LoadEntriesMsg (loaded : list Entry) (failure : option string)
| OtherMsg.

(** The commands [Update] returns: [tea.Quit], or [nil] as [None]. *)
Inductive Cmd := Quit.

(** Field assignments [m.f = v]. *)
Definition set_entries (m : Model) (es : list Entry) : Model :=
  mkModel es (cursor m) (viewportHeight m) (scrollOffset m) (quitting m)
          (loading m) (err m) (vaultDir m) (previewLines m).
Definition set_cursor (m : Model) (c : Z) : Model :=
  mkModel (entries m) c (viewportHeight m) (scrollOffset m) (quitting m)
          (loading m) (err m) (vaultDir m) (previewLines m).
Definition set_viewportHeight (m : Model) (h : Z) : Model :=
  mkModel (entries m) (cursor m) h (scrollOffset m) (quitting m)
          (loading m) (err m) (vaultDir m) (previewLines m).
Definition set_scrollOffset (m : Model) (s : Z) : Model :=
  mkModel (entries m) (cursor m) (viewportHeight m) s (quitting m)
          (loading m) (err m) (vaultDir m) (previewLines m).
Definition set_quitting (m : Model) (q : bool) : Model :=
  mkModel (entries m) (cursor m) (viewportHeight m) (scrollOffset m) q
          (loading m) (err m) (vaultDir m) (previewLines m).
Definition set_loading (m : Model) (l : bool) : Model :=
  mkModel (entries m) (cursor m) (viewportHeight m) (scrollOffset m)
          (quitting m) l (err m) (vaultDir m) (previewLines m).
Definition set_err (m : Model) (e : option string) : Model :=
  mkModel (entries m) (cursor m) (viewportHeight m) (scrollOffset m)
          (quitting m) (loading m) e (vaultDir m) (previewLines m).

(** [len(m.entries)]. *)
Definition len (m : Model) : Z := GoSlice.len (entries m).

(** [NewModel] of model.go. *)
Definition NewModel (dir : string) (pl : Z) : Model :=
  {| entries := [];
     cursor := 0;
     viewportHeight := 20;
     scrollOffset := 0;
     quitting := false;
     loading := true;
     err := None;
     vaultDir := dir;
     previewLines := pl |}.

(** [adjustScroll] of update.go, statement by statement. *)
Definition adjustScroll (m : Model) : Model :=
  let visibleHeight := GoInt.sub (viewportHeight m) 4 in
  let m := if cursor m <? scrollOffset m
           then set_scrollOffset m (cursor m) else m in
  let m := if cursor m >=? GoInt.add (scrollOffset m) visibleHeight
           then set_scrollOffset m
                  (GoInt.add (GoInt.sub (cursor m) visibleHeight) 1)
           else m in
  let m := if scrollOffset m <? 0 then set_scrollOffset m 0 else m in
  let maxScroll := GoInt.sub (len m) visibleHeight in
  let maxScroll := if maxScroll <? 0 then 0 else maxScroll in
  if scrollOffset m >? maxScroll then set_scrollOffset m maxScroll else m.

(** A [case "a", "b":] label of a Go string switch. *)
Definition key_is (key : string) (labels : list string) : bool :=
  existsb (String.eqb key) labels.
#[global] Arguments key_is : simpl never.

(** [m.entries[i].Expanded = !m.entries[i].Expanded]; indexing panics
    outside [0 <= i < len]. *)
Definition toggle_at (es : list Entry) (i : Z) : option (list Entry) :=
  e ← GoSlice.index es i;
  Some (<[Z.to_nat i :=
           mkEntry (Date e) (Path e) (Title e) (Preview e)
                   (negb (Expanded e))]> es).

(** [handleKeyPress] of update.go.  The result is [None] when the code
    panics (an index out of range). *)
Definition handleKeyPress (m : Model) (key : string)
  : option (Model * option Cmd) :=
  if len m =? 0 then
    if key_is key ["q"; "ctrl+c"]
    then Some (set_quitting m true, Some Quit)
    else Some (m, None)
  else if key_is key ["q"; "ctrl+c"] then
    Some (set_quitting m true, Some Quit)
  else if key_is key ["up"; "k"] then
    if cursor m >? 0
    then Some (adjustScroll (set_cursor m (GoInt.sub (cursor m) 1)), None)
    else Some (m, None)
  else if key_is key ["down"; "j"] then
    if cursor m <? GoInt.sub (len m) 1
    then Some (adjustScroll (set_cursor m (GoInt.add (cursor m) 1)), None)
    else Some (m, None)
  else if key_is key ["enter"; " "] then
    if cursor m <? len m
    then es' ← toggle_at (entries m) (cursor m);
         Some (set_entries m es', None)
    else Some (m, None)
  else if key_is key ["pgup"] then
    let m := set_cursor m (GoInt.sub (cursor m) 10) in
    let m := if cursor m <? 0 then set_cursor m 0 else m in
    Some (adjustScroll m, None)
  else if key_is key ["pgdown"] then
    let m := set_cursor m (GoInt.add (cursor m) 10) in
    let m := if cursor m >=? len m
             then set_cursor m (GoInt.sub (len m) 1) else m in
    Some (adjustScroll m, None)
  else if key_is key ["home"] then
    Some (adjustScroll (set_cursor m 0), None)
  else if key_is key ["end"] then
    Some (adjustScroll (set_cursor m (GoInt.sub (len m) 1)), None)
  else Some (m, None).

(** [Update] of update.go. *)
Definition Update (m : Model) (msg : Msg) : option (Model * option Cmd) :=
  match msg with
  | KeyMsg key => handleKeyPress m key
  | WindowSizeMsg _ height =>
      Some (set_viewportHeight m (GoInt.sub height 6), None)
  | LoadEntriesMsg loaded failure =>
      let m := set_loading m false in
      match failure with
      | Some e => Some (set_err m (Some e), None)
      | None => Some (set_entries m loaded, None)
      end
  | OtherMsg => Some (m, None)
  end.

(** The event loop: the messages are delivered one at a time, each to the
    model the previous one produced. *)
Fixpoint run (m : Model) (msgs : list Msg) : option Model :=
  match msgs with
  | [] => Some m
  | msg :: rest =>
      match Update m msg with
      | Some (m', _) => run m' rest
      | None => None
      end
  end.


(** *** model.go: title and preview of an entry *)

(** The first loop of [extractTitleAndPreview], [for i, line := range
    lines]: [lines] are the lines from index [i] on.  The result is the
    title and [previewStart]. *)
Fixpoint find_title (lines : list string) (i : Z)
         (title : string) (previewStart : Z) : string * Z :=
  match lines with
  | [] => (title, previewStart)
  | line :: rest =>
      let trimmed := TrimSpace line in
      if HasPrefix trimmed "# "
      then (TrimSpace (slice trimmed 2 (strlen trimmed)), GoInt.add i 1)
      else find_title rest (GoInt.add i 1) title previewStart
  end.

(** The second loop, [for i := previewStart; i < len(lines) &&
    previewCount < previewLines; i++].  Every iteration moves [i] one
    line on, so [S (length lines)] rounds of [fuel] are enough; [None] is
    a panic of [lines[i]] (or the fuel running out). *)
Fixpoint collect_preview (fuel : nat) (lines : list string)
         (previewLines i : Z) (preview : list string) (previewCount : Z)
  : option (list string) :=
  match fuel with
  | O => None
  | S fuel' =>
      if (i <? GoSlice.len lines) && (previewCount <? previewLines) then
        line ← GoSlice.index lines i;
        if negb (String.eqb (TrimSpace line) "") || (previewCount >? 0)
        then collect_preview fuel' lines previewLines (GoInt.add i 1)
                             (preview ++ [line]) (GoInt.add previewCount 1)
        else collect_preview fuel' lines previewLines (GoInt.add i 1)
                             preview previewCount
      else Some preview
  end.

(** [extractTitleAndPreview]. *)
Definition extractTitleAndPreview (content : string) (previewLines : Z)
  : option (string * list string) :=
  let lines := Split content "010"%char in
  let '(title, previewStart) := find_title lines 0 "(untitled)" 0 in
  preview ← collect_preview (S (length lines)) lines previewLines
                            previewStart [] 0;
  Some (title, preview).

(** *** view.go *)

(** The [lipgloss] styles of view.go, each by its [Render] function;
    [paddedStyle] is [lipgloss.NewStyle().Padding(0, 1)]. *)
Record Styles := mkStyles {
  titleStyle : string -> string;
  selectedStyle : string -> string;
  dateStyle : string -> string;
  iconStyle : string -> string;
  previewStyle : string -> string;
  errorStyle : string -> string;
  helpStyle : string -> string;
  paddedStyle : string -> string
}.

Definition newline : string := String "010" "".

(** [visibleRange]. *)
Definition visibleRange (m : Model) : Z * Z :=
  let start := scrollOffset m in
  let end_ := GoInt.sub (GoInt.add start (viewportHeight m)) 4 in
  let end_ := if end_ >=? len m then GoInt.sub (len m) 1 else end_ in
  (start, end_).

Section Rendering.
Variable st : Styles.

(** The loop of [renderEntry] over the preview lines; [b] is the
    builder. *)
Fixpoint render_preview (preview : list string) (b : string) : string :=
  match preview with
  | [] => b
  | previewLine :: rest =>
      if negb (String.eqb (TrimSpace previewLine) "")
      then render_preview rest
             (b ++ previewStyle st ("  " ++ previewLine) ++ newline)
      else render_preview rest b
  end.

(** [renderEntry]. *)
Definition renderEntry (entry : Entry) (selected : bool) : string :=
  let icon := iconStyle st "📅" in
  let date := dateStyle st (Date entry) in
  let title := Title entry in
  let line := icon ++ " " ++ date ++ " " ++ title in
  let line := if selected then selectedStyle st line
              else paddedStyle st line in
  let b := line in
  if Expanded entry && (GoSlice.len (Preview entry) >? 0)
  then render_preview (Preview entry) (b ++ newline)
  else b.

(** The loop [for i := start; i <= end && i < len(m.entries); i++] of
    [View]: [b] is the builder and [rows] the indices rendered so far.
    An iteration that does not panic has [0 <= i < len], so
    [S (length entries)] rounds of [fuel] are enough. *)
Fixpoint view_loop (fuel : nat) (m : Model) (i end_ : Z)
         (b : string) (rows : list Z) : option (string * list Z) :=
  match fuel with
  | O => None
  | S fuel' =>
      if (i <=? end_) && (i <? len m) then
        entry ← GoSlice.index (entries m) i;
        view_loop fuel' m (GoInt.add i 1) end_
                  (b ++ renderEntry entry (i =? cursor m) ++ newline)
                  (rows ++ [i])
      else Some (b, rows)
  end.

(** [View], together with the indices of the entries it rendered a row
    for; [None] is a panic. *)
Definition View_rows (m : Model) : option (string * list Z) :=
  match err m with
  | Some e => Some (errorStyle st ("Error: " ++ e), [])
  | None =>
      if loading m then Some ("Loading journal entries...", [])
      else if len m =? 0 then
        Some ("No journal entries found. Use 'logmd today' to create your first entry.", [])
      else
        let b := titleStyle st "📖 Journal Timeline" ++ newline ++ newline in
        let '(start, end_) := visibleRange m in
        '(b, rows) ← view_loop (S (length (entries m))) m start end_ b [];
        Some (b ++ newline
                ++ helpStyle st "↑/k up • ↓/j down • enter/space toggle • q quit",
              rows)
  end.

(** [View]. *)
Definition View (m : Model) : option string := fst <$> View_rows m.

End Rendering.

End Tui.

(** ** The properties of the specification, as predicates on the model *)

Module Spec.
Import Tui.

(** The rows of the viewport that show entries: [max(0, H - 4)]. *)
Definition visible_rows (H : Z) : Z := Z.max 0 (H - 4).

(** The cursor is visible:
    [scrollOffset <= cursorIndex < scrollOffset + max(0, H-4)]. *)
Definition cursor_visible (m : Model) : Prop :=
  scrollOffset m <= cursor m
  < scrollOffset m + visible_rows (viewportHeight m).

(** [scrollOffset] does not exceed [max(0, N - max(0, H-4))]. *)
Definition scroll_bounded (m : Model) : Prop :=
  scrollOffset m <= Z.max 0 (len m - visible_rows (viewportHeight m)).

Definition scroll_invariant (m : Model) : Prop :=
  cursor_visible m /\ scroll_bounded m.

(** The navigation events and the keys that deliver them (the key map of
    model.go and the [case] labels of update.go). *)
Inductive NavEvent :=
| MoveUp | MoveDown | PageUp | PageDown | Home | End_ | ToggleExpand.

Definition keys_of (e : NavEvent) : list string :=
  match e with
  | MoveUp => ["up"; "k"]
  | MoveDown => ["down"; "j"]
  | PageUp => ["pgup"]
  | PageDown => ["pgdown"]
  | Home => ["home"]
  | End_ => ["end"]
  | ToggleExpand => ["enter"; " "]
  end.

Definition delivers (e : NavEvent) (key : string) : Prop := In key (keys_of e).

(** The keys of the Quit event. *)
Definition quit_key (key : string) : Prop := key = "q" \/ key = "ctrl+c".

(** The state right after [es] were loaded into a browser whose viewport
    height is [H]: cursor and scroll offset still at 0. *)
Definition loaded (dir : string) (pl : Z) (es : list Entry) (H : Z) : Model :=
  {| entries := es;
     cursor := 0;
     viewportHeight := H;
     scrollOffset := 0;
     quitting := false;
     loading := false;
     err := None;
     vaultDir := dir;
     previewLines := pl |}.

(** The key messages of a sequence of keys. *)
Definition key_msgs (keys : list string) : list Msg := map KeyMsg keys.

(** The scroll offset [adjustScroll] computes, as a function of the
    cursor [c], the old offset [so], the viewport height [vh] and the
    number of entries [n]. *)
Definition reclamped (c so vh n : Z) : Z :=
  let visibleHeight := GoInt.sub vh 4 in
  let s1 := if c <? so then c else so in
  let s2 := if c >=? GoInt.add s1 visibleHeight
            then GoInt.add (GoInt.sub c visibleHeight) 1 else s1 in
  let s3 := if s2 <? 0 then 0 else s2 in
  let maxScroll := GoInt.sub n visibleHeight in
  let maxScroll := if maxScroll <? 0 then 0 else maxScroll in
  if s3 >? maxScroll then maxScroll else s3.

(** What every state of a browser over [N] entries with viewport height
    [H] satisfies: the cursor is an index of the list, and the scroll
    invariant holds with a scroll offset that is not negative. *)
Definition browsing (N H : Z) (m : Model) : Prop :=
  len m = N /\ viewportHeight m = H
  /\ 0 <= cursor m < N /\ 0 <= scrollOffset m
  /\ scroll_invariant m.

(** *** Title and preview of an entry *)

(** A line whose trimmed form starts with ["# "], and the title it
    gives: the trimmed text after these two bytes. *)
Definition is_heading (line : string) : bool :=
  GoStrings.HasPrefix (GoStrings.TrimSpace line) "# ".

Definition heading_title (line : string) : string :=
  let trimmed := GoStrings.TrimSpace line in
  GoStrings.TrimSpace (GoStrings.slice trimmed 2 (GoStrings.strlen trimmed)).

(** A blank line: nothing but white space. *)
Definition blank (line : string) : bool :=
  String.eqb (GoStrings.TrimSpace line) "".

(** The first heading of a list of lines, with its index. *)
Fixpoint first_heading (lines : list string) : option (nat * string) :=
  match lines with
  | [] => None
  | line :: rest =>
      if is_heading line then Some (O, line)
      else match first_heading rest with
           | Some (i, h) => Some (S i, h)
           | None => None
           end
  end.

(** The lines from the first one that is not blank. *)
Fixpoint skip_blank (lines : list string) : list string :=
  match lines with
  | [] => []
  | line :: rest => if blank line then skip_blank rest else lines
  end.

(** The preview of the lines that follow the heading: blank lines are
    passed over (and not counted) as long as nothing has been collected;
    from the first collected line on every line is collected and counted,
    up to [previewLines] lines or the end of the input. *)
Definition preview_of (lines : list string) (previewLines : Z)
  : list string :=
  take (Z.to_nat previewLines) (skip_blank lines).

Definition title_and_preview (content : string) (previewLines : Z)
  : string * list string :=
  let lines := GoStrings.Split content "010"%char in
  match first_heading lines with
  | Some (i, line) =>
      (heading_title line, preview_of (drop (S i) lines) previewLines)
  | None => ("(untitled)", preview_of lines previewLines)
  end.

(** *** The files of the entry store *)

(** Some object (regular file or directory) exists at [path]; a regular
    file exists at [path]. *)
Definition object_at (fs : GoOS.FileSystem) (path : string) : Prop :=
  exists o, GoOS.walk (GoOS.names path) fs = Ok o.

Definition regular_file_at (fs : GoOS.FileSystem) (path : string) : Prop :=
  exists w content,
    GoOS.walk (GoOS.names path) fs = Ok (GoOS.Regular w content).

(** [path] is absolute; [s] holds no path separator; [e] is a name a
    cleaned path may contain. *)
Definition absolute (path : string) : Prop :=
  exists rest, path = String GoFilepath.Separator rest.

Fixpoint has_separator (s : string) : bool :=
  match s with
  | EmptyString => false
  | String c rest => Ascii.eqb c GoFilepath.Separator || has_separator rest
  end.

Definition proper_name (e : string) : Prop :=
  e <> "" /\ e <> "." /\ e <> "..".

(** The template of a new entry: ["# " + date + "\n\n"]. *)
Definition template (date : string) : string :=
  "# " ++ date ++ String "010" (String "010" "").

(** *** Entry file names *)

(** A decimal digit, and the number a sequence of digits writes. *)
Definition is_digit (c : ascii) : Prop := 48 <= GoStrings.byte c <= 57.

Definition number (digits : list ascii) : Z :=
  fold_left (fun n c => 10 * n + (GoStrings.byte c - 48)) digits 0.

(** The Gregorian calendar: leap years and the lengths of the months. *)
Definition leap_year (y : Z) : Prop :=
  (4 | y) /\ (~ (100 | y) \/ (400 | y)).

Definition month_length (y m n : Z) : Prop :=
  (In m [1; 3; 5; 7; 8; 10; 12] /\ n = 31)
  \/ (In m [4; 6; 9; 11] /\ n = 30)
  \/ (m = 2 /\ leap_year y /\ n = 29)
  \/ (m = 2 /\ ~ leap_year y /\ n = 28).

(** Day [d] of month [m] of year [y] is a date of the calendar. *)
Definition real_date (y m d : Z) : Prop :=
  exists n, month_length y m n /\ 1 <= d <= n.

(** [s] is [YYYY-MM-DD.md]: four, two and two digits (so ten characters
    before the extension, zeros included) that write a date of the
    calendar. *)
Definition entry_filename (s : string) : Prop :=
  exists y1 y2 y3 y4 m1 m2 d1 d2 : ascii,
    Forall is_digit [y1; y2; y3; y4; m1; m2; d1; d2]
    /\ s = String y1 (String y2 (String y3 (String y4 (String "-"
             (String m1 (String m2 (String "-"
             (String d1 (String d2 ".md")))))))))
    /\ real_date (number [y1; y2; y3; y4]) (number [m1; m2])
                 (number [d1; d2]).

(** The directory entries the loop of [ListEntries] appends to its
    result. *)
Definition keep (entry : GoOS.DirEntry) : bool :=
  negb (GoOS.de_IsDir entry)
  && (GoStrings.HasSuffix (GoOS.de_Name entry) ".md"
      && Vault.isValidDateFormat (GoOS.de_Name entry)).

(** Descending lexicographic order of a list of strings. *)
Definition descending (l : list string) : Prop :=
  StronglySorted (fun a b => String.le b a) l.

(** A file system whose journal directory [/j] holds regular files with
    the given names. *)
Definition regular_files (names : list string)
  : list (string * GoOS.Object) :=
  map (fun n => (n, GoOS.Regular true "text")) names.

Definition journal (children : list (string * GoOS.Object))
  : GoOS.FileSystem :=
  GoOS.Directory true [("j", GoOS.Directory true children)].

(** [n] sample entries, for the examples. *)
Definition sample (n : nat) : list Entry :=
  repeat (mkEntry "2024-01-15" "/j/2024-01-15.md" "Title" ["text"] false) n.

End Spec.

(** ** Directories: [filepath.Abs] and [os.MkdirAll] *)

Module GoDirs.
Import GoStrings GoOS.

(** [filepath.IsAbs] (Unix). *)
Definition IsAbs (path : string) : bool := HasPrefix path "/".

(** [os.Getwd]: the working directory is the root, as in [GoOS.names]. *)
Definition Getwd : string := "/".

(** [filepath.Abs] (Unix): an absolute path is cleaned, a relative one is
    joined to the working directory. *)
Definition Abs (path : string) : string :=
  if IsAbs path then GoFilepath.Clean path
  else GoFilepath.Join [Getwd; path].

(** The directory at [path] below [o], created together with the missing
    directories on the way to it.  A new directory has the permissions
    0700 of the call: its owner may write to it. *)
Fixpoint mkdir_all (path : list string) (o : Object) : result Object Errno :=
  match path with
  | [] =>
      match o with
      | Directory _ _ => Ok o
      | Regular _ _ => Error ENOTDIR
      end
  | name :: rest =>
      match o with
      | Regular _ _ => Error ENOTDIR
      | Directory w children =>
          match child name children with
          | Some o' =>
              match mkdir_all rest o' with
              | Ok o'' => Ok (Directory w (set_child name o'' children))
              | Error e => Error e
              end
          | None =>
              if w then
                match mkdir_all rest (Directory true []) with
                | Ok o'' => Ok (Directory w (children ++ [(name, o'')]))
                | Error e => Error e
                end
              else Error EACCES
          end
      end
  end.

(** [os.MkdirAll(path, 0700)]: the file system after the call and the
    error of the call. *)
Definition MkdirAll (fs : FileSystem) (path : string)
  : FileSystem * option Errno :=
  match mkdir_all (names path) fs with
  | Ok fs' => (fs', None)
  | Error e => (fs, Some e)
  end.

End GoDirs.

(** ** Package [vault]: the constructor and the entry metadata *)

Module VaultDir.
Import GoStrings GoOS GoDirs Vault.

(** The error [New] builds: "failed to create directory %s: %w".  (The
    working directory is always known here, so [filepath.Abs] does not
    fail.) *)
Inductive NewErr := ErrCreateDir (dir : string) (cause : Errno).

(** [New]: the file system after the call, and the vault or the error. *)
Definition New (fs : FileSystem) (directory : string)
  : FileSystem * result Vault NewErr :=
  let absDir := Abs directory in
  match MkdirAll fs absDir with
  | (fs', Some e) => (fs', Error (ErrCreateDir absDir e))
  | (fs', None) => (fs', Ok (mkVault absDir))
  end.






End VaultDir.

(** ** Package [tui]: loading the entries of the journal *)

Module TuiLoad.
Import GoStrings GoOS Vault VaultDir Tui.

(** The error of [createEntryFromDate]: "failed to read entry: %w". *)
Inductive EntryErr := ErrReadEntry (cause : Vault.Err).

(** [createEntryFromDate]; [None] is a panic. *)
Definition createEntryFromDate (fs : FileSystem) (v : Vault.Vault)
           (date : string) (previewLines : Z)
  : option (result Entry EntryErr) :=
  match ReadEntry fs v date with
  | Error e => Some (Error (ErrReadEntry e))
  | Ok content =>
      '(title, preview) ← extractTitleAndPreview content previewLines;
      let entryPath := DatePath v date in
      Some (Ok (mkEntry date entryPath title preview false))
  end.

(** The errors of [loadEntriesFromVault]: "failed to initialize vault: %w"
    and "failed to list entries: %w". *)
Inductive LoadErr :=
| ErrInitVault (cause : NewErr)
| ErrListEntries (cause : Vault.Err).

(** A line written to the standard error stream:
    "Warning: failed to load entry %s: %v". *)
Record Warning := mkWarning { w_date : string; w_err : EntryErr }.

(** The loop of [loadEntriesFromVault] over the file names: the entries
    appended so far and the warnings written so far. *)
Fixpoint load_loop (fs : FileSystem) (v : Vault.Vault) (previewLines : Z)
         (entryFiles : list string) (entries : list Entry)
         (stderr : list Warning) : option (list Entry * list Warning) :=
  match entryFiles with
  | [] => Some (entries, stderr)
  | filename :: rest =>
      let date := TrimSuffix filename ".md" in
      r ← createEntryFromDate fs v date previewLines;
      match r with
      | Error e =>
          load_loop fs v previewLines rest entries
                    (stderr ++ [mkWarning date e])
      | Ok entry =>
          load_loop fs v previewLines rest (entries ++ [entry]) stderr
      end
  end.

(** [loadEntriesFromVault]: the file system after the call, the warnings
    written, and the entries or the error; [None] is a panic. *)
Definition loadEntriesFromVault (fs : FileSystem) (vaultDir : string)
           (previewLines : Z)
  : option (FileSystem * list Warning * result (list Entry) LoadErr) :=
  match New fs vaultDir with
  | (fs', Error e) => Some (fs', [], Error (ErrInitVault e))
  | (fs', Ok v) =>
      match ListEntries fs' v with
      | Error e => Some (fs', [], Error (ErrListEntries e))
      | Ok entryFiles =>
          '(entries, stderr) ← load_loop fs' v previewLines entryFiles [] [];
          Some (fs', stderr, Ok entries)
      end
  end.

Section Command.
(** The text [Error()] gives for an error of the loader. *)
Variable error_text : LoadErr -> string.



End Command.

End TuiLoad.

(** ** Package [cmd]: the [view] command *)

Module Cmd.
Import GoStrings GoOS Vault VaultDir.

(** The regular expression [^\d{4}-\d{2}-\d{2}$] after the two anchors:
    a sequence of items, each matching one byte.  [\d] is an ASCII digit;
    without the flag [m], [^] and [$] match at the two ends of the text
    only, so the items must use up the whole string. *)
Inductive Item := Digit | Literal (c : ascii).

Definition dateRegex : list Item :=
  [Digit; Digit; Digit; Digit; Literal "-"; Digit; Digit; Literal "-";
   Digit; Digit].

Definition match_item (i : Item) (c : ascii) : bool :=
  match i with
  | Digit => (48 <=? byte c) && (byte c <=? 57)
  | Literal l => Ascii.eqb c l
  end.

(** [MatchString] for an anchored sequence of items. *)
Fixpoint MatchString (re : list Item) (s : string) : bool :=
  match re, s with
  | [], EmptyString => true
  | i :: re', String c s' => match_item i c && MatchString re' s'
  | _, _ => false
  end.

(** [isValidDateFormat] of view.go. *)
Definition isValidDateFormat (dateStr : string) : bool :=
  if negb (MatchString dateRegex dateStr) then false
  else
    match GoTime.ParseDate dateStr with
    | Some _ => true
    | None => false
    end.

(** What [runViewCommand] gets from the packages [config] and [markdown]:
    the result of [config.Load] (the journal directory of the
    configuration, or the text of the error), whether
    [markdown.NewRenderer] succeeds, and [Render] of the renderer. *)
Record World := mkWorld {
  config_Load : result string string;
  markdown_NewRenderer : option string;
  markdown_Render : string -> result string string
}.



End Cmd.

(** ** Today's entry: package [vault] and the [today] command *)

Module Today.
Import GoStrings GoOS Vault VaultDir.

(** [type Config struct] of package [config]. *)
Record Config := mkConfig {
  cfg_Directory : string;
  cfg_Editor : string;
  cfg_PreviewLines : Z
}.

(** The error [cmd.Run] returns for the editor process: it exited with a
    status that is not zero, or it could not be run. *)
Inductive RunErr := ExitError (code : Z) | StartError (cause : string).

(** What [runTodayCommand] gets from outside the program: the result of
    [config.Load], and the editor process, by what it does to the file
    system when it is run on a file and how it ends. *)
Record World := mkWorld {
  config_Load : result Config string;
  exec_Run : FileSystem -> string -> string -> FileSystem * option RunErr
}.

(** The errors of [launchEditor] and of [runTodayCommand], by their
    format strings. *)
Inductive EditorErr :=
| ErrExitStatus (code : Z)
    (* "editor exited with status %d" *)
| ErrRunEditor (editor : string) (cause : string)
    (* "failed to run editor '%s': %w" *).

Inductive TodayErr :=
| ErrLoadConfig (cause : string)
    (* "failed to load configuration: %w" *)
| ErrInitDirectory (cause : NewErr)
    (* "failed to initialize journal directory: %w" *)
| ErrCreateToday (cause : Vault.Err)
    (* "failed to create today's entry: %w" *)
| ErrLaunchEditor (cause : EditorErr)
    (* "failed to launch editor: %w" *).

(** [launchEditor]. *)
Definition launchEditor (w : World) (fs : FileSystem)
           (editor filePath : string) : FileSystem * option EditorErr :=
  match exec_Run w fs editor filePath with
  | (fs', None) => (fs', None)
  | (fs', Some (ExitError code)) => (fs', Some (ErrExitStatus code))
  | (fs', Some (StartError cause)) => (fs', Some (ErrRunEditor editor cause))
  end.

Section Clock.
(** The clock of a run: [clock n] is what the [n]-th evaluation of
    [time.Now().Format("2006-01-02")] returns.  Every function that reads
    the clock takes the number of readings made so far and returns it
    increased by one. *)
Variable clock : nat -> string.

(** [TodayPath]. *)
Definition TodayPath (v : Vault) (t : nat) : string * nat :=
  let today := clock t in
  (GoFilepath.Join [Directory v; today ++ ".md"], S t).

(** [TodayExists]. *)
Definition TodayExists (fs : FileSystem) (v : Vault) (t : nat) : bool * nat :=
  let today := clock t in
  (EntryExists fs v today, S t).

(** [CreateTodayEntry]. *)
Definition CreateTodayEntry (fs : FileSystem) (v : Vault) (t : nat)
  : FileSystem * option Vault.Err * nat :=
  let today := clock t in
  (CreateEntry fs v today, S t).

(** [runTodayCommand]: the file system after the command, what each
    [fmt.Printf] wrote to the standard output, and its error. *)
Definition runTodayCommand (w : World) (fs : FileSystem) (t : nat)
  : FileSystem * list string * option TodayErr :=
  match config_Load w with
  | Error e => (fs, [], Some (ErrLoadConfig e))
  | Ok cfg =>
      match New fs (cfg_Directory cfg) with
      | (fs, Error e) => (fs, [], Some (ErrInitDirectory e))
      | (fs, Ok v) =>
          let today := clock t in
          let t := S t in
          let '(entryPath, t) := TodayPath v t in
          let '(present, t) := TodayExists fs v t in
          let '(fs, out, err) :=
            if negb present then
              match CreateTodayEntry fs v t with
              | (fs, Some e, _) => (fs, [], Some (ErrCreateToday e))
              | (fs, None, _) =>
                  (fs, ["Created new journal entry: " ++ today ++ Tui.newline],
                   None)
              end
            else (fs, ["Opening existing journal entry: " ++ today
                         ++ Tui.newline], None) in
          match err with
          | Some e => (fs, out, Some e)
          | None =>
              match launchEditor w fs (cfg_Editor cfg) entryPath with
              | (fs, Some e) => (fs, out, Some (ErrLaunchEditor e))
              | (fs, None) =>
                  let saved :=
                    "Journal entry saved: " ++ entryPath ++ Tui.newline in
                  (fs, (out ++ [saved])%list, None)
              end
          end
      end
  end.

End Clock.

End Today.

(** ** Package [markdown]: the front matter *)

Module Markdown.
Import GoStrings.

(** The loop [for i := 1; i < len(lines); i++] of [StripFrontMatter]:
    [rest] are the lines from index [i] on and [n] is [len(lines)].  The
    result is what the function returns from inside the loop, [None]
    when the loop ends without a closing delimiter. *)
Fixpoint closing (rest : list string) (i n : Z) : option string :=
  match rest with
  | [] => None
  | line :: rest' =>
      if String.eqb line "---" then
        if GoInt.add i 1 <? n then Some (Join rest' (String "010" ""))
        else Some ""
      else closing rest' (GoInt.add i 1) n
  end.

(** [StripFrontMatter]. *)
Definition StripFrontMatter (content : string) : string :=
  let lines := Split content "010"%char in
  if GoSlice.len lines <? 3 then content
  else
    match lines with
    | [] => content
    | first :: rest =>
        if negb (String.eqb first "---") then content
        else
          match closing rest 1 (GoSlice.len lines) with
          | Some stripped => stripped
          | None => content
          end
    end.

End Markdown.

(** ** Further properties of the code, as predicates on the model *)

Module Props.
Import Tui.

(** A message the event loop can deliver: a loaded list leaves room for a
    page step past its end within a Go [int]. *)
Definition fits (msg : Msg) : Prop :=
  match msg with
  | LoadEntriesMsg es None => GoSlice.len es + 10 <= GoInt.max_int
  | _ => True
  end.

(** A state in which no index the code computes leaves the Go [int]s. *)
Definition in_bounds (m : Model) : Prop :=
  len m + 10 <= GoInt.max_int
  /\ 0 <= cursor m /\ cursor m + 10 <= GoInt.max_int
  /\ 0 <= scrollOffset m <= GoInt.max_int.

(** An entry without its [Expanded] flag. *)
Definition unexpanded (e : Entry) : Entry :=
  mkEntry (Date e) (Path e) (Title e) (Preview e) false.

(** The entry with its [Expanded] flag inverted. *)
Definition flipped (e : Entry) : Entry :=
  mkEntry (Date e) (Path e) (Title e) (Preview e) (negb (Expanded e)).

(** The entry [createEntryFromDate] builds for the file [filename] from
    the content [ReadEntry] returned for it. *)
Definition entry_for (v : Vault.Vault) (previewLines : Z)
           (filename content : string) : Entry :=
  let date := GoStrings.TrimSuffix filename ".md" in
  let '(title, preview) := Spec.title_and_preview content previewLines in
  mkEntry date (Vault.DatePath v date) title preview false.

(** What the loader makes of a listed file, by what [ReadEntry] returns
    for it: an entry of the browser when the file is read, a warning on
    the standard error stream when it is not. *)
Definition loaded_entry (fs : GoOS.FileSystem) (v : Vault.Vault)
           (previewLines : Z) (filename : string) : option Entry :=
  match Vault.ReadEntry fs v (GoStrings.TrimSuffix filename ".md") with
  | Ok content => Some (entry_for v previewLines filename content)
  | Error _ => None
  end.

Definition load_warning (fs : GoOS.FileSystem) (v : Vault.Vault)
           (filename : string) : option TuiLoad.Warning :=
  let date := GoStrings.TrimSuffix filename ".md" in
  match Vault.ReadEntry fs v date with
  | Ok _ => None
  | Error e => Some (TuiLoad.mkWarning date (TuiLoad.ErrReadEntry e))
  end.

(** The date of a listed file. *)
Definition date_of (filename : string) : string :=
  GoStrings.TrimSuffix filename ".md".

(** Every listed file that is read has a content whose length is a Go
    [int] below the maximum; every listed file is read. *)
Definition contents_fit (fs : GoOS.FileSystem) (v : Vault.Vault)
           (listed : list string) : Prop :=
  Forall (fun filename =>
            forall content,
              Vault.ReadEntry fs v (date_of filename) = Ok content ->
              GoStrings.strlen content < GoInt.max_int) listed.

Definition all_read (fs : GoOS.FileSystem) (v : Vault.Vault)
           (listed : list string) : Prop :=
  Forall (fun filename =>
            exists content,
              Vault.ReadEntry fs v (date_of filename) = Ok content) listed.

(** What a key press leaves alone: the entries up to their [Expanded]
    flags, the viewport height, the phase and the configuration. *)
Definition same_journal (m m' : Model) : Prop :=
  map unexpanded (entries m') = map unexpanded (entries m)
  /\ viewportHeight m' = viewportHeight m
  /\ loading m' = loading m /\ err m' = err m
  /\ vaultDir m' = vaultDir m /\ previewLines m' = previewLines m.

(** Styles that render every text as it is, for the examples. *)
Definition plain : Styles :=
  mkStyles (fun s => s) (fun s => s) (fun s => s) (fun s => s)
           (fun s => s) (fun s => s) (fun s => s) (fun s => s).

(** A journal directory [/j] with two entries, one of them read-only, and
    a file that is not an entry, for the examples. *)
Definition diary_files : list (string * GoOS.Object) :=
  [("2024-01-15.md",
    GoOS.Regular true ("# Monday" ++ newline ++ newline ++ "Rain."));
   ("todo.md", GoOS.Regular true "not an entry");
   ("2024-01-16.md", GoOS.Regular false "Sun.")].

Definition diary : GoOS.FileSystem := Spec.journal diary_files.

End Props.

(** * Theorems *)

(** ** 64-bit integers *)

Section GoIntFacts.
Import GoInt.

Lemma wrap_in_range z : in_range (wrap z).
Proof.
  unfold in_range, wrap, min_int, max_int.
  pose proof (Z.mod_pos_bound (z + 2 ^ 63) (2 ^ 64) ltac:(lia)). lia.
Qed.

Lemma wrap_id z : in_range z -> wrap z = z.
Proof.
  unfold in_range, wrap, min_int, max_int. intros Hz.
  rewrite Z.mod_small by lia. lia.
Qed.

(** A sum above [max_int] (by less than [2 ^ 64]) comes out negative. *)
Lemma wrap_overflow z :
  max_int < z < 2 ^ 63 + 2 ^ 64 -> wrap z = z - 2 ^ 64.
Proof.
  unfold wrap, max_int. intros Hz.
  replace (z + 2 ^ 63) with ((z + 2 ^ 63 - 2 ^ 64) + 1 * 2 ^ 64) by lia.
  rewrite Z.mod_add by lia. rewrite Z.mod_small by lia. lia.
Qed.

Lemma add_id a b : in_range (a + b) -> add a b = a + b.
Proof. apply wrap_id. Qed.

Lemma sub_id a b : in_range (a - b) -> sub a b = a - b.
Proof. apply wrap_id. Qed.

End GoIntFacts.

(** Comparisons of [Z] in the hypotheses, from [bool] to [Prop]. *)
Ltac zprop :=
  repeat match goal with
    | H : context [(_ >? _)] |- _ => rewrite Z.gtb_ltb in H
    | H : context [(_ >=? _)] |- _ => rewrite Z.geb_leb in H
    end;
  repeat match goal with
    | H : (_ <? _) = true |- _ => apply Z.ltb_lt in H
    | H : (_ <? _) = false |- _ => apply Z.ltb_ge in H
    | H : (_ <=? _) = true |- _ => apply Z.leb_le in H
    | H : (_ <=? _) = false |- _ => apply Z.leb_gt in H
    | H : (_ =? _) = true |- _ => apply Z.eqb_eq in H
    | H : (_ =? _) = false |- _ => apply Z.eqb_neq in H
    end.

(** ** The browser: events on an empty list, boundary moves, resize *)

Section BrowserFrame.
Import Tui Spec.

Lemma key_is_quit key : key_is key ["q"; "ctrl+c"] = true <-> quit_key key.
Proof.
  unfold key_is, quit_key. simpl. rewrite !orb_true_iff, !String.eqb_eq.
  intuition discriminate.
Qed.

Lemma key_is_not_quit key :
  ~ quit_key key -> key_is key ["q"; "ctrl+c"] = false.
Proof.
  intros Hq. destruct (key_is key _) eqn:E; [|reflexivity].
  apply key_is_quit in E. contradiction.
Qed.

(** C8.  With an empty entries list every key other than the Quit keys
    leaves the whole model unchanged (and returns no command), and a Quit
    key only sets the quitting flag and returns [tea.Quit]; no cursor
    arithmetic is performed. *)
Theorem empty_list_only_quit (m : Model) (key : string) :
  entries m = [] ->
  (~ quit_key key -> Update m (KeyMsg key) = Some (m, None))
  /\ (quit_key key ->
      Update m (KeyMsg key) = Some (set_quitting m true, Some Quit)).
Proof.
  intros Hes. simpl. unfold handleKeyPress, len, GoSlice.len.
  rewrite Hes. simpl. split; intros Hq.
  - rewrite key_is_not_quit by assumption. reflexivity.
  - apply key_is_quit in Hq. rewrite Hq. reflexivity.
Qed.

Lemma empty_list_only_quit_witness :
  Update (NewModel "/j" 5) (KeyMsg "down") = Some (NewModel "/j" 5, None)
  /\ Update (NewModel "/j" 5) (KeyMsg "q")
     = Some (set_quitting (NewModel "/j" 5) true, Some Quit).
Proof.
  destruct (empty_list_only_quit (NewModel "/j" 5) "down" eq_refl) as [H1 _].
  destruct (empty_list_only_quit (NewModel "/j" 5) "q" eq_refl) as [_ H2].
  split.
  - apply H1. unfold quit_key. intros [H | H]; discriminate.
  - apply H2. left. reflexivity.
Defined.

(** C10.  MoveUp at [cursor = 0] and MoveDown at [cursor = len - 1]
    return the model they were given, whatever its scroll offset and
    viewport height are: [adjustScroll] is not called.  ([len] is a Go
    [int].) *)
Theorem boundary_move_is_noop (m : Model) (key : string) :
  len m <= GoInt.max_int ->
  (delivers MoveUp key /\ cursor m = 0)
  \/ (delivers MoveDown key /\ cursor m = len m - 1) ->
  Update m (KeyMsg key) = Some (m, None).
Proof.
  intros Hfit H. simpl. unfold handleKeyPress.
  destruct (len m =? 0) eqn:Hlen.
  - assert (key_is key ["q"; "ctrl+c"] = false) as ->; [|reflexivity].
    destruct H as [[Hk _] | [Hk _]]; simpl in Hk;
      destruct Hk as [<- | [<- | []]]; reflexivity.
  - zprop.
    assert (Hr : GoInt.sub (len m) 1 = len m - 1).
    { apply sub_id. unfold GoInt.in_range, GoInt.min_int, GoInt.max_int in *.
      unfold len, GoSlice.len in *. lia. }
    destruct H as [[Hk Hc] | [Hk Hc]]; simpl in Hk;
      destruct Hk as [<- | [<- | []]]; cbn [key_is existsb String.eqb Ascii.eqb Bool.eqb orb andb];
      rewrite ?Hr, Hc, ?Z.gtb_ltb, ?Z.ltb_irrefl; reflexivity.
Qed.

(** A stale state: the cursor on the last of ten entries, the scroll
    offset still 0 after a resize to one visible row.  The cursor is not
    visible, and MoveDown leaves it so. *)
Lemma boundary_move_is_noop_witness :
  let stale :=
    set_cursor (loaded "/j" 5 (sample 10) 5) 9 in
  ~ cursor_visible stale
  /\ Update stale (KeyMsg "j") = Some (stale, None).
Proof.
  intros stale. split.
  - unfold cursor_visible, visible_rows; cbn. lia.
  - apply (boundary_move_is_noop stale "j").
    + vm_compute. discriminate.
    + right. split; [right; left; reflexivity | reflexivity].
Defined.

End BrowserFrame.

(** ** The browser: the scroll invariant *)

Section ScrollInvariant.
Import Tui Spec.

(** [adjustScroll] only assigns [scrollOffset]. *)
Lemma adjustScroll_frame m :
  exists s, adjustScroll m = set_scrollOffset m s.
Proof.
  destruct m. unfold adjustScroll; simpl.
  repeat match goal with
    | |- context [if ?b then _ else _] => destruct b; simpl
    end; eexists; reflexivity.
Qed.

(** Whatever the scroll offset was, [adjustScroll] leaves it at a place
    that shows the cursor and respects the bound, provided at least one
    row is visible. *)
Lemma range_bounds z :
  GoInt.in_range z <-> -9223372036854775808 <= z <= 9223372036854775807.
Proof. reflexivity. Qed.

Lemma max_int_val : GoInt.max_int = 9223372036854775807.
Proof. reflexivity. Qed.

Lemma min_int_val : GoInt.min_int = -9223372036854775808.
Proof. reflexivity. Qed.

Ltac bounds :=
  rewrite ?range_bounds, ?max_int_val, ?min_int_val in *; lia.

Lemma adjustScroll_reclamped m :
  adjustScroll m
  = set_scrollOffset m
      (reclamped (cursor m) (scrollOffset m) (viewportHeight m) (len m)).
Proof.
  destruct m as [es c vh so q l e d pl].
  unfold adjustScroll, reclamped, len, set_scrollOffset;
    cbn [scrollOffset cursor viewportHeight entries].
  destruct (c <? so);
    cbn [scrollOffset cursor viewportHeight entries quitting loading err
         vaultDir previewLines];
    match goal with
    | |- context [if ?x >=? ?y then _ else _] => destruct (x >=? y)
    end;
    cbn [scrollOffset cursor viewportHeight entries quitting loading err
         vaultDir previewLines];
    match goal with
    | |- context [if ?x <? 0 then _ else _] => destruct (x <? 0)
    end;
    cbn [scrollOffset cursor viewportHeight entries quitting loading err
         vaultDir previewLines];
    repeat match goal with
      | |- context [if ?b then _ else _] => destruct b
      end; reflexivity.
Qed.

Lemma reclamped_ok c so vh n :
  5 <= vh <= GoInt.max_int ->
  0 <= c < n ->
  n <= GoInt.max_int ->
  GoInt.in_range so ->
  let s := reclamped c so vh n in
  0 <= s /\ s <= c < s + (vh - 4) /\ s <= Z.max 0 (n - (vh - 4)).
Proof.
  intros Hvh Hc Hn Hso. unfold reclamped.
  rewrite (sub_id vh 4) by bounds. set (V := vh - 4).
  assert (HV : 1 <= V <= GoInt.max_int - 4) by (subst V; bounds).
  clearbody V.
  set (s1 := if c <? so then c else so).
  assert (Hs1 : s1 <= c /\ GoInt.in_range s1).
  { subst s1. destruct (c <? so) eqn:E; zprop; bounds. }
  clearbody s1.
  set (s2 := if c >=? GoInt.add s1 V then _ else s1).
  assert (Hs2 : s2 <= c < s2 + V /\ GoInt.in_range s2).
  { subst s2. unfold GoInt.add, GoInt.sub.
    rewrite (wrap_id (c - V)) by bounds.
    rewrite (wrap_id (c - V + 1)) by bounds.
    destruct (Z_le_gt_dec (s1 + V) GoInt.max_int).
    - rewrite (wrap_id (s1 + V)) by bounds.
      destruct (c >=? s1 + V) eqn:E; zprop; bounds.
    - rewrite (wrap_overflow (s1 + V)) by bounds.
      destruct (c >=? s1 + V - 2 ^ 64) eqn:E; zprop; bounds. }
  clearbody s2.
  set (s3 := if s2 <? 0 then 0 else s2).
  assert (Hs3 : 0 <= s3 <= c /\ c < s3 + V).
  { subst s3. destruct (s2 <? 0) eqn:E; zprop; bounds. }
  clearbody s3.
  unfold GoInt.sub. rewrite (wrap_id (n - V)) by bounds.
  destruct (n - V <? 0) eqn:E1; zprop;
    match goal with
    | |- context [if ?b then _ else _] => destruct b eqn:E2
    end; zprop; bounds.
Qed.

Lemma adjustScroll_invariant m :
  5 <= viewportHeight m <= GoInt.max_int ->
  0 <= cursor m < len m ->
  len m <= GoInt.max_int ->
  GoInt.in_range (scrollOffset m) ->
  0 <= scrollOffset (adjustScroll m) /\ scroll_invariant (adjustScroll m).
Proof.
  intros Hvh Hc Hn Hso. rewrite adjustScroll_reclamped.
  pose proof (reclamped_ok _ _ _ _ Hvh Hc Hn Hso) as H. cbv zeta in H.
  unfold scroll_invariant, cursor_visible, scroll_bounded, visible_rows.
  destruct m as [es c vh so q l e d pl].
  unfold set_scrollOffset, len in *;
    cbn [scrollOffset cursor viewportHeight entries] in *.
  lia.
Qed.

Lemma reclamp_after_move N H m c' :
  5 <= H <= GoInt.max_int -> N <= GoInt.max_int ->
  len m = N -> viewportHeight m = H -> GoInt.in_range (scrollOffset m) ->
  0 <= c' < N ->
  browsing N H (adjustScroll (set_cursor m c')).
Proof.
  intros HH HN Hlen Hvh Hso Hc.
  pose proof (adjustScroll_invariant (set_cursor m c')) as Hinv.
  destruct (adjustScroll_frame (set_cursor m c')) as [s Hs].
  rewrite Hs in *. destruct m as [es c vh so q l e d pl].
  unfold browsing, set_scrollOffset, set_cursor, len in *;
    cbn [scrollOffset cursor viewportHeight entries] in *.
  subst. destruct Hinv as [? ?]; auto.
Qed.

Lemma toggle_at_length es i es' :
  toggle_at es i = Some es' -> length es' = length es.
Proof.
  unfold toggle_at. destruct (GoSlice.index es i); simpl; [|discriminate].
  intros [= <-]. apply length_insert.
Qed.

Lemma toggle_at_in_range es i :
  0 <= i < GoSlice.len es -> is_Some (toggle_at es i).
Proof.
  intros Hi. unfold toggle_at, GoSlice.index, GoSlice.len in *.
  destruct (i <? 0) eqn:E; zprop; [lia|].
  destruct (lookup_lt_is_Some_2 es (Z.to_nat i)) as [e He]; [lia|].
  rewrite He. simpl. eauto.
Qed.

(** One key press keeps a browser with at least one visible row in a
    state that satisfies the invariant; the code does not panic. *)
Lemma handleKeyPress_browsing N H m key :
  1 <= N -> N + 10 <= GoInt.max_int -> 5 <= H <= GoInt.max_int ->
  browsing N H m ->
  exists m' cmd, handleKeyPress m key = Some (m', cmd) /\ browsing N H m'.
Proof.
  intros HN1 HN HH (Hlen & Hvh & Hc & Hso & Hinv).
  assert (Hso' : GoInt.in_range (scrollOffset m)).
  { destruct Hinv as [[? ?] _]. bounds. }
  assert (Hmove : forall c', 0 <= c' < N ->
            browsing N H (adjustScroll (set_cursor m c'))).
  { intros c' Hc'. apply reclamp_after_move; auto. bounds. }
  unfold handleKeyPress. rewrite Hlen.
  destruct (N =? 0) eqn:E0; zprop; [lia|].
  destruct (key_is key ["q"; "ctrl+c"]).
  { do 2 eexists. split; [reflexivity|].
    destruct m; unfold browsing, scroll_invariant, cursor_visible,
      scroll_bounded, len in *; cbn in *; auto. }
  destruct (key_is key ["up"; "k"]).
  { destruct (cursor m >? 0) eqn:E; zprop.
    - do 2 eexists. split; [reflexivity|]. apply Hmove.
      rewrite sub_id by bounds. lia.
    - do 2 eexists. split; [reflexivity|]. unfold browsing; tauto. }
  rewrite (sub_id N 1) by bounds.
  destruct (key_is key ["down"; "j"]).
  { destruct (cursor m <? N - 1) eqn:E; zprop.
    - do 2 eexists. split; [reflexivity|]. apply Hmove.
      rewrite add_id by bounds. lia.
    - do 2 eexists. split; [reflexivity|]. unfold browsing; tauto. }
  destruct (key_is key ["enter"; " "]).
  { destruct (cursor m <? N) eqn:E; zprop; [|lia].
    destruct (toggle_at_in_range (entries m) (cursor m)) as [es' Hes'].
    { unfold len in Hlen. lia. }
    rewrite Hes'. simpl. do 2 eexists. split; [reflexivity|].
    apply toggle_at_length in Hes'.
    destruct m; unfold browsing, scroll_invariant, cursor_visible,
      scroll_bounded, len, GoSlice.len in *; cbn in *.
    rewrite Hes'. auto. }
  destruct (key_is key ["pgup"]).
  { do 2 eexists. split; [reflexivity|].
    rewrite sub_id by bounds.
    destruct m as [es c vh so q l e d pl]; unfold set_cursor; cbn in *.
    destruct (c - 10 <? 0) eqn:E; zprop.
    - apply (Hmove 0). lia.
    - apply (Hmove (c - 10)). lia. }
  destruct (key_is key ["pgdown"]).
  { do 2 eexists. split; [reflexivity|].
    rewrite add_id by bounds.
    destruct m as [es c vh so q l e d pl]; unfold set_cursor, len; cbn in *.
    unfold len in Hlen; cbn in Hlen. rewrite Hlen.
    destruct (c + 10 >=? N) eqn:E; zprop.
    - rewrite sub_id by bounds. apply (Hmove (N - 1)). lia.
    - apply (Hmove (c + 10)). lia. }
  destruct (key_is key ["home"]).
  { do 2 eexists. split; [reflexivity|]. apply Hmove. lia. }
  destruct (key_is key ["end"]).
  { do 2 eexists. split; [reflexivity|]. apply Hmove. lia. }
  do 2 eexists. split; [reflexivity|]. unfold browsing; tauto.
Qed.

(** The event loop keeps the invariant along any sequence of key presses,
    and never panics. *)
Lemma run_browsing N H keys : forall m,
  1 <= N -> N + 10 <= GoInt.max_int -> 5 <= H <= GoInt.max_int ->
  browsing N H m ->
  exists m', run m (key_msgs keys) = Some m' /\ browsing N H m'.
Proof.
  induction keys as [|key keys IH]; intros m HN1 HN HH Hm.
  - exists m. split; [reflexivity | assumption].
  - destruct (handleKeyPress_browsing N H m key HN1 HN HH Hm)
      as (m1 & cmd & Hstep & Hm1).
    destruct (IH m1 HN1 HN HH Hm1) as (m' & Hrun & Hm').
    exists m'. split; [|assumption].
    simpl. rewrite Hstep. exact Hrun.
Qed.

Lemma loaded_browsing dir pl es H :
  (1 <= length es)%nat -> 5 <= H ->
  browsing (GoSlice.len es) H (loaded dir pl es H).
Proof.
  intros Hes HH.
  unfold browsing, scroll_invariant, cursor_visible, scroll_bounded,
    visible_rows, loaded, len, GoSlice.len; cbn. lia.
Qed.

(** The loaded state is the one the program reaches from [NewModel] by a
    resize to [H + 6] rows and the arrival of the entries. *)
Lemma loaded_reached dir pl es H w :
  GoInt.in_range H ->
  run (NewModel dir pl) [WindowSizeMsg w (H + 6); LoadEntriesMsg es None]
  = Some (loaded dir pl es H).
Proof.
  intros HH. cbn. unfold GoInt.sub.
  replace (H + 6 - 6) with H by lia. rewrite wrap_id by assumption.
  reflexivity.
Qed.

(** C1, as amended.  For a list of [N >= 1] entries ([N + 10] a Go [int])
    loaded into a browser whose viewport height [H] is at least 5, and a
    sequence of navigation events: after each event (after the first [n]
    events, for every [n]) the program has not panicked, the cursor is
    visible and the scroll offset respects its bound. *)
Theorem scroll_invariant_nav dir pl (es : list Entry) (H : Z)
        (evs : list NavEvent) (keys : list string) (n : nat) :
  (1 <= length es)%nat ->
  GoSlice.len es + 10 <= GoInt.max_int ->
  5 <= H <= GoInt.max_int ->
  Forall2 delivers evs keys ->
  exists m,
    run (loaded dir pl es H) (key_msgs (take n keys)) = Some m
    /\ scrollOffset m <= cursor m < scrollOffset m + Z.max 0 (H - 4)
    /\ scrollOffset m <= Z.max 0 (GoSlice.len es - Z.max 0 (H - 4)).
Proof.
  intros Hes HN HH _.
  destruct (run_browsing (GoSlice.len es) H (take n keys)
              (loaded dir pl es H)) as (m & Hrun & Hm); auto.
  { unfold GoSlice.len. lia. }
  { apply loaded_browsing; [assumption | lia]. }
  exists m. split; [exact Hrun|].
  destruct Hm as (Hlen & Hvh & _ & _ & Hvis & Hbound).
  unfold cursor_visible, scroll_bounded, visible_rows in *.
  rewrite Hvh, ?Hlen in *. auto.
Qed.

Lemma scroll_invariant_nav_witness :
  exists m,
    run (loaded "/j" 5 (sample 30) 9)
        (key_msgs (take 4 ["pgdown"; "j"; "end"; "enter"; "k"])) = Some m
    /\ scrollOffset m <= cursor m < scrollOffset m + Z.max 0 (9 - 4)
    /\ scrollOffset m
       <= Z.max 0 (GoSlice.len (sample 30) - Z.max 0 (9 - 4)).
Proof.
  apply (scroll_invariant_nav "/j" 5 (sample 30) 9
           [PageDown; MoveDown; End_; ToggleExpand; MoveUp]).
  - simpl. lia.
  - vm_compute. discriminate.
  - vm_compute. split; discriminate.
  - repeat (apply List.Forall2_cons;
            [first [left; reflexivity | right; left; reflexivity]|]).
    apply List.Forall2_nil.
Defined.

(** C1 as stated fails when no row is visible: with one entry and
    [H = 4] the Home key moves the scroll offset past the cursor. *)
Lemma scroll_invariant_small_viewport_counterexample :
  exists m,
    run (loaded "/j" 5 (sample 1) 4) (key_msgs ["home"]) = Some m
    /\ ~ (scrollOffset m <= cursor m < scrollOffset m + Z.max 0 (4 - 4)
          /\ scrollOffset m
             <= Z.max 0 (GoSlice.len (sample 1) - Z.max 0 (4 - 4))).
Proof.
  eexists. split; [vm_compute; reflexivity|].
  cbn. lia.
Qed.

(** C6, as amended.  A resize to [h] rows sets [viewportHeight] to
    [h - 6] and changes nothing else: cursor, scroll offset and entries
    are the ones of the model before; [adjustScroll] is not called. *)
Theorem resize_sets_height_only (m : Model) (w h : Z) :
  GoInt.min_int + 6 <= h <= GoInt.max_int ->
  Update m (WindowSizeMsg w h) = Some (set_viewportHeight m (h - 6), None).
Proof.
  intros Hh. cbn. rewrite sub_id by bounds. reflexivity.
Qed.

Lemma resize_sets_height_only_witness :
  Update (loaded "/j" 5 (sample 10) 20) (WindowSizeMsg 80 11)
  = Some (set_viewportHeight (loaded "/j" 5 (sample 10) 20) (11 - 6), None).
Proof.
  apply (resize_sets_height_only (loaded "/j" 5 (sample 10) 20) 80 11).
  vm_compute. split; discriminate.
Defined.

(** C6 as stated fails: ten entries in a viewport of height 20, the
    cursor moved to the last entry; the invariant holds.  A resize to 11
    rows leaves [scrollOffset = 0] with one visible row, and the cursor
    (at 9) is not visible in the state the resize produces. *)
Lemma resize_no_reclamp_counterexample :
  exists m m',
    run (loaded "/j" 5 (sample 10) 20) (key_msgs ["end"]) = Some m
    /\ scroll_invariant m
    /\ Update m (WindowSizeMsg 80 11) = Some (m', None)
    /\ viewportHeight m' = 11 - 6
    /\ ~ scroll_invariant m'.
Proof.
  do 2 eexists. split; [vm_compute; reflexivity|].
  split.
  { unfold scroll_invariant, cursor_visible, scroll_bounded, visible_rows,
      len, GoSlice.len; cbn. lia. }
  split; [vm_compute; reflexivity|].
  split; [reflexivity|].
  unfold scroll_invariant, cursor_visible, scroll_bounded, visible_rows,
    len, GoSlice.len; cbn. lia.
Qed.

End ScrollInvariant.

(** ** The renderer: the rows of a frame *)

Section Renderer.
Import Tui Spec.
Variable st : Styles.

(** The rows the loop of [View] renders: [k] more rows from index [i]
    on, where [k] counts the indices from [i] to the smaller of [end] and
    [len - 1], both included. *)
Lemma view_loop_rows m end_ : forall (k : nat) fuel i b rows,
  0 <= i -> len m <= GoInt.max_int -> (k < fuel)%nat ->
  Z.of_nat k = Z.max 0 (Z.min end_ (len m - 1) - i + 1) ->
  snd <$> view_loop st fuel m i end_ b rows
  = Some (rows ++ seqZ i (Z.of_nat k))%list.
Proof.
  induction k as [|k IH]; intros fuel i b rows Hi Hfit Hfuel Hk;
    (destruct fuel as [|fuel]; [lia|]); simpl view_loop.
  - destruct (Z.leb_spec i end_), (Z.ltb_spec i (len m)); simpl;
      rewrite ?app_nil_r; try reflexivity. lia.
  - destruct (Z.leb_spec i end_); [|lia].
    destruct (Z.ltb_spec i (len m)); [|lia]. simpl andb. cbv iota.
    assert (Hidx : is_Some (GoSlice.index (entries m) i)).
    { unfold GoSlice.index. destruct (Z.ltb_spec i 0); [lia|].
      apply lookup_lt_is_Some_2. unfold len, GoSlice.len in *. lia. }
    destruct Hidx as [entry ->]. simpl.
    assert (Hnext : GoInt.add i 1 = i + 1).
    { apply add_id. split; [|lia]. transitivity 0; [discriminate | lia]. }
    rewrite Hnext, IH by lia.
    rewrite <- app_assoc. simpl. f_equal. f_equal.
    rewrite (seqZ_cons i) by lia. do 2 f_equal; lia.
Qed.

(** In the Ready phase with entries, [View] renders a row for each index
    from [scrollOffset] to the smaller of [scrollOffset + viewportHeight - 4]
    and [len - 1], both ends included: up to [viewportHeight - 4 + 1]
    rows. *)
Lemma view_rows_range m :
  err m = None -> loading m = false -> 0 < len m <= GoInt.max_int ->
  0 <= scrollOffset m ->
  GoInt.in_range (scrollOffset m + viewportHeight m) ->
  GoInt.in_range (scrollOffset m + viewportHeight m - 4) ->
  snd <$> View_rows st m
  = Some (seqZ (scrollOffset m)
               (Z.max 0 (Z.min (scrollOffset m + viewportHeight m - 4)
                               (len m - 1)
                         - scrollOffset m + 1))).
Proof.
  intros Herr Hload Hlen Hso Hr1 Hr2. unfold View_rows.
  rewrite Herr, Hload.
  destruct (Z.eqb_spec (len m) 0); [lia|].
  unfold visibleRange, GoInt.add, GoInt.sub.
  rewrite (wrap_id (scrollOffset m + viewportHeight m)) by assumption.
  rewrite (wrap_id (scrollOffset m + viewportHeight m - 4)) by assumption.
  rewrite (wrap_id (len m - 1))
    by (split; [transitivity 0; [discriminate | lia] | lia]).
  set (end_ := if _ >=? len m then len m - 1 else _).
  assert (Hend : Z.min end_ (len m - 1)
                 = Z.min (scrollOffset m + viewportHeight m - 4) (len m - 1)).
  { subst end_. rewrite Z.geb_leb.
    destruct (Z.leb_spec (len m) (scrollOffset m + viewportHeight m - 4)); lia. }
  rewrite <- Hend.
  pose proof (view_loop_rows m end_
                (Z.to_nat (Z.max 0 (Z.min end_ (len m - 1)
                                    - scrollOffset m + 1)))
                (S (length (entries m))) (scrollOffset m)
                (titleStyle st "📖 Journal Timeline" ++ newline ++ newline) [])
    as Hloop.
  rewrite Z2Nat.id in Hloop by lia.
  destruct (view_loop st _ m _ end_ _ []) as [[b rows]|]; simpl in *.
  - apply Hloop; unfold len, GoSlice.len in *; lia.
  - apply Hloop; unfold len, GoSlice.len in *; lia.
Qed.

(** C5, the code at the failing input.  Three entries, viewport height 5
    (so [visibleHeight = 5 - 4 = 1]), cursor and scroll offset 0: the
    frame has a row for index 0 and a row for index 1, where the range
    [[scrollOffset, min(scrollOffset + visibleHeight, len) - 1]] holds
    index 0 only. *)
Theorem view_renders_one_row_more :
  let m := loaded "/j" 5 (sample 3) 5 in
  let e := mkEntry "2024-01-15" "/j/2024-01-15.md" "Title" ["text"] false in
  GoInt.sub (viewportHeight m) 4 = 1
  /\ Z.min (scrollOffset m + 1) (len m) - 1 = 0
  /\ View_rows st m
     = Some ((((titleStyle st "📖 Journal Timeline" ++ newline ++ newline)
                 ++ renderEntry st e true ++ newline)
                ++ renderEntry st e false ++ newline)
               ++ newline
               ++ helpStyle st "↑/k up • ↓/j down • enter/space toggle • q quit",
             [0; 1]).
Proof.
  split; [reflexivity|]. split; [reflexivity|].
  vm_compute. reflexivity.
Qed.

End Renderer.

(** ** Go strings: slices, prefixes and suffixes *)

Section StringFacts.
Import GoStrings.

Lemma substring_prefix_app a b :
  String.substring 0 (String.length a) (a ++ b) = a.
Proof.
  induction a as [|c a IH]; simpl.
  - destruct b; reflexivity.
  - rewrite IH. reflexivity.
Qed.

Lemma substring_all b : String.substring 0 (String.length b) b = b.
Proof. induction b as [|c b IH]; simpl; [|rewrite IH]; reflexivity. Qed.

Lemma substring_suffix_app a b :
  String.substring (String.length a) (String.length b) (a ++ b) = b.
Proof.
  induction a as [|c a IH]; simpl; [apply substring_all | exact IH].
Qed.

Lemma substring_split s : forall k,
  (k <= String.length s)%nat ->
  s = String.substring 0 k s
      ++ String.substring k (String.length s - k) s.
Proof.
  induction s as [|c s IH]; intros [|k] Hk; simpl in *; try lia.
  - reflexivity.
  - rewrite substring_all. reflexivity.
  - transitivity (String c (String.substring 0 k s
               ++ String.substring k (String.length s - k) s));
      [f_equal; apply IH; lia | reflexivity].
Qed.

Lemma string_length_app a b :
  String.length (a ++ b) = (String.length a + String.length b)%nat.
Proof. induction a; simpl; [|rewrite IHa]; reflexivity. Qed.

Lemma HasSuffix_app a b : HasSuffix (a ++ b) b = true.
Proof.
  unfold HasSuffix, slice, strlen. rewrite string_length_app.
  apply andb_true_intro. split; [apply Z.leb_le; lia|].
  apply String.eqb_eq.
  replace (Z.to_nat (Z.of_nat (String.length a + String.length b)
                     - Z.of_nat (String.length b)))
    with (String.length a) by lia.
  replace (Z.to_nat (Z.of_nat (String.length a + String.length b)
                     - (Z.of_nat (String.length a + String.length b)
                        - Z.of_nat (String.length b))))
    with (String.length b) by lia.
  apply substring_suffix_app.
Qed.

Lemma TrimSuffix_app a b : TrimSuffix (a ++ b) b = a.
Proof.
  unfold TrimSuffix. rewrite HasSuffix_app.
  unfold slice, strlen. rewrite string_length_app.
  replace (Z.to_nat (Z.of_nat (String.length a + String.length b)
                     - Z.of_nat (String.length b) - 0))
    with (String.length a) by lia.
  apply substring_prefix_app.
Qed.

Lemma HasSuffix_split s suffix :
  HasSuffix s suffix = true -> s = TrimSuffix s suffix ++ suffix.
Proof.
  intros H. unfold TrimSuffix. rewrite H.
  unfold HasSuffix in H. apply andb_prop in H as [Hlen Heq].
  apply Z.leb_le in Hlen. apply String.eqb_eq in Heq.
  unfold slice, strlen in *.
  set (k := Z.to_nat (Z.of_nat (String.length s)
                      - Z.of_nat (String.length suffix))).
  assert (Hk : (k <= String.length s)%nat) by lia.
  assert (Heq' : String.substring k (String.length s - k) s = suffix).
  { etransitivity; [|exact Heq]. f_equal; lia. }
  transitivity (String.substring 0 k s
                ++ String.substring k (String.length s - k) s);
    [apply substring_split; exact Hk|].
  f_equal; [f_equal; lia | exact Heq'].
Qed.

End StringFacts.

(** ** [time.Parse] with the layout of a date *)

Section DateFacts.
Import GoStrings GoTime Spec.

Lemma is_digit_test c :
  (48 <=? byte c) && (byte c <=? 57) = true <-> is_digit c.
Proof.
  unfold is_digit. rewrite andb_true_iff, Z.leb_le, Z.leb_le. tauto.
Qed.

Lemma is_digit_test_false c :
  ~ is_digit c -> (48 <=? byte c) && (byte c <=? 57) = false.
Proof.
  intros H. destruct (_ && _) eqn:E; [|reflexivity].
  apply is_digit_test in E. contradiction.
Qed.

Lemma is_digit_dec c : {is_digit c} + {~ is_digit c}.
Proof.
  unfold is_digit.
  destruct (Z_le_dec 48 (byte c)); destruct (Z_le_dec (byte c) 57);
    [left | right | right | right]; lia.
Defined.

Lemma isDigit_nil i : isDigit "" i = false.
Proof.
  unfold isDigit, strlen, byte_at.
  destruct (_ <=? _); [reflexivity|].
  destruct (Z.to_nat i); reflexivity.
Qed.

Lemma isDigit_0 c rest :
  isDigit (String c rest) 0 = (48 <=? byte c) && (byte c <=? 57).
Proof.
  unfold isDigit, strlen, byte_at. simpl String.length.
  destruct (Z.leb_spec (Z.of_nat (S (String.length rest))) 0); [lia|].
  reflexivity.
Qed.

Lemma isDigit_1 c0 s :
  isDigit (String c0 s) 1 = isDigit s 0.
Proof.
  unfold isDigit, strlen, byte_at. simpl String.length.
  destruct s as [|c1 rest]; simpl String.length.
  - reflexivity.
  - destruct (Z.leb_spec (Z.of_nat (S (S (String.length rest)))) 1); [lia|].
    destruct (Z.leb_spec (Z.of_nat (S (String.length rest))) 0); [lia|].
    reflexivity.
Qed.

Lemma slice_tail s (k : nat) :
  (k <= String.length s)%nat ->
  slice s (Z.of_nat k) (strlen s)
  = String.substring k (String.length s - k) s.
Proof.
  intros Hk. unfold slice, strlen. f_equal; lia.
Qed.

Lemma substring_drop c s k n :
  String.substring (S k) n (String c s) = String.substring k n s.
Proof. reflexivity. Qed.

(** [getnum] with [fixed = true] reads exactly two digits. *)
Lemma getnum_fixed_iff s n rest :
  getnum s true = Some (n, rest)
  <-> exists c1 c2,
        s = String c1 (String c2 rest) /\ is_digit c1 /\ is_digit c2
        /\ n = number [c1; c2].
Proof.
  unfold getnum, number. simpl fold_left. destruct s as [|c1 [|c2 r]].
  - rewrite isDigit_nil. simpl. split; [discriminate|].
    intros (? & ? & ? & _). discriminate.
  - rewrite isDigit_1, isDigit_nil, isDigit_0.
    destruct (_ && _); simpl; (split; [discriminate|]);
      intros (? & ? & ? & _); discriminate.
  - rewrite isDigit_1, !isDigit_0.
    change 2 with (Z.of_nat 2). rewrite slice_tail by (simpl; lia).
    simpl String.length. rewrite !substring_drop.
    replace (S (S (String.length r)) - 2)%nat with (String.length r) by lia.
    rewrite substring_all. unfold byte_at. simpl.
    destruct (is_digit_dec c1) as [H1|H1], (is_digit_dec c2) as [H2|H2].
    + rewrite (proj2 (is_digit_test c1) H1), (proj2 (is_digit_test c2) H2).
      simpl. split.
      * intros [= <- <-]. exists c1, c2.
        split; [reflexivity|]. do 2 (split; [assumption|]). lia.
      * intros (? & ? & [= <- <- <-] & _ & _ & ->). do 2 f_equal. lia.
    + rewrite (proj2 (is_digit_test c1) H1), (is_digit_test_false c2 H2).
      simpl. split; [discriminate|].
      intros (? & ? & [= <- <- <-] & _ & ? & _). contradiction.
    + rewrite (is_digit_test_false c1 H1). simpl. split; [discriminate|].
      intros (? & ? & [= <- <- <-] & ? & _). contradiction.
    + rewrite (is_digit_test_false c1 H1). simpl. split; [discriminate|].
      intros (? & ? & [= <- <- <-] & ? & _). contradiction.
Qed.

Lemma leadingInt_digit c rest x :
  is_digit c -> 0 <= x <= 1000000 ->
  leadingInt (String c rest) x = leadingInt rest (x * 10 + byte c - 48).
Proof.
  unfold is_digit. intros Hc Hx. simpl.
  destruct (Z.ltb_spec (byte c) 48); [lia|].
  destruct (Z.ltb_spec 57 (byte c)); [lia|]. simpl.
  rewrite !Z.gtb_ltb.
  destruct (Z.ltb_spec (2 ^ 63 / 10) x) as [Hov|_].
  { change (2 ^ 63 / 10) with 922337203685477580 in Hov. lia. }
  destruct (Z.ltb_spec (2 ^ 63) (x * 10 + byte c - 48)) as [Hov|_].
  { change (2 ^ 63) with 9223372036854775808 in Hov. lia. }
  reflexivity.
Qed.

Lemma leadingInt_nondigit c rest x :
  ~ is_digit c -> leadingInt (String c rest) x = Some (x, String c rest).
Proof.
  unfold is_digit. intros Hc. simpl.
  destruct (Z.ltb_spec (byte c) 48); [reflexivity|].
  destruct (Z.ltb_spec 57 (byte c)); [reflexivity|]. lia.
Qed.

(** [atoi] of four bytes succeeds exactly when all four are digits. *)
Lemma atoi_four c1 c2 c3 c4 y :
  atoi (String c1 (String c2 (String c3 (String c4 "")))) = Some y
  <-> Forall is_digit [c1; c2; c3; c4] /\ y = number [c1; c2; c3; c4].
Proof.
  unfold atoi, number. simpl fold_left.
  destruct (is_digit_dec c1) as [H1|H1];
    [rewrite leadingInt_digit by (unfold is_digit in *; auto; lia)
    |rewrite leadingInt_nondigit by assumption;
     split; [discriminate | intros [H _]; inversion H; contradiction]].
  destruct (is_digit_dec c2) as [H2|H2];
    [rewrite leadingInt_digit by (unfold is_digit in *; auto; lia)
    |rewrite leadingInt_nondigit by assumption;
     split; [discriminate
            | intros [H _]; inversion_clear H as [|? ? _ H'];
              inversion H'; contradiction]].
  destruct (is_digit_dec c3) as [H3|H3];
    [rewrite leadingInt_digit by (unfold is_digit in *; auto; lia)
    |rewrite leadingInt_nondigit by assumption;
     split; [discriminate
            | intros [H _]; inversion_clear H as [|? ? _ H'];
              inversion_clear H' as [|? ? _ H'']; inversion H'';
              contradiction]].
  destruct (is_digit_dec c4) as [H4|H4];
    [rewrite leadingInt_digit by (unfold is_digit in *; auto; lia)
    |rewrite leadingInt_nondigit by assumption;
     split; [discriminate
            | intros [H _]; inversion_clear H as [|? ? _ H'];
              inversion_clear H' as [|? ? _ H''];
              inversion_clear H'' as [|? ? _ H''']; inversion H''';
              contradiction]].
  simpl. split.
  - intros [= <-]. split; [|lia].
    repeat (apply List.Forall_cons; [assumption|]). apply List.Forall_nil.
  - intros [_ ->]. f_equal. lia.
Qed.

(** The year chunk reads exactly four digits. *)
Lemma longYear_iff v y rest :
  longYear v = Some (y, rest)
  <-> exists c1 c2 c3 c4,
        v = String c1 (String c2 (String c3 (String c4 rest)))
        /\ Forall is_digit [c1; c2; c3; c4]
        /\ y = number [c1; c2; c3; c4].
Proof.
  unfold longYear.
  destruct v as [|c1 [|c2 [|c3 [|c4 r]]]];
    try (simpl; split; [discriminate | intros (? & ? & ? & ? & ? & _);
                                        discriminate]).
  assert (Hlen : (strlen (String c1 (String c2 (String c3 (String c4 r))))
                  <? 4) = false).
  { apply Z.ltb_ge. unfold strlen. simpl String.length. lia. }
  rewrite Hlen, isDigit_0. simpl orb.
  assert (Hyear : slice (String c1 (String c2 (String c3 (String c4 r)))) 0 4
                  = String c1 (String c2 (String c3 (String c4 ""))))
    by (unfold slice; simpl; destruct r; reflexivity).
  rewrite Hyear.
  change 4 with (Z.of_nat 4). rewrite slice_tail by (simpl; lia).
  simpl String.length. rewrite !substring_drop.
  replace (S (S (S (S (String.length r)))) - 4)%nat
    with (String.length r) by lia.
  rewrite substring_all.
  destruct (atoi _) as [y'|] eqn:Hy.
  - apply atoi_four in Hy as [Hd ->].
    assert (H1 : is_digit c1) by (inversion Hd; assumption).
    rewrite (proj2 (is_digit_test c1) H1). simpl. split.
    + intros [= <- <-]. eauto 10.
    + intros (? & ? & ? & ? & [= <- <- <- <- <-] & _ & ->). reflexivity.
  - assert (Hnot : ~ Forall is_digit [c1; c2; c3; c4]).
    { intros Hd.
      assert (Hsome : atoi (String c1 (String c2 (String c3 (String c4 ""))))
                      = Some (number [c1; c2; c3; c4]))
        by (apply atoi_four; auto).
      congruence. }
    destruct (negb _); simpl; (split; [discriminate|]);
      intros (? & ? & ? & ? & [= <- <- <- <- <-] & Hd & _); contradiction.
Qed.

Lemma isLeap_iff y : isLeap y = true <-> leap_year y.
Proof.
  unfold isLeap, leap_year.
  rewrite andb_true_iff, orb_true_iff, negb_true_iff, !Z.eqb_eq, Z.eqb_neq.
  rewrite <- !Z.mod_divide by lia. tauto.
Qed.

(** [daysIn] is the length of the month in the Gregorian calendar. *)
Lemma daysIn_iff y m n :
  month_length y m n <-> 1 <= m <= 12 /\ n = daysIn m y.
Proof.
  unfold month_length, daysIn. simpl In.
  destruct (isLeap y) eqn:Hleap.
  - apply isLeap_iff in Hleap.
    split.
    + intros [[H ->] | [[H ->] | [(-> & _ & ->) | (-> & Hn & _)]]];
        [| | split; [lia | reflexivity] | contradiction];
        repeat destruct H as [<- | H]; try contradiction;
        split; (lia || reflexivity).
    + intros [Hm ->].
      assert (Hcases : m = 1 \/ m = 2 \/ m = 3 \/ m = 4 \/ m = 5 \/ m = 6
                       \/ m = 7 \/ m = 8 \/ m = 9 \/ m = 10 \/ m = 11
                       \/ m = 12) by lia.
      repeat destruct Hcases as [-> | Hcases]; try subst m; simpl;
        tauto.
  - assert (Hn : ~ leap_year y).
    { intros H. apply isLeap_iff in H. congruence. }
    split.
    + intros [[H ->] | [[H ->] | [(-> & Hl & _) | (-> & _ & ->)]]];
        [| | contradiction | split; [lia | reflexivity]];
        repeat destruct H as [<- | H]; try contradiction;
        split; (lia || reflexivity).
    + intros [Hm ->].
      assert (Hcases : m = 1 \/ m = 2 \/ m = 3 \/ m = 4 \/ m = 5 \/ m = 6
                       \/ m = 7 \/ m = 8 \/ m = 9 \/ m = 10 \/ m = 11
                       \/ m = 12) by lia.
      repeat destruct Hcases as [-> | Hcases]; try subst m; simpl;
        tauto.
Qed.

Lemma real_date_iff y m d :
  real_date y m d <-> 1 <= m <= 12 /\ 1 <= d <= daysIn m y.
Proof.
  unfold real_date. split.
  - intros (n & Hn & Hd). apply daysIn_iff in Hn as [Hm ->]. auto.
  - intros [Hm Hd]. exists (daysIn m y). split; [|assumption].
    apply daysIn_iff. auto.
Qed.

(** [time.Parse] accepts exactly the ten bytes [YYYY-MM-DD] of a date of
    the calendar. *)
Lemma ParseDate_iff value y m d :
  ParseDate value = Some (y, m, d)
  <-> exists y1 y2 y3 y4 m1 m2 d1 d2 : ascii,
        Forall is_digit [y1; y2; y3; y4; m1; m2; d1; d2]
        /\ value = String y1 (String y2 (String y3 (String y4 (String "-"
                     (String m1 (String m2 (String "-"
                     (String d1 (String d2 "")))))))))
        /\ y = number [y1; y2; y3; y4] /\ m = number [m1; m2]
        /\ d = number [d1; d2]
        /\ real_date y m d.
Proof.
  unfold ParseDate. split.
  - destruct (longYear value) as [[y' v1]|] eqn:Hy; simpl; [|discriminate].
    apply longYear_iff in Hy as (y1 & y2 & y3 & y4 & -> & Hyd & ->).
    destruct v1 as [|dash1 v2]; simpl; [discriminate|].
    destruct (Ascii.ascii_dec dash1 "-") as [->|Hne];
      [|destruct dash1 as [[] [] [] [] [] [] [] []]; simpl;
        try discriminate; contradiction].
    simpl.
    destruct (getnum v2 true) as [[m' v3]|] eqn:Hm; simpl; [|discriminate].
    apply getnum_fixed_iff in Hm as (m1 & m2 & -> & Hm1 & Hm2 & ->).
    destruct ((number [m1; m2] <=? 0) || (12 <? number [m1; m2])) eqn:Hrange;
      [discriminate|].
    apply orb_false_elim in Hrange as [Hlo Hhi]. zprop.
    destruct v3 as [|dash2 v4]; simpl; [discriminate|].
    destruct (Ascii.ascii_dec dash2 "-") as [->|Hne];
      [|destruct dash2 as [[] [] [] [] [] [] [] []]; simpl;
        try discriminate; contradiction].
    simpl.
    destruct (getnum v4 true) as [[d' v5]|] eqn:Hd; simpl; [|discriminate].
    apply getnum_fixed_iff in Hd as (d1 & d2 & -> & Hd1 & Hd2 & ->).
    destruct v5 as [|extra v6]; [|unfold strlen; simpl; discriminate].
    change (negb (strlen "" =? 0)) with false. cbv iota.
    destruct ((number [d1; d2] <? 1) || _) eqn:Hday; [discriminate|].
    apply orb_false_elim in Hday as [Hd_lo Hd_hi]. zprop.
    intros [= <- <- <-].
    exists y1, y2, y3, y4, m1, m2, d1, d2.
    split.
    { inversion_clear Hyd as [|? ? Hy1 Hyd1].
      inversion_clear Hyd1 as [|? ? Hy2 Hyd2].
      inversion_clear Hyd2 as [|? ? Hy3 Hyd3].
      inversion_clear Hyd3 as [|? ? Hy4 _].
      repeat (apply List.Forall_cons; [assumption|]). apply List.Forall_nil. }
    repeat (split; [reflexivity|]).
    apply real_date_iff. lia.
  - intros (y1 & y2 & y3 & y4 & m1 & m2 & d1 & d2
            & Hdig & -> & -> & -> & -> & Hreal).
    apply real_date_iff in Hreal as [Hm Hd].
    inversion_clear Hdig as [|? ? Hy1 Hdig1].
    inversion_clear Hdig1 as [|? ? Hy2 Hdig2].
    inversion_clear Hdig2 as [|? ? Hy3 Hdig3].
    inversion_clear Hdig3 as [|? ? Hy4 Hdig4].
    inversion_clear Hdig4 as [|? ? Hm1 Hdig5].
    inversion_clear Hdig5 as [|? ? Hm2 Hdig6].
    inversion_clear Hdig6 as [|? ? Hd1 Hdig7].
    inversion_clear Hdig7 as [|? ? Hd2 _].
    match goal with
    | |- context [longYear ?v] =>
        assert (Hy : longYear v
                     = Some (number [y1; y2; y3; y4],
                             String "-" (String m1 (String m2 (String "-"
                               (String d1 (String d2 "")))))))
    end.
    { apply longYear_iff. exists y1, y2, y3, y4.
      split; [reflexivity|]. split; [|reflexivity].
      repeat (apply List.Forall_cons; [assumption|]). apply List.Forall_nil. }
    rewrite Hy. simpl.
    assert (Hmn : getnum (String m1 (String m2 (String "-"
                            (String d1 (String d2 ""))))) true
                  = Some (number [m1; m2],
                          String "-" (String d1 (String d2 "")))).
    { apply getnum_fixed_iff. exists m1, m2. auto. }
    rewrite Hmn. simpl.
    assert (Hrange : (number [m1; m2] <=? 0) || (12 <? number [m1; m2])
                     = false).
    { apply orb_false_intro; [apply Z.leb_gt | apply Z.ltb_ge]; lia. }
    rewrite Hrange. simpl.
    assert (Hdn : getnum (String d1 (String d2 "")) true
                  = Some (number [d1; d2], "")).
    { apply getnum_fixed_iff. exists d1, d2. auto. }
    rewrite Hdn. simpl.
    assert (Hday : (number [d1; d2] <? 1)
                   || (number [d1; d2]
                       >? daysIn (number [m1; m2]) (number [y1; y2; y3; y4]))
                   = false).
    { apply orb_false_intro; [apply Z.ltb_ge | rewrite Z.gtb_ltb;
                                               apply Z.ltb_ge]; lia. }
    rewrite Hday. reflexivity.
Qed.

(** The file names [isValidDateFormat] accepts. *)
Lemma isValidDateFormat_iff s :
  Vault.isValidDateFormat s = true <-> entry_filename s.
Proof.
  unfold Vault.isValidDateFormat, entry_filename. split.
  - destruct (HasSuffix s ".md") eqn:Hsuf; simpl; [|discriminate].
    apply HasSuffix_split in Hsuf.
    destruct (ParseDate (TrimSuffix s ".md")) as [[[y m] d]|] eqn:Hp;
      [|discriminate].
    intros _.
    apply ParseDate_iff in Hp
      as (y1 & y2 & y3 & y4 & m1 & m2 & d1 & d2
          & Hdig & Hd & -> & -> & -> & Hreal).
    exists y1, y2, y3, y4, m1, m2, d1, d2.
    split; [assumption|]. split; [|assumption].
    rewrite Hsuf, Hd. reflexivity.
  - intros (y1 & y2 & y3 & y4 & m1 & m2 & d1 & d2 & Hdig & -> & Hreal).
    set (date := String y1 (String y2 (String y3 (String y4 (String "-"
                   (String m1 (String m2 (String "-"
                   (String d1 (String d2 "")))))))))).
    change (String y1 _) with (date ++ ".md").
    rewrite HasSuffix_app, TrimSuffix_app. simpl negb. cbv iota.
    assert (Hp : ParseDate date
                 = Some (number [y1; y2; y3; y4], number [m1; m2],
                         number [d1; d2])).
    { apply ParseDate_iff. exists y1, y2, y3, y4, m1, m2, d1, d2. auto 10. }
    rewrite Hp. reflexivity.
Qed.

End DateFacts.

(** ** The entry store: listing *)

Section Listing.
Import GoStrings GoOS Vault Spec.

Lemma collect_filter entries : forall mdFiles,
  collect entries mdFiles
  = (mdFiles ++ map de_Name (List.filter keep entries))%list.
Proof.
  induction entries as [|entry rest IH]; intros mdFiles; simpl.
  - rewrite app_nil_r. reflexivity.
  - unfold keep at 1. destruct (de_IsDir entry); simpl; [apply IH|].
    destruct (HasSuffix (de_Name entry) ".md" && _); simpl;
      rewrite IH; [rewrite <- app_assoc|]; reflexivity.
Qed.

Lemma keep_iff name :
  keep (mkDirEntry name false) = true <-> entry_filename name.
Proof.
  unfold keep. simpl. rewrite andb_true_iff, isValidDateFormat_iff.
  split; [tauto|]. intros H. split; [|assumption].
  apply isValidDateFormat_iff in H. unfold isValidDateFormat in H.
  destruct (HasSuffix name ".md"); [reflexivity | discriminate].
Qed.

Lemma filter_Permutation_bool {A} (f : A -> bool) (l l' : list A) :
  l ≡ₚ l' -> List.filter f l ≡ₚ List.filter f l'.
Proof.
  induction 1 as [|x l l' _ IH|x y l|l l' l'' _ IH1 _ IH2]; simpl.
  - reflexivity.
  - destruct (f x); [constructor|]; exact IH.
  - destruct (f x), (f y); try reflexivity. apply perm_swap.
  - etransitivity; eassumption.
Qed.

#[local] Instance newer_first_trans : Transitive newer_first.
Proof. intros a b c Hab Hbc. unfold newer_first in *. etransitivity; eassumption. Qed.

#[local] Instance newer_first_antisym : AntiSymm (=) newer_first.
Proof.
  intros a b Hab Hba. unfold newer_first in *.
  apply (anti_symm String.le); assumption.
Qed.

#[local] Instance newer_first_total : Total newer_first.
Proof. intros a b. unfold newer_first. destruct (total String.le a b); auto. Qed.

#[local] Instance name_le_total : Total name_le.
Proof. intros a b. unfold name_le. apply (total String.le). Qed.

(** A list has one descending arrangement: sorting two permutations of
    it gives the same list, whatever the sorting algorithm. *)
Lemma descending_unique (l sorted : list string) :
  Sorted newer_first sorted -> sorted ≡ₚ l ->
  sorted = merge_sort newer_first l.
Proof.
  intros Hs Hp. apply (Sorted_unique newer_first); [assumption | |].
  - apply Sorted_merge_sort, _.
  - rewrite merge_sort_Permutation. exact Hp.
Qed.

Lemma ListEntries_ok fs v entries :
  ReadDir fs (Directory v) = Ok entries ->
  ListEntries fs v
  = Ok (merge_sort newer_first (map de_Name (List.filter keep entries))).
Proof.
  intros H. unfold ListEntries. rewrite H, collect_filter. reflexivity.
Qed.

(** C2.  A non-directory child called [s] of the journal directory is in
    the list [ListEntries] returns exactly when [s] is [YYYY-MM-DD.md]
    for a date of the Gregorian calendar.  For the file names of the
    specification: [2024-02-29.md] is listed, [2023-02-29.md],
    [2024-13-01.md], [2024-1-5.md] and [README.md] are not. *)
Theorem list_entries_accepts_dates :
  (forall fs v entries s,
      ReadDir fs (Directory v) = Ok entries ->
      In (mkDirEntry s false) entries ->
      exists listed,
        ListEntries fs v = Ok listed
        /\ (In s listed <-> entry_filename s))
  /\ ListEntries
       (journal (regular_files ["2024-02-29.md"; "2023-02-29.md";
                                "2024-13-01.md"; "2024-1-5.md";
                                "README.md"]))
       (mkVault "/j")
     = Ok ["2024-02-29.md"].
Proof.
  split; [|vm_compute; reflexivity].
  intros fs v entries s Hdir Hin.
  eexists. split; [apply ListEntries_ok; exact Hdir|].
  rewrite <- list_elem_of_In, merge_sort_Permutation, list_elem_of_In.
  rewrite in_map_iff. split.
  - intros ([name isdir] & <- & Hx). apply filter_In in Hx as [_ Hx].
    simpl. destruct isdir; [discriminate|]. apply keep_iff. exact Hx.
  - intros Hs. exists (mkDirEntry s false). split; [reflexivity|].
    apply filter_In. split; [assumption|]. apply keep_iff. exact Hs.
Qed.

Lemma list_entries_accepts_dates_witness :
  exists listed,
    ListEntries (journal (regular_files ["2024-02-29.md"; "notes.md"]))
                (mkVault "/j") = Ok listed
    /\ (In "notes.md" listed <-> entry_filename "notes.md").
Proof.
  apply (proj1 list_entries_accepts_dates
           (journal (regular_files ["2024-02-29.md"; "notes.md"]))
           (mkVault "/j")
           [mkDirEntry "2024-02-29.md" false; mkDirEntry "notes.md" false]).
  - vm_compute. reflexivity.
  - right. left. reflexivity.
Defined.

(** C3.  The list [ListEntries] returns is in descending lexicographic
    order; and for a journal directory whose children are the five files
    [2024-01-10.md], [2024-01-20.md], [2024-01-15.md], [not-a-date.md]
    and [readme.md], in whatever order the directory holds them, the list
    is exactly [2024-01-20.md], [2024-01-15.md], [2024-01-10.md]. *)
Theorem list_entries_newest_first :
  (forall fs v listed, ListEntries fs v = Ok listed -> descending listed)
  /\ (forall children,
        children ≡ₚ regular_files ["2024-01-10.md"; "2024-01-20.md";
                                    "2024-01-15.md"; "not-a-date.md";
                                    "readme.md"] ->
        ListEntries (journal children) (mkVault "/j")
        = Ok ["2024-01-20.md"; "2024-01-15.md"; "2024-01-10.md"]).
Proof.
  split.
  - intros fs v listed. unfold ListEntries.
    destruct (ReadDir fs (Directory v)); [|discriminate].
    intros [= <-]. unfold descending.
    apply (StronglySorted_merge_sort newer_first).
  - intros children Hperm.
    rewrite (ListEntries_ok _ _
               (merge_sort name_le
                  (map (fun '(n, o) => mkDirEntry n (is_dir o)) children)))
      by reflexivity.
    f_equal. symmetry. apply descending_unique.
    + repeat constructor.
    + symmetry.
      etransitivity;
        [apply Permutation_map, filter_Permutation_bool,
           (merge_sort_Permutation name_le)|].
      etransitivity;
        [apply Permutation_map, filter_Permutation_bool, Permutation_map,
           Hperm|].
      vm_compute. etransitivity; [apply perm_swap|].
      apply perm_skip, perm_swap.
Qed.

Lemma list_entries_newest_first_witness :
  descending ["2024-01-20.md"; "2024-01-15.md"; "2024-01-10.md"]
  /\ ListEntries
       (journal (regular_files ["2024-01-10.md"; "2024-01-20.md";
                                "2024-01-15.md"; "not-a-date.md";
                                "readme.md"]))
       (mkVault "/j")
     = Ok ["2024-01-20.md"; "2024-01-15.md"; "2024-01-10.md"].
Proof.
  assert (H : ListEntries
       (journal (regular_files ["2024-01-10.md"; "2024-01-20.md";
                                "2024-01-15.md"; "not-a-date.md";
                                "readme.md"]))
       (mkVault "/j")
     = Ok ["2024-01-20.md"; "2024-01-15.md"; "2024-01-10.md"]).
  { apply (proj2 list_entries_newest_first). reflexivity. }
  split; [|exact H].
  exact (proj1 list_entries_newest_first _ _ _ H).
Defined.

End Listing.

(** ** The entry loader: title and preview *)

Section Loader.
Import GoStrings Tui Spec.

Lemma Split_length s sep :
  (length (Split s sep) <= S (String.length s))%nat.
Proof.
  induction s as [|c s IH]; simpl; [lia|].
  destruct (Ascii.eqb c sep); simpl; [lia|].
  destruct (Split s sep); simpl in *; lia.
Qed.

(** The first loop finds the first heading; [i] is the index of the head
    of [lines] in the whole slice. *)
Lemma find_title_first_heading lines : forall (i : nat) title previewStart,
  Z.of_nat (i + length lines) <= GoInt.max_int ->
  find_title lines (Z.of_nat i) title previewStart
  = match first_heading lines with
    | Some (k, line) => (heading_title line, Z.of_nat (i + S k))
    | None => (title, previewStart)
    end.
Proof.
  induction lines as [|line rest IH]; intros i title previewStart Hfit;
    simpl; [reflexivity|].
  simpl in Hfit.
  assert (Hnext : GoInt.add (Z.of_nat i) 1 = Z.of_nat (S i)).
  { rewrite add_id; [lia|]. split; [|lia].
    transitivity 0; [discriminate | lia]. }
  unfold is_heading. destruct (HasPrefix (TrimSpace line) "# ").
  - rewrite Hnext. unfold heading_title. do 2 f_equal. lia.
  - rewrite Hnext, IH by lia.
    destruct (first_heading rest) as [[k h]|]; [|reflexivity].
    do 2 f_equal. lia.
Qed.

(** The second loop: with [lines = pre ++ rem], the loop variable at the
    head of [rem] and [previewCount] the length of [preview]. *)
Lemma collect_preview_spec lines previewLines : forall rem pre fuel preview,
  lines = (pre ++ rem)%list ->
  (length rem < fuel)%nat ->
  GoSlice.len lines <= GoInt.max_int ->
  (length preview <= length pre)%nat ->
  collect_preview fuel lines previewLines (GoSlice.len pre) preview
                  (GoSlice.len preview)
  = Some (preview
          ++ (if 0 <? GoSlice.len preview
              then take (Z.to_nat (previewLines - GoSlice.len preview)) rem
              else preview_of rem previewLines))%list.
Proof.
  unfold preview_of.
  induction rem as [|line rem IH]; intros pre fuel preview Hlines Hfuel Hfit Hcount;
    (destruct fuel as [|fuel]; [simpl in Hfuel; lia|]); simpl collect_preview.
  - subst lines. rewrite app_nil_r, Z.ltb_irrefl. simpl.
    rewrite !take_nil. destruct (0 <? _); rewrite app_nil_r; reflexivity.
  - assert (Hlen : GoSlice.len lines
                   = GoSlice.len pre + 1 + GoSlice.len rem).
    { subst lines. unfold GoSlice.len. rewrite length_app. simpl. lia. }
    assert (Hpre : 0 <= GoSlice.len pre) by (unfold GoSlice.len; lia).
    assert (Hrem : 0 <= GoSlice.len rem) by (unfold GoSlice.len; lia).
    assert (Hpv : 0 <= GoSlice.len preview <= GoSlice.len pre)
      by (unfold GoSlice.len; lia).
    destruct (Z.ltb_spec (GoSlice.len pre) (GoSlice.len lines)); [|lia].
    simpl andb.
    destruct (Z.ltb_spec (GoSlice.len preview) previewLines) as [Hlt|Hge].
    + assert (Hidx : GoSlice.index lines (GoSlice.len pre) = Some line).
      { unfold GoSlice.index.
        destruct (Z.ltb_spec (GoSlice.len pre) 0); [lia|].
        subst lines. unfold GoSlice.len. rewrite Nat2Z.id.
        apply list_lookup_middle. reflexivity. }
      rewrite Hidx. simpl.
      assert (Hi : GoInt.add (GoSlice.len pre) 1
                   = GoSlice.len (pre ++ [line])).
      { rewrite add_id.
        - unfold GoSlice.len. rewrite length_app. simpl. lia.
        - split; [|lia]. transitivity 0; [discriminate | lia]. }
      assert (Hc : GoInt.add (GoSlice.len preview) 1
                   = GoSlice.len (preview ++ [line])).
      { rewrite add_id.
        - unfold GoSlice.len. rewrite length_app. simpl. lia.
        - split; [|lia]. transitivity 0; [discriminate | lia]. }
      rewrite Hi, Hc.
      fold (blank line). rewrite Z.gtb_ltb.
      destruct (Z.ltb_spec 0 (GoSlice.len preview)) as [Hpos|Hzero].
      * rewrite orb_true_r.
        rewrite (IH (pre ++ [line])%list fuel (preview ++ [line])%list);
          [| subst lines; rewrite <- app_assoc; reflexivity
           | simpl in Hfuel; lia | assumption
           | rewrite !length_app; simpl; lia].
        assert (Hpos' : (0 <? GoSlice.len (preview ++ [line])) = true).
        { apply Z.ltb_lt. unfold GoSlice.len. rewrite length_app. simpl. lia. }
        rewrite Hpos'. rewrite <- app_assoc. simpl. do 2 f_equal.
        replace (Z.to_nat (previewLines - GoSlice.len preview))
          with (S (Z.to_nat (previewLines
                             - GoSlice.len (preview ++ [line])))).
        { reflexivity. }
        unfold GoSlice.len in *. rewrite length_app. simpl. lia.
      * assert (Hnil : preview = []).
        { destruct preview; [reflexivity|].
          unfold GoSlice.len in Hzero. simpl in Hzero. lia. }
        subst preview. simpl. rewrite orb_false_r.
        destruct (blank line) eqn:Hb; simpl.
        -- rewrite (IH (pre ++ [line])%list fuel []);
             [| subst lines; rewrite <- app_assoc; reflexivity
              | simpl in Hfuel; lia | assumption | simpl; lia].
           reflexivity.
        -- rewrite (IH (pre ++ [line])%list fuel [line]);
             [| subst lines; rewrite <- app_assoc; reflexivity
              | simpl in Hfuel; lia | assumption
              | rewrite length_app; simpl; lia].
           change (0 <? GoSlice.len [line]) with true. cbv iota.
           simpl. do 2 f_equal.
           replace (Z.to_nat previewLines)
             with (S (Z.to_nat (previewLines - GoSlice.len [line]))).
           { reflexivity. }
           unfold GoSlice.len in *. simpl in *. lia.
    + simpl.
      destruct (Z.ltb_spec 0 (GoSlice.len preview)).
      * replace (Z.to_nat (previewLines - GoSlice.len preview)) with O by lia.
        rewrite take_0, app_nil_r. reflexivity.
      * replace (Z.to_nat previewLines) with O by lia.
        rewrite take_0, app_nil_r. reflexivity.
Qed.

Lemma first_heading_lt lines : forall k line,
  first_heading lines = Some (k, line) -> (k < length lines)%nat.
Proof.
  induction lines as [|l rest IH]; intros k line; simpl; [discriminate|].
  destruct (is_heading l); [intros [= <- _]; lia|].
  destruct (first_heading rest) as [[k' h]|]; [|discriminate].
  intros [= <- <-]. specialize (IH k' h eq_refl). lia.
Qed.

(** C4.  For a content string (shorter than the largest Go [int], as
    every Go string is) and any [previewLines], [extractTitleAndPreview]
    returns: as title the trimmed text after the ["# "] of the first line
    whose trimmed form starts with ["# "], or ["(untitled)"] when there is
    no such line; as preview the lines after that line (all the lines when
    there is none) from the first one that is not blank, up to
    [previewLines] of them.  The example of the specification yields
    [["First"; ""; "Second"]]. *)
Theorem extract_title_and_preview (content : string) (previewLines : Z) :
  strlen content < GoInt.max_int ->
  extractTitleAndPreview content previewLines
  = Some (title_and_preview content previewLines)
  /\ extractTitleAndPreview
       ("# Title" ++ newline ++ newline ++ newline ++ "First" ++ newline
          ++ newline ++ "Second") 3
     = Some ("Title", ["First"; ""; "Second"]).
Proof.
  intros Hfit. split; [|vm_compute; reflexivity].
  unfold extractTitleAndPreview, title_and_preview.
  set (lines := Split content "010"%char).
  assert (Hlines : GoSlice.len lines <= GoInt.max_int).
  { pose proof (Split_length content "010"%char) as Hlen.
    fold lines in Hlen. unfold GoSlice.len, strlen in *. lia. }
  change 0 with (Z.of_nat 0) at 1.
  rewrite find_title_first_heading
    by (unfold GoSlice.len in Hlines; simpl; lia).
  assert (Hloop : forall start : nat,
             (start <= length lines)%nat ->
             collect_preview (S (length lines)) lines previewLines
                             (Z.of_nat start) [] 0
             = Some (preview_of (drop start lines) previewLines)).
  { intros start Hstart.
    pose proof (collect_preview_spec lines previewLines (drop start lines)
                  (take start lines) (S (length lines)) []) as Hspec.
    assert (Hs : GoSlice.len (take start lines) = Z.of_nat start).
    { unfold GoSlice.len. rewrite length_take. lia. }
    rewrite Hs in Hspec. apply Hspec.
    - symmetry. apply take_drop.
    - rewrite length_drop. lia.
    - exact Hlines.
    - simpl. lia. }
  destruct (first_heading lines) as [[k line]|] eqn:Hfirst.
  - apply first_heading_lt in Hfirst.
    rewrite Hloop by lia. reflexivity.
  - pose proof (Hloop O ltac:(lia)) as H0.
    change (Z.of_nat 0) with 0 in H0. rewrite H0. reflexivity.
Qed.

Lemma extract_title_and_preview_witness :
  extractTitleAndPreview ("notes" ++ newline ++ " # Day  " ++ newline
                            ++ newline ++ "a" ++ newline ++ "b") 1
  = Some ("Day", ["a"]).
Proof.
  refine (eq_trans (proj1 (extract_title_and_preview _ 1 _)) _).
  - vm_compute. reflexivity.
  - vm_compute. reflexivity.
Defined.

End Loader.

(** ** Paths: [filepath.Join] and the names a path walks through *)

Section Paths.
Import GoStrings GoFilepath GoOS Spec.

Lemma Split_nonempty s sep : Split s sep <> [].
Proof.
  destruct s as [|c s]; simpl; [discriminate|].
  destruct (Ascii.eqb c sep); [discriminate|].
  destruct (Split s sep); discriminate.
Qed.

Lemma Split_app_sep a b sep :
  Split (a ++ String sep b) sep = (Split a sep ++ Split b sep)%list.
Proof.
  induction a as [|c a IH]; simpl.
  - rewrite Ascii.eqb_refl. reflexivity.
  - destruct (Ascii.eqb c sep); [rewrite IH; reflexivity|].
    rewrite IH. pose proof (Split_nonempty a sep) as Hne.
    destruct (Split a sep); [contradiction | reflexivity].
Qed.

Lemma Split_no_separator e :
  has_separator e = false -> Split e Separator = [e].
Proof.
  induction e as [|c e IH]; simpl; [reflexivity|].
  intros H. apply orb_false_elim in H as [Hc He].
  rewrite Hc, IH by assumption. reflexivity.
Qed.

Lemma Split_pieces s :
  Forall (fun e => has_separator e = false) (Split s Separator).
Proof.
  induction s as [|c s IH]; simpl.
  - repeat constructor.
  - destruct (Ascii.eqb c Separator) eqn:Hc.
    + constructor; [reflexivity | exact IH].
    + destruct (Split s Separator) as [|piece pieces].
      * repeat constructor. simpl. rewrite Hc. reflexivity.
      * inversion_clear IH as [|? ? Hp Hps].
        constructor; [|assumption]. simpl. rewrite Hc. exact Hp.
Qed.

Lemma proper_name_eqb e :
  proper_name e ->
  String.eqb e "" = false /\ String.eqb e "." = false
  /\ String.eqb e ".." = false.
Proof.
  intros (H1 & H2 & H3). repeat split; apply String.eqb_neq; assumption.
Qed.

Lemma clean_step_push stack e :
  proper_name e -> clean_step true stack e = e :: stack.
Proof.
  intros H. apply proper_name_eqb in H as (H1 & H2 & H3).
  unfold clean_step. rewrite H1, H2, H3. reflexivity.
Qed.

(** The elements [Clean] keeps of a rooted path are proper names without
    separator. *)
Lemma clean_step_kept stack e :
  has_separator e = false ->
  Forall (fun x => proper_name x /\ has_separator x = false) stack ->
  Forall (fun x => proper_name x /\ has_separator x = false)
         (clean_step true stack e).
Proof.
  intros He Hstack. unfold clean_step.
  destruct (String.eqb e "") eqn:E1; [assumption|].
  destruct (String.eqb e ".") eqn:E2; [assumption|].
  destruct (String.eqb e "..") eqn:E3; simpl.
  - destruct stack as [|top below]; [constructor|].
    inversion_clear Hstack as [|? ? [Htop _] Hbelow].
    apply proper_name_eqb in Htop as (_ & _ & ->). exact Hbelow.
  - constructor; [|assumption]. split; [|assumption].
    repeat split; apply String.eqb_neq; assumption.
Qed.

Lemma fold_clean_kept elems : forall stack,
  Forall (fun e => has_separator e = false) elems ->
  Forall (fun x => proper_name x /\ has_separator x = false) stack ->
  Forall (fun x => proper_name x /\ has_separator x = false)
         (fold_left (clean_step true) elems stack).
Proof.
  induction elems as [|e elems IH]; intros stack Helems Hstack; simpl;
    [assumption|].
  inversion_clear Helems as [|? ? He Hrest].
  apply IH; [assumption|]. apply clean_step_kept; assumption.
Qed.

Lemma fold_clean_proper elems : forall stack,
  Forall proper_name elems ->
  fold_left (clean_step true) elems stack = (rev elems ++ stack)%list.
Proof.
  induction elems as [|e elems IH]; intros stack H; simpl; [reflexivity|].
  inversion_clear H as [|? ? He Hrest].
  rewrite clean_step_push, IH by assumption.
  rewrite <- app_assoc. reflexivity.
Qed.

Lemma Split_Join kept :
  kept <> [] ->
  Forall (fun e => has_separator e = false) kept ->
  Split (GoStrings.Join kept "/") Separator = kept.
Proof.
  induction kept as [|e rest IH]; intros Hne H; [contradiction|].
  inversion_clear H as [|? ? He Hrest].
  destruct rest as [|e' rest'].
  - simpl. apply Split_no_separator. assumption.
  - change (GoStrings.Join (e :: e' :: rest') "/")
      with (e ++ String Separator (GoStrings.Join (e' :: rest') "/")).
    rewrite Split_app_sep, Split_no_separator by assumption.
    rewrite IH by (assumption || discriminate). reflexivity.
Qed.

(** Cleaning an absolute path does not change what it names. *)
Lemma names_Clean q : absolute q -> names (Clean q) = names q.
Proof.
  intros [rest ->]. unfold Clean.
  change (String.eqb (String Separator rest) "") with false.
  change (byte_at (String Separator rest) 0 =? byte Separator) with true.
  cbv iota.
  set (kept := rev (fold_left (clean_step true)
                              (Split (String Separator rest) Separator) [])).
  change (names (String Separator rest)) with kept.
  assert (Hkept : Forall (fun x => proper_name x /\ has_separator x = false)
                         kept).
  { subst kept. apply Forall_rev, fold_clean_kept; [apply Split_pieces|].
    constructor. }
  unfold names.
  change ("/" ++ GoStrings.Join kept "/")
    with (String Separator (GoStrings.Join kept "/")).
  change (Split (String Separator (GoStrings.Join kept "/")) Separator)
    with ("" :: Split (GoStrings.Join kept "/") Separator).
  simpl fold_left. change (clean_step true [] "") with (@nil string).
  destruct kept as [|e kept'] eqn:Hk; [reflexivity|].
  rewrite Split_Join;
    [| discriminate
     | eapply Forall_impl; [exact Hkept | intros ? [_ ?]; assumption]].
  rewrite fold_clean_proper
    by (eapply Forall_impl; [exact Hkept | intros ? [? _]; assumption]).
  rewrite app_nil_r. apply rev_involutive.
Qed.

(** A child of a directory, by name. *)
Lemma names_child dir name :
  has_separator name = false -> proper_name name ->
  names (dir ++ String Separator name) = (names dir ++ [name])%list.
Proof.
  intros Hsep Hname. unfold names.
  rewrite Split_app_sep, (Split_no_separator name) by assumption.
  rewrite fold_left_app. simpl. rewrite clean_step_push by assumption.
  reflexivity.
Qed.

Lemma has_separator_app a b :
  has_separator (a ++ b) = has_separator a || has_separator b.
Proof.
  induction a as [|c a IH]; simpl; [reflexivity|].
  rewrite IH, orb_assoc. reflexivity.
Qed.

Lemma entry_name_proper date : proper_name (date ++ ".md").
Proof.
  assert (Hlen : (3 <= String.length (date ++ ".md"))%nat).
  { rewrite string_length_app. simpl. lia. }
  repeat split; intros Heq; rewrite Heq in Hlen; simpl in Hlen; lia.
Qed.

(** The path of an entry names the journal directory and then the file. *)
Lemma DatePath_names v date :
  absolute (Vault.Directory v) -> has_separator date = false ->
  names (Vault.DatePath v date)
  = (names (Vault.Directory v) ++ [(date ++ ".md")%string])%list.
Proof.
  intros Habs Hsep. unfold Vault.DatePath.
  destruct Habs as [rest Hdir]. rewrite Hdir.
  change (Join [String Separator rest; date ++ ".md"])
    with (Clean (String Separator rest
                 ++ String Separator (date ++ ".md"))).
  rewrite names_Clean by (eexists; reflexivity).
  apply names_child; [|apply entry_name_proper].
  rewrite has_separator_app, Hsep. reflexivity.
Qed.

End Paths.

(** ** The entry store: existence and creation *)

Section Store.
Import GoStrings GoOS Vault Spec.

Lemma child_set_child name o children :
  is_Some (child name children) ->
  child name (set_child name o children) = Some o.
Proof.
  induction children as [|[n o'] rest IH]; simpl.
  - intros [? H]. discriminate.
  - destruct (String.eqb n name) eqn:E; simpl; rewrite E; auto.
Qed.

Lemma child_append name o children :
  child name children = None ->
  child name (children ++ [(name, o)]) = Some o.
Proof.
  induction children as [|[n o'] rest IH]; simpl.
  - rewrite String.eqb_refl. reflexivity.
  - destruct (String.eqb n name); [discriminate | exact IH].
Qed.

(** What [os.WriteFile] wrote is what the path holds afterwards. *)
Lemma walk_put path data : forall o o',
  put path data o = Ok o' ->
  exists w, walk path o' = Ok (Regular w data).
Proof.
  induction path as [|name rest IH]; intros o o'; simpl.
  - destruct o as [w c|w children]; [|discriminate].
    destruct w; [|discriminate]. intros [= <-]. eauto.
  - destruct o as [w c|w children]; [discriminate|].
    destruct (child name children) as [o1|] eqn:Hchild.
    + destruct (put rest data o1) as [o2|e] eqn:Hput; [|discriminate].
      intros [= <-]. simpl.
      rewrite child_set_child by (rewrite Hchild; eauto).
      eapply IH. exact Hput.
    + destruct rest; [|discriminate].
      destruct w; [|discriminate]. intros [= <-]. simpl.
      rewrite child_append by assumption. simpl. eauto.
Qed.

(** Writing a new file into a writable directory succeeds. *)
Lemma put_new_child dirpath name data : forall o children,
  walk dirpath o = Ok (GoOS.Directory true children) ->
  child name children = None ->
  exists o', put (dirpath ++ [name]) data o = Ok o'.
Proof.
  induction dirpath as [|n rest IH]; intros o children Hwalk Hchild; simpl in *.
  - injection Hwalk as ->. rewrite Hchild. eauto.
  - destruct o as [w c|w ch]; [discriminate|].
    destruct (child n ch) as [o1|]; [|discriminate].
    destruct (IH o1 children Hwalk Hchild) as [o' Hput].
    rewrite Hput. eauto.
Qed.

Lemma walk_missing_child dirpath name : forall o w children,
  walk dirpath o = Ok (GoOS.Directory w children) ->
  child name children = None ->
  walk (dirpath ++ [name]) o = Error ENOENT.
Proof.
  induction dirpath as [|n rest IH]; intros o w children Hwalk Hchild;
    simpl in *.
  - injection Hwalk as ->. rewrite Hchild. reflexivity.
  - destruct o as [w0 c|w0 ch]; [discriminate|].
    destruct (child n ch) as [o1|]; [|discriminate].
    eapply IH; eassumption.
Qed.

Lemma EntryExists_iff fs v date :
  EntryExists fs v date = true <-> object_at fs (DatePath v date).
Proof.
  unfold EntryExists, Stat, object_at.
  destruct (walk _ fs) as [o|e]; split; eauto; try discriminate.
  intros [? H]. discriminate.
Qed.

(** C9, as amended.  [EntryExists] is a total function to [bool] (it
    raises nothing); it returns [true] exactly when some object, a regular
    file or a directory, exists at [DatePath(d)], that is when [os.Stat]
    succeeds; whenever [os.Stat] fails, with "not found" or with any other
    error, it returns [false]. *)
Theorem entry_exists_iff_stat_succeeds fs v date :
  (EntryExists fs v date = true <-> object_at fs (DatePath v date))
  /\ (forall e, Stat fs (DatePath v date) = Error e ->
                EntryExists fs v date = false).
Proof.
  split; [apply EntryExists_iff|].
  intros e He. unfold EntryExists. rewrite He. reflexivity.
Qed.

(** C9 as stated fails on a directory: a directory called
    [2024-01-16.md] in the journal makes [EntryExists] return [true]
    though no regular file exists at that path. *)
Lemma entry_exists_directory_counterexample :
  let fs := journal [("2024-01-16.md", GoOS.Directory true [])] in
  let v := mkVault "/j" in
  EntryExists fs v "2024-01-16" = true
  /\ ~ regular_file_at fs (DatePath v "2024-01-16").
Proof.
  intros fs v. split; [reflexivity|].
  intros (w & content & Hwalk).
  vm_compute in Hwalk. discriminate.
Qed.

(** A valid date holds no path separator. *)
Lemma entry_date_no_separator date :
  entry_filename (date ++ ".md") -> has_separator date = false.
Proof.
  intros (y1 & y2 & y3 & y4 & m1 & m2 & d1 & d2 & Hd & Heq & _).
  assert (Hdate : date
                  = String y1 (String y2 (String y3 (String y4 (String "-"
                      (String m1 (String m2 (String "-"
                      (String d1 (String d2 "")))))))))).
  { rewrite <- (TrimSuffix_app date ".md"), Heq.
    apply (TrimSuffix_app
             (String y1 (String y2 (String y3 (String y4 (String "-"
                (String m1 (String m2 (String "-"
                (String d1 (String d2 ""))))))))))). }
  assert (Hdigit : forall c, is_digit c ->
            Ascii.eqb c GoFilepath.Separator = false).
  { intros c Hc. destruct (Ascii.eqb_spec c GoFilepath.Separator) as [->|];
      [|reflexivity].
    destruct Hc as [Hc _]. vm_compute in Hc. exfalso. apply Hc.
    reflexivity. }
  repeat (apply List.Forall_cons_iff in Hd as [?%Hdigit Hd]).
  subst date. simpl.
  repeat match goal with
    | Hc : Ascii.eqb _ _ = false |- _ => rewrite Hc; clear Hc
    end.
  reflexivity.
Qed.

(** C7, as amended.  If an object exists at [DatePath(d)], [CreateEntry]
    fails with the already-exists error and leaves the file system as it
    was.  If nothing exists there, [CreateEntry] writes the template: when
    the write succeeds, the call succeeds and the file then holds exactly
    ["# " + d + "\n\n"]; when the write fails, the call returns the error
    of the write.  The write succeeds, for a date [d] that is
    [YYYY-MM-DD] for a date of the calendar, when the journal directory
    (an absolute path) is an existing writable directory with no child of
    the entry's name. *)
Theorem create_entry_cases fs v date :
  (object_at fs (DatePath v date) ->
   CreateEntry fs v date = (fs, Some (ErrAlreadyExists date)))
  /\ (~ object_at fs (DatePath v date) ->
      (forall fs',
          WriteFile fs (DatePath v date) (template date) = (fs', None) ->
          CreateEntry fs v date = (fs', None)
          /\ ReadFile fs' (DatePath v date)
             = Ok ("# " ++ date ++ String "010" (String "010" "")))
      /\ (forall fs' e,
             WriteFile fs (DatePath v date) (template date) = (fs', Some e) ->
             CreateEntry fs v date = (fs', Some (ErrWrite date e))))
  /\ (forall children,
         absolute (Vault.Directory v) -> entry_filename (date ++ ".md") ->
         walk (names (Vault.Directory v)) fs
         = Ok (GoOS.Directory true children) ->
         child (date ++ ".md") children = None ->
         exists fs',
           CreateEntry fs v date = (fs', None)
           /\ ReadFile fs' (DatePath v date)
              = Ok ("# " ++ date ++ String "010" (String "010" ""))).
Proof.
  assert (Hwrite : forall fs',
             EntryExists fs v date = false ->
             WriteFile fs (DatePath v date) (template date) = (fs', None) ->
             CreateEntry fs v date = (fs', None)
             /\ ReadFile fs' (DatePath v date) = Ok (template date)).
  { intros fs' Hex Hw. unfold CreateEntry, WriteEntry.
    rewrite Hex. fold (template date). rewrite Hw. split; [reflexivity|].
    unfold WriteFile in Hw.
    destruct (put _ _ fs) as [fs1|e] eqn:Hput; [|discriminate].
    injection Hw as <-.
    destruct (walk_put _ _ _ _ Hput) as [w Hwalk].
    unfold ReadFile. rewrite Hwalk. reflexivity. }
  split; [|split].
  - intros Hex. apply EntryExists_iff in Hex.
    unfold CreateEntry. rewrite Hex. reflexivity.
  - intros Hno.
    assert (Hex : EntryExists fs v date = false).
    { destruct (EntryExists fs v date) eqn:E; [|reflexivity].
      apply EntryExists_iff in E. contradiction. }
    split.
    + intros fs' Hw. apply Hwrite; assumption.
    + intros fs' e Hw. unfold CreateEntry, WriteEntry.
      rewrite Hex. fold (template date). rewrite Hw. reflexivity.
  - intros children Habs Hsep%entry_date_no_separator Hdir Hchild.
    pose proof (DatePath_names v date Habs Hsep) as Hpath.
    assert (Hex : EntryExists fs v date = false).
    { unfold EntryExists, Stat. rewrite Hpath.
      rewrite (walk_missing_child _ _ _ _ _ Hdir Hchild). reflexivity. }
    destruct (put_new_child _ _ (template date) _ _ Hdir Hchild)
      as [fs' Hput].
    exists fs'. apply Hwrite; [assumption|].
    unfold WriteFile. rewrite Hpath, Hput. reflexivity.
Qed.

Lemma create_entry_cases_witness :
  let v := mkVault "/j" in
  let fs := journal (regular_files ["2024-01-15.md"]) in
  CreateEntry fs v "2024-01-15" = (fs, Some (ErrAlreadyExists "2024-01-15"))
  /\ exists fs',
      CreateEntry fs v "2024-01-16" = (fs', None)
      /\ ReadFile fs' (DatePath v "2024-01-16")
         = Ok ("# 2024-01-16" ++ String "010" (String "010" "")).
Proof.
  intros v fs. split.
  - apply (proj1 (create_entry_cases fs v "2024-01-15")).
    eexists. vm_compute. reflexivity.
  - apply (proj2 (proj2 (create_entry_cases fs v "2024-01-16"))
             (regular_files ["2024-01-15.md"])).
    + exists "j". reflexivity.
    + apply isValidDateFormat_iff. vm_compute. reflexivity.
    + reflexivity.
    + reflexivity.
Defined.

(** C7 as stated fails when the write fails: nothing exists at the path
    of [2024-01-15] in a journal directory that is not writable, and
    [CreateEntry] returns the error of the write. *)
Lemma create_entry_readonly_counterexample :
  let v := mkVault "/j" in
  let fs := GoOS.Directory true [("j", GoOS.Directory false [])] in
  ~ object_at fs (DatePath v "2024-01-15")
  /\ CreateEntry fs v "2024-01-15"
     = (fs, Some (ErrWrite "2024-01-15" EACCES)).
Proof.
  intros v fs. split; [|vm_compute; reflexivity].
  intros [o Ho]. vm_compute in Ho. discriminate.
Qed.

End Store.

(** * Further properties of the code *)

Ltac int_bounds :=
  rewrite ?range_bounds, ?max_int_val, ?min_int_val in *; lia.

(** ** The entry store: writing, reading and creating *)

Section StoreRoundTrip.
Import GoStrings GoOS Vault Spec.

Lemma child_set_child_ne name name' o children :
  name <> name' ->
  child name' (set_child name o children) = child name' children.
Proof.
  intros Hne. induction children as [|[n o'] rest IH]; simpl; [reflexivity|].
  destruct (String.eqb_spec n name) as [->|Hn]; simpl.
  - destruct (String.eqb_spec name name'); [contradiction | reflexivity].
  - destruct (String.eqb n name'); [reflexivity | exact IH].
Qed.

Lemma child_append_ne name name' o children :
  name <> name' ->
  child name' (children ++ [(name, o)]) = child name' children.
Proof.
  intros Hne. induction children as [|[n o'] rest IH]; simpl.
  - destruct (String.eqb_spec name name'); [contradiction | reflexivity].
  - destruct (String.eqb n name'); [reflexivity | exact IH].
Qed.


(** Writing the file [name1] of a directory leaves what is found under
    another name of that directory as it was. *)
Lemma walk_put_other dirpath name1 name2 data : forall o o',
  put (dirpath ++ [name1]) data o = Ok o' -> name1 <> name2 ->
  walk (dirpath ++ [name2]) o' = walk (dirpath ++ [name2]) o.
Proof.
  induction dirpath as [|a p IH]; intros o o' Hput Hne; simpl in *.
  - destruct o as [w c|w children]; [discriminate|].
    destruct (child name1 children) as [o1|] eqn:Hc.
    + destruct o1 as [w1 c1|w1 ch1]; [|discriminate].
      destruct w1; [|discriminate]. injection Hput as <-. simpl.
      rewrite child_set_child_ne by assumption. reflexivity.
    + destruct w; [|discriminate]. injection Hput as <-. simpl.
      rewrite child_append_ne by assumption. reflexivity.
  - destruct o as [w c|w children]; [discriminate|].
    destruct (child a children) as [oa|] eqn:Hc.
    + destruct (put (p ++ [name1]) data oa) as [oa'|e] eqn:Hp;
        [|discriminate].
      injection Hput as <-. simpl.
      rewrite child_set_child by (rewrite Hc; eauto).
      eapply IH; eassumption.
    + destruct p; discriminate.
Qed.


Lemma append_inj_r a b s : (a ++ s)%string = (b ++ s)%string -> a = b.
Proof.
  intros H. rewrite <- (TrimSuffix_app a s), <- (TrimSuffix_app b s), H.
  reflexivity.
Qed.

Lemma WriteEntry_ok fs v date content fs' :
  WriteEntry fs v date content = (fs', None) ->
  put (names (DatePath v date)) content fs = Ok fs'.
Proof.
  unfold WriteEntry, WriteFile.
  destruct (put (names (DatePath v date)) content fs) as [o|e];
    [intros [= <-]; reflexivity | discriminate].
Qed.



(** X2.  The results of [ReadEntry].  When it returns a content, a
    regular file with that content is at the entry's path and
    [EntryExists] reports the entry; when [EntryExists] does not report
    the entry, [ReadEntry] fails.  Its error is "does not exist" exactly
    when path resolution fails with ENOENT, and otherwise a read failure
    that names the date and a cause other than ENOENT.  The converse of
    the first statement fails: a directory at the entry's path is
    reported by [EntryExists], and [ReadEntry] fails on it with a read
    failure, not with "does not exist". *)
Theorem read_entry_cases (fs : FileSystem) (v : Vault) (date : string) :
  (forall content,
      ReadEntry fs v date = Ok content ->
      EntryExists fs v date = true
      /\ exists w, walk (names (DatePath v date)) fs
                   = Ok (Regular w content))
  /\ (EntryExists fs v date = false ->
      exists e, ReadEntry fs v date = Error e)
  /\ (ReadEntry fs v date = Error (ErrNotExist date)
      <-> walk (names (DatePath v date)) fs = Error ENOENT)
  /\ (forall e, ReadEntry fs v date = Error e ->
                e = ErrNotExist date
                \/ exists cause, e = ErrRead date cause /\ cause <> ENOENT)
  /\ (forall w children,
         walk (names (DatePath v date)) fs = Ok (GoOS.Directory w children) ->
         EntryExists fs v date = true
         /\ exists cause, ReadEntry fs v date = Error (ErrRead date cause)).
Proof.
  unfold ReadEntry, EntryExists, ReadFile, Stat.
  destruct (walk (names (DatePath v date)) fs) as [[w c|w ch]|cause] eqn:Hw.
  - split; [intros content [= <-]; eauto|].
    split; [discriminate|]. split; [split; discriminate|].
    split; [discriminate|]. intros w' ch [=].
  - split; [discriminate|]. split; [discriminate|].
    split; [split; discriminate|].
    split; [intros e [= <-]; right; eexists; split;
              [reflexivity | discriminate]|].
    intros w' ch' _. eauto.
  - split; [intros content; destruct cause; discriminate|].
    split; [intros _; destruct cause; eauto|].
    split; [destruct cause; split; (reflexivity || discriminate)|].
    split; [|discriminate].
    intros e He. destruct cause; injection He as <-; auto;
      right; eexists; (split; [reflexivity | discriminate]).
Qed.

(** X3.  Writing one entry leaves every other entry as it was: for a
    vault with an absolute directory and dates without a path separator,
    a successful [WriteEntry] for [date] changes neither what [ReadEntry]
    returns nor what [EntryExists] reports for any other date. *)
Theorem write_leaves_other_entries (fs fs' : FileSystem) (v : Vault)
        (date other content : string) :
  absolute (Vault.Directory v) ->
  has_separator date = false -> has_separator other = false ->
  other <> date ->
  WriteEntry fs v date content = (fs', None) ->
  ReadEntry fs' v other = ReadEntry fs v other
  /\ EntryExists fs' v other = EntryExists fs v other.
Proof.
  intros Habs Hd Ho Hne Hput%WriteEntry_ok.
  rewrite DatePath_names in Hput by assumption.
  unfold ReadEntry, EntryExists, ReadFile, Stat.
  rewrite (DatePath_names v other) by assumption.
  erewrite walk_put_other; [split; reflexivity | exact Hput |].
  intros Heq%append_inj_r. congruence.
Qed.

Lemma write_leaves_other_entries_witness :
  exists fs',
    WriteEntry (journal (regular_files ["2024-01-15.md"; "2024-01-16.md"]))
               (mkVault "/j") "2024-01-16" "# Rewritten" = (fs', None)
    /\ ReadEntry fs' (mkVault "/j") "2024-01-15" = Ok "text".
Proof.
  eexists. split; [reflexivity|].
  refine (eq_trans
            (proj1 (write_leaves_other_entries
                      (journal (regular_files
                                  ["2024-01-15.md"; "2024-01-16.md"]))
                      _ (mkVault "/j") "2024-01-16" "2024-01-15"
                      "# Rewritten" _ _ _ _ eq_refl)) _).
  - eexists. reflexivity.
  - reflexivity.
  - reflexivity.
  - discriminate.
  - reflexivity.
Defined.

(** X4.  A second [CreateEntry] never overwrites: after a create that
    returned no error, creating the same date again fails with "already
    exists", leaves the file system as it is, and the entry still holds
    the template. *)
Theorem create_twice_keeps_the_entry (fs fs' : FileSystem) (v : Vault)
        (date : string) :
  CreateEntry fs v date = (fs', None) ->
  CreateEntry fs' v date = (fs', Some (ErrAlreadyExists date))
  /\ ReadEntry fs' v date = Ok (template date).
Proof.
  unfold CreateEntry at 1.
  destruct (EntryExists fs v date); [discriminate|].
  intros Hput%WriteEntry_ok. apply walk_put in Hput as [w Hwalk].
  unfold CreateEntry, ReadEntry, EntryExists, ReadFile, Stat.
  rewrite Hwalk. auto.
Qed.

Lemma create_twice_keeps_the_entry_witness :
  exists fs',
    CreateEntry (journal []) (mkVault "/j") "2024-01-16" = (fs', None)
    /\ CreateEntry fs' (mkVault "/j") "2024-01-16"
       = (fs', Some (ErrAlreadyExists "2024-01-16"))
    /\ ReadEntry fs' (mkVault "/j") "2024-01-16"
       = Ok ("# 2024-01-16" ++ String "010" (String "010" "")).
Proof.
  eexists. split; [reflexivity|].
  apply (create_twice_keeps_the_entry (journal [])). reflexivity.
Defined.

(** X5.  Distinct dates have distinct entry files: for a vault with an
    absolute directory, [DatePath] maps two different dates without a
    path separator to two different paths. *)
Theorem date_paths_are_distinct (v : Vault) (date1 date2 : string) :
  absolute (Vault.Directory v) ->
  has_separator date1 = false -> has_separator date2 = false ->
  date1 <> date2 ->
  DatePath v date1 <> DatePath v date2.
Proof.
  intros Habs H1 H2 Hne Heq.
  pose proof (DatePath_names v date1 Habs H1) as N1.
  pose proof (DatePath_names v date2 Habs H2) as N2.
  rewrite Heq, N2 in N1.
  apply app_inv_head in N1. injection N1 as N1.
  apply Hne. symmetry. eapply append_inj_r, N1.
Qed.

Lemma date_paths_are_distinct_witness :
  absolute (Vault.Directory (mkVault "/j"))
  /\ DatePath (mkVault "/j") "2024-01-15"
     <> DatePath (mkVault "/j") "2024-01-16".
Proof.
  split; [eexists; reflexivity|].
  apply (date_paths_are_distinct (mkVault "/j")).
  - eexists. reflexivity.
  - reflexivity.
  - reflexivity.
  - discriminate.
Defined.

End StoreRoundTrip.

(** ** The date argument of the [view] command *)

Section DateArgument.
Import GoStrings GoTime GoOS Vault Spec Cmd.

Lemma MatchString_date y1 y2 y3 y4 m1 m2 d1 d2 :
  Forall is_digit [y1; y2; y3; y4; m1; m2; d1; d2] ->
  MatchString dateRegex
    (String y1 (String y2 (String y3 (String y4 (String "-"
       (String m1 (String m2 (String "-" (String d1 (String d2 ""))))))))))
  = true.
Proof.
  intros H. repeat (apply List.Forall_cons_iff in H as [?%is_digit_test H]).
  simpl.
  repeat match goal with
    | Hd : _ && _ = true |- _ => rewrite Hd; clear Hd
    end.
  reflexivity.
Qed.




(** The regular expression adds nothing to [time.Parse]. *)
Lemma valid_date_iff_parse dateStr :
  Cmd.isValidDateFormat dateStr = true <-> is_Some (ParseDate dateStr).
Proof.
  unfold Cmd.isValidDateFormat. split.
  - destruct (MatchString dateRegex dateStr); [|discriminate].
    destruct (ParseDate dateStr); [eauto | discriminate].
  - intros [[[y m] d] Hp]. rewrite Hp.
    apply ParseDate_iff in Hp
      as (y1 & y2 & y3 & y4 & m1 & m2 & d1 & d2 & Hd & -> & _).
    rewrite MatchString_date by assumption. reflexivity.
Qed.

Lemma valid_filename_iff_parse dateStr :
  Vault.isValidDateFormat (dateStr ++ ".md") = true
  <-> is_Some (ParseDate dateStr).
Proof.
  unfold Vault.isValidDateFormat.
  rewrite HasSuffix_app, TrimSuffix_app. simpl.
  destruct (ParseDate dateStr); split; eauto; try discriminate.
  intros [? [=]].
Qed.

Lemma valid_date_filename dateStr :
  Cmd.isValidDateFormat dateStr = Vault.isValidDateFormat (dateStr ++ ".md").
Proof.
  pose proof (valid_date_iff_parse dateStr) as H1.
  pose proof (valid_filename_iff_parse dateStr) as H2.
  destruct (Cmd.isValidDateFormat dateStr),
    (Vault.isValidDateFormat (dateStr ++ ".md")); try reflexivity.
  - symmetry. apply H2, H1. reflexivity.
  - apply H1, H2. reflexivity.
Qed.

(** X6.  The date argument of [view]: [isValidDateFormat] of the command
    accepts a string exactly when [time.Parse] with the layout
    [2006-01-02] does (the regular expression rejects nothing that
    [time.Parse] accepts), and it accepts [s] exactly when the validator
    of the store accepts the file name [s + ".md"], that is when
    [s + ".md"] is [YYYY-MM-DD.md] for a date of the calendar. *)
Theorem view_date_validation (dateStr : string) :
  (Cmd.isValidDateFormat dateStr = true <-> is_Some (ParseDate dateStr))
  /\ Cmd.isValidDateFormat dateStr = Vault.isValidDateFormat (dateStr ++ ".md")
  /\ (Cmd.isValidDateFormat dateStr = true
      <-> entry_filename (dateStr ++ ".md")).
Proof.
  split; [apply valid_date_iff_parse|]. split; [apply valid_date_filename|].
  rewrite <- isValidDateFormat_iff, valid_date_filename. reflexivity.
Qed.

End DateArgument.

(** ** The listing after a create, and the metadata of the listing *)

Section ListingAfterCreate.
Import GoStrings GoOS Vault VaultDir Spec Cmd.











End ListingAfterCreate.

(** ** The directory of a vault *)

Section VaultDirectory.
Import GoStrings GoOS GoDirs Vault VaultDir Spec.

Lemma set_child_same name o children :
  child name children = Some o -> set_child name o children = children.
Proof.
  induction children as [|[n o'] rest IH]; simpl; [reflexivity|].
  destruct (String.eqb n name); [intros [= ->]; reflexivity|].
  intros H. rewrite (IH H). reflexivity.
Qed.

(** [mkdir_all] either finds the directory and changes nothing, or makes
    a new, empty directory where nothing was. *)
Lemma mkdir_all_outcome path : forall o o',
  mkdir_all path o = Ok o' ->
  (o' = o /\ exists w children, walk path o = Ok (GoOS.Directory w children))
  \/ ((exists e, walk path o = Error e)
      /\ walk path o' = Ok (GoOS.Directory true [])).
Proof.
  induction path as [|a p IH]; intros o o'; simpl.
  - destruct o as [w c|w ch]; [discriminate|]. intros [= <-]. eauto.
  - destruct o as [w c|w ch]; [discriminate|].
    destruct (child a ch) as [oa|] eqn:Hc.
    + destruct (mkdir_all p oa) as [oa'|e] eqn:Hm; [|discriminate].
      intros [= <-]. destruct (IH _ _ Hm) as [[-> Hw]|[He Hw]].
      * left. rewrite set_child_same by assumption. auto.
      * right. split; [assumption|]. simpl.
        rewrite child_set_child by (rewrite Hc; eauto). exact Hw.
    + destruct w; [|discriminate].
      destruct (mkdir_all p (GoOS.Directory true [])) as [o''|e] eqn:Hm;
        [|discriminate].
      intros [= <-]. right. split; [eauto|]. simpl.
      rewrite child_append by assumption.
      destruct (IH _ _ Hm) as [[-> Hw]|[_ Hw]]; [|exact Hw].
      destruct p; [reflexivity|]. destruct Hw as (? & ? & [=]).
Qed.

Lemma mkdir_all_existing path : forall o w children,
  walk path o = Ok (GoOS.Directory w children) -> mkdir_all path o = Ok o.
Proof.
  induction path as [|a p IH]; intros o w children; simpl.
  - intros [= ->]. reflexivity.
  - destruct o as [w' c|w' ch]; [discriminate|].
    destruct (child a ch) as [oa|] eqn:Hc; [|discriminate].
    intros Hw. rewrite (IH _ _ _ Hw), set_child_same by assumption.
    reflexivity.
Qed.

Lemma absolute_Clean path : absolute path -> absolute (GoFilepath.Clean path).
Proof.
  intros [rest ->]. unfold GoFilepath.Clean.
  change (String.eqb (String GoFilepath.Separator rest) "") with false.
  change (byte_at (String GoFilepath.Separator rest) 0
          =? byte GoFilepath.Separator) with true.
  cbv iota zeta. eexists. reflexivity.
Qed.

Lemma absolute_Abs directory : absolute (Abs directory).
Proof.
  unfold Abs, IsAbs, HasPrefix.
  destruct directory as [|c rest].
  - vm_compute. eexists. reflexivity.
  - replace (slice (String c rest) 0 (strlen "/")) with (String c "")
      by (destruct rest; reflexivity).
    replace (strlen "/" <=? strlen (String c rest)) with true
      by (symmetry; apply Z.leb_le; unfold strlen; simpl; lia).
    simpl. destruct (Ascii.eqb_spec c "/") as [->|Hc].
    + apply absolute_Clean. eexists. reflexivity.
    + unfold GoFilepath.Join. change (String.eqb Getwd "") with false.
      cbv iota. apply absolute_Clean. eexists. reflexivity.
Qed.

Lemma New_ok fs fs' directory v :
  New fs directory = (fs', Ok v) ->
  v = mkVault (Abs directory)
  /\ mkdir_all (names (Abs directory)) fs = Ok fs'.
Proof.
  unfold New, MkdirAll.
  destruct (mkdir_all (names (Abs directory)) fs) as [o|e];
    [intros [= <- <-]; auto | discriminate].
Qed.

Lemma New_existing fs directory w children :
  walk (names (Abs directory)) fs = Ok (GoOS.Directory w children) ->
  New fs directory = (fs, Ok (mkVault (Abs directory))).
Proof.
  intros Hw. unfold New, MkdirAll.
  rewrite (mkdir_all_existing _ _ _ _ Hw). reflexivity.
Qed.


Lemma ListEntries_empty fs v w :
  walk (names (Vault.Directory v)) fs = Ok (GoOS.Directory w []) ->
  ListEntries fs v = Ok [].
Proof.
  intros H. unfold ListEntries, ReadDir. rewrite H. reflexivity.
Qed.

(** X9.  The directory of a vault: when [New] returns a vault, its
    directory is an absolute path at which a directory exists afterwards;
    [New] either left the file system as it was or made a directory in
    which [ListEntries] finds nothing; and calling [New] again changes
    nothing and returns the same vault. *)
Theorem new_vault_directory (fs fs' : FileSystem) (directory : string)
        (v : Vault) :
  New fs directory = (fs', Ok v) ->
  absolute (Vault.Directory v)
  /\ (exists w children,
         walk (names (Vault.Directory v)) fs'
         = Ok (GoOS.Directory w children))
  /\ (fs' = fs \/ ListEntries fs' v = Ok [])
  /\ New fs' directory = (fs', Ok v).
Proof.
  intros [-> Hm]%New_ok. simpl.
  split; [apply absolute_Abs|].
  assert (Hdir : exists w children,
             walk (names (Abs directory)) fs'
             = Ok (GoOS.Directory w children)).
  { destruct (mkdir_all_outcome _ _ _ Hm) as [[-> Hw]|[_ Hw]]; eauto. }
  split; [exact Hdir|]. split.
  - destruct (mkdir_all_outcome _ _ _ Hm) as [[-> _]|[_ Hw]]; [auto|].
    right. eapply ListEntries_empty. exact Hw.
  - destruct Hdir as (w & ch & Hw). eapply New_existing, Hw.
Qed.

Lemma new_vault_directory_witness :
  exists fs',
    New (GoOS.Directory true []) "notes/journal"
    = (fs', Ok (mkVault "/notes/journal"))
    /\ ListEntries fs' (mkVault "/notes/journal") = Ok []
    /\ New fs' "notes/journal" = (fs', Ok (mkVault "/notes/journal")).
Proof.
  eexists. split; [reflexivity|].
  destruct (new_vault_directory (GoOS.Directory true []) _ "notes/journal"
              (mkVault "/notes/journal") eq_refl)
    as (_ & _ & [Hsame|Hempty] & Hagain).
  - discriminate Hsame.
  - split; [exact Hempty | exact Hagain].
Defined.

End VaultDirectory.

(** ** Loading the journal into the browser *)

Section JournalLoader.
Import GoStrings GoOS GoDirs Vault VaultDir Tui TuiLoad Spec Props.

(** [extractTitleAndPreview] returns, and what it returns, for a content
    whose length is a Go [int] below the maximum. *)
Lemma extractTitleAndPreview_total content previewLines :
  strlen content < GoInt.max_int ->
  extractTitleAndPreview content previewLines
  = Some (title_and_preview content previewLines).
Proof.
  intros Hfit. unfold extractTitleAndPreview, title_and_preview.
  set (lines := Split content "010"%char).
  assert (Hlines : GoSlice.len lines <= GoInt.max_int).
  { pose proof (Split_length content "010"%char) as Hlen.
    fold lines in Hlen. unfold GoSlice.len, strlen in *. lia. }
  change 0 with (Z.of_nat 0) at 1.
  rewrite find_title_first_heading
    by (unfold GoSlice.len in Hlines; simpl; lia).
  assert (Hloop : forall start : nat,
             (start <= length lines)%nat ->
             collect_preview (S (length lines)) lines previewLines
                             (Z.of_nat start) [] 0
             = Some (preview_of (drop start lines) previewLines)).
  { intros start Hstart.
    pose proof (collect_preview_spec lines previewLines (drop start lines)
                  (take start lines) (S (length lines)) []) as Hspec.
    assert (Hs : GoSlice.len (take start lines) = Z.of_nat start).
    { unfold GoSlice.len. rewrite length_take. lia. }
    rewrite Hs in Hspec. apply Hspec.
    - symmetry. apply take_drop.
    - rewrite length_drop. lia.
    - exact Hlines.
    - simpl. lia. }
  destruct (first_heading lines) as [[k line]|] eqn:Hfirst.
  - apply first_heading_lt in Hfirst.
    rewrite Hloop by lia. reflexivity.
  - pose proof (Hloop O ltac:(lia)) as H0.
    change (Z.of_nat 0) with 0 in H0. rewrite H0. reflexivity.
Qed.

Lemma omap_cons_Some {A B} (g : A -> option B) x l y :
  g x = Some y -> omap g (x :: l) = y :: omap g l.
Proof. intros H. simpl. rewrite H. reflexivity. Qed.

Lemma omap_cons_None {A B} (g : A -> option B) x l :
  g x = None -> omap g (x :: l) = omap g l.
Proof. intros H. simpl. rewrite H. reflexivity. Qed.

Lemma loaded_entry_read fs v previewLines filename content :
  ReadEntry fs v (date_of filename) = Ok content ->
  loaded_entry fs v previewLines filename
  = Some (entry_for v previewLines filename content)
  /\ load_warning fs v filename = None.
Proof.
  intros Hr. unfold loaded_entry, load_warning, date_of in *.
  rewrite Hr. auto.
Qed.

Lemma loaded_entry_failed fs v previewLines filename e :
  ReadEntry fs v (date_of filename) = Error e ->
  loaded_entry fs v previewLines filename = None
  /\ load_warning fs v filename
     = Some (mkWarning (date_of filename) (ErrReadEntry e)).
Proof.
  intros Hr. unfold loaded_entry, load_warning, date_of in *.
  rewrite Hr. auto.
Qed.

Lemma entry_for_fields v previewLines filename content :
  let e := entry_for v previewLines filename content in
  Date e = date_of filename /\ Expanded e = false
  /\ Path e = DatePath v (Date e)
  /\ (Title e, Preview e) = title_and_preview content previewLines.
Proof.
  unfold entry_for, date_of.
  destruct (title_and_preview content previewLines) as [title preview].
  simpl. auto.
Qed.

Lemma load_loop_omap fs v previewLines entryFiles : forall entries stderr,
  contents_fit fs v entryFiles ->
  load_loop fs v previewLines entryFiles entries stderr
  = Some ((entries ++ omap (loaded_entry fs v previewLines) entryFiles)%list,
          (stderr ++ omap (load_warning fs v) entryFiles)%list).
Proof.
  induction entryFiles as [|f rest IH]; intros entries stderr Hfit.
  - simpl. rewrite !app_nil_r. reflexivity.
  - apply List.Forall_cons_iff in Hfit as [Hf Hfit].
    destruct (ReadEntry fs v (date_of f)) as [content|e] eqn:Hr.
    + destruct (loaded_entry_read fs v previewLines f content Hr)
        as [He Hw].
      rewrite (omap_cons_Some _ _ _ _ He), (omap_cons_None _ _ _ Hw).
      simpl. unfold createEntryFromDate.
      fold (date_of f). rewrite Hr.
      rewrite extractTitleAndPreview_total by (apply Hf; reflexivity).
      unfold entry_for. fold (date_of f).
      destruct (title_and_preview content previewLines) as [title preview].
      simpl. rewrite IH by assumption. rewrite <- !app_assoc. reflexivity.
    + destruct (loaded_entry_failed fs v previewLines f e Hr) as [He Hw].
      rewrite (omap_cons_None _ _ _ He), (omap_cons_Some _ _ _ _ Hw).
      simpl. unfold createEntryFromDate.
      fold (date_of f). rewrite Hr. simpl.
      rewrite IH by assumption. rewrite <- !app_assoc. reflexivity.
Qed.

Lemma loaded_entries_dates fs v previewLines listed :
  let entries := omap (loaded_entry fs v previewLines) listed in
  let warnings := omap (load_warning fs v) listed in
  (length entries + length warnings = length listed)%nat
  /\ sublist (map Date entries) (map date_of listed)
  /\ Forall (fun e => Expanded e = false /\ Path e = DatePath v (Date e))
            entries
  /\ (all_read fs v listed ->
      warnings = [] /\ map Date entries = map date_of listed).
Proof.
  cbv zeta.
  induction listed as [|f rest (IH1 & IH2 & IH3 & IH4)].
  - simpl. repeat split; auto; constructor.
  - destruct (ReadEntry fs v (date_of f)) as [content|e] eqn:Hr.
    + destruct (loaded_entry_read fs v previewLines f content Hr)
        as [He Hw].
      destruct (entry_for_fields v previewLines f content)
        as (Hd & Hx & Hp & _).
      rewrite (omap_cons_Some _ _ _ _ He), (omap_cons_None _ _ _ Hw).
      cbn [length map]. rewrite Hd.
      split; [lia|]. split; [constructor; exact IH2|].
      split; [constructor; auto|].
      intros [_ Hall]%List.Forall_cons_iff.
      destruct (IH4 Hall) as [-> ->]. auto.
    + destruct (loaded_entry_failed fs v previewLines f e Hr) as [He Hw].
      rewrite (omap_cons_None _ _ _ He), (omap_cons_Some _ _ _ _ Hw).
      cbn [length map].
      split; [lia|]. split; [constructor; exact IH2|].
      split; [exact IH3|].
      intros [[content Hc] _]%List.Forall_cons_iff. congruence.
Qed.

Lemma loadEntriesFromVault_listed fs fs' vaultDir previewLines v listed :
  New fs vaultDir = (fs', Ok v) ->
  ListEntries fs' v = Ok listed ->
  contents_fit fs' v listed ->
  loadEntriesFromVault fs vaultDir previewLines
  = Some (fs', omap (load_warning fs' v) listed,
          Ok (omap (loaded_entry fs' v previewLines) listed)).
Proof.
  intros HN Hl Hfit. unfold loadEntriesFromVault.
  rewrite HN, Hl, load_loop_omap by assumption. reflexivity.
Qed.

(** X10.  Loading the journal: when [New] returns a vault and
    [ListEntries] a listing, and every listed file that is read has a
    content of the length of a Go string, [loadEntriesFromVault] returns
    without panicking and leaves the file system as [New] left it.  What
    becomes of each listed file is decided by [ReadEntry]: a file that is
    read gives an entry (its date the file name without [.md], its path
    [DatePath] of the date, collapsed), a file that is not read is
    skipped with a warning.  So the entries and the warnings together
    are as many as the listed files, the dates of the entries follow the
    order of the listing (newest first), and when every listed file is
    read there is no warning and one entry for each listed file. *)
Theorem load_entries_of_journal (fs fs' : FileSystem) (vaultDir : string)
        (previewLines : Z) (v : Vault.Vault) (listed : list string) :
  New fs vaultDir = (fs', Ok v) ->
  ListEntries fs' v = Ok listed ->
  contents_fit fs' v listed ->
  let entries := omap (loaded_entry fs' v previewLines) listed in
  let warnings := omap (load_warning fs' v) listed in
  loadEntriesFromVault fs vaultDir previewLines
  = Some (fs', warnings, Ok entries)
  /\ (length entries + length warnings = length listed)%nat
  /\ sublist (map Date entries) (map date_of listed)
  /\ Forall (fun e => Expanded e = false /\ Path e = DatePath v (Date e))
            entries
  /\ (all_read fs' v listed ->
      warnings = [] /\ map Date entries = map date_of listed).
Proof.
  intros HN Hl Hfit entries warnings.
  split; [apply loadEntriesFromVault_listed; assumption|].
  apply loaded_entries_dates.
Qed.

Lemma load_entries_of_journal_witness :
  loadEntriesFromVault diary "/j" 3
  = Some (diary, [],
          Ok [mkEntry "2024-01-16" "/j/2024-01-16.md" "(untitled)" ["Sun."]
                      false;
              mkEntry "2024-01-15" "/j/2024-01-15.md" "Monday" ["Rain."]
                      false]).
Proof.
  refine (proj1 (load_entries_of_journal diary diary "/j" 3
                   (mkVault "/j") ["2024-01-16.md"; "2024-01-15.md"]
                   eq_refl eq_refl _)).
  repeat (apply List.Forall_cons;
          [intros content Hc; vm_compute in Hc; injection Hc as <-;
           vm_compute; reflexivity|]).
  apply List.Forall_nil.
Defined.

Section Startup.
Variable error_text : LoadErr -> string.


End Startup.


End JournalLoader.

(** ** The [view] command *)

Section ViewCommand.
Import GoStrings GoOS GoDirs Vault VaultDir Spec Props Cmd.




End ViewCommand.

(** ** The browser never panics *)

Section BrowserSafety.
Import Tui Spec Props.
Variable st : Styles.

(** Whatever the viewport height and the number of entries are,
    [adjustScroll] leaves a scroll offset that is not negative. *)
Lemma reclamped_bounds c so vh n :
  GoInt.in_range c -> GoInt.in_range so ->
  0 <= reclamped c so vh n <= GoInt.max_int.
Proof.
  intros Hc Hso. unfold reclamped, GoInt.add, GoInt.sub.
  set (V := GoInt.wrap (vh - 4)). clearbody V.
  set (s1 := if c <? so then c else so).
  assert (Hs1 : GoInt.in_range s1) by (subst s1; destruct (c <? so); auto).
  clearbody s1.
  pose proof (wrap_in_range (GoInt.wrap (c - V) + 1)) as Hb.
  set (b := GoInt.wrap (GoInt.wrap (c - V) + 1)) in *. clearbody b.
  set (s2 := if c >=? GoInt.wrap (s1 + V) then b else s1).
  assert (Hs2 : GoInt.in_range s2).
  { subst s2. destruct (c >=? GoInt.wrap (s1 + V)); auto. }
  clearbody s2.
  pose proof (wrap_in_range (n - V)) as Hmx.
  set (mx := GoInt.wrap (n - V)) in *. clearbody mx.
  destruct (s2 <? 0) eqn:E1, (mx <? 0) eqn:E2; zprop;
    match goal with
    | |- context [if ?b then _ else _] => destruct b eqn:E3
    end; zprop; int_bounds.
Qed.

Lemma adjustScroll_in_bounds m c' :
  in_bounds m -> 0 <= c' -> c' + 10 <= GoInt.max_int ->
  in_bounds (adjustScroll (set_cursor m c')).
Proof.
  intros (Hn & Hc0 & Hc & Hso) Hc'0 Hc'.
  rewrite adjustScroll_reclamped.
  pose proof (reclamped_bounds c' (scrollOffset m) (viewportHeight m) (len m))
    as Hr.
  destruct m as [es c vh so q l e d pl].
  unfold in_bounds, set_scrollOffset, set_cursor, len in *;
    cbn [scrollOffset cursor viewportHeight entries] in *.
  repeat split; try lia; apply Hr; int_bounds.
Qed.

Lemma handleKeyPress_in_bounds m key :
  in_bounds m ->
  exists m' cmd, handleKeyPress m key = Some (m', cmd) /\ in_bounds m'.
Proof.
  intros Hm. pose proof Hm as (Hn & Hc0 & Hc & Hso).
  assert (Hlen : 0 <= len m) by (unfold len, GoSlice.len; lia).
  assert (Hmove : forall c', 0 <= c' -> c' + 10 <= GoInt.max_int ->
            in_bounds (adjustScroll (set_cursor m c'))).
  { intros c'. apply adjustScroll_in_bounds, Hm. }
  unfold handleKeyPress.
  destruct (len m =? 0) eqn:E0; zprop.
  { destruct (key_is key ["q"; "ctrl+c"]); do 2 eexists;
      (split; [reflexivity|]); auto. }
  destruct (key_is key ["q"; "ctrl+c"]).
  { do 2 eexists. split; [reflexivity|]. destruct m; exact Hm. }
  destruct (key_is key ["up"; "k"]).
  { destruct (cursor m >? 0) eqn:E; zprop;
      do 2 eexists; (split; [reflexivity|]); auto.
    rewrite sub_id by int_bounds. apply Hmove; lia. }
  rewrite (sub_id (len m) 1) by int_bounds.
  destruct (key_is key ["down"; "j"]).
  { destruct (cursor m <? len m - 1) eqn:E; zprop;
      do 2 eexists; (split; [reflexivity|]); auto.
    rewrite add_id by int_bounds. apply Hmove; lia. }
  destruct (key_is key ["enter"; " "]).
  { destruct (cursor m <? len m) eqn:E; zprop;
      [|do 2 eexists; split; [reflexivity | assumption]].
    destruct (toggle_at_in_range (entries m) (cursor m)) as [es' Hes'].
    { unfold len in E. lia. }
    rewrite Hes'. simpl. do 2 eexists. split; [reflexivity|].
    apply toggle_at_length in Hes'.
    destruct m; unfold in_bounds, len, GoSlice.len in *; cbn in *.
    rewrite Hes'. auto. }
  destruct (key_is key ["pgup"]).
  { do 2 eexists. split; [reflexivity|].
    rewrite sub_id by int_bounds.
    destruct m as [es c vh so q l e d pl]; unfold set_cursor; cbn in *.
    destruct (c - 10 <? 0) eqn:E; zprop.
    - apply (Hmove 0); int_bounds.
    - apply (Hmove (c - 10)); lia. }
  destruct (key_is key ["pgdown"]).
  { do 2 eexists. split; [reflexivity|].
    rewrite add_id by int_bounds.
    destruct m as [es c vh so q l e d pl]; unfold set_cursor, len in *;
      cbn in *.
    destruct (c + 10 >=? GoSlice.len es) eqn:E; zprop.
    - rewrite sub_id by int_bounds. apply (Hmove (GoSlice.len es - 1)); lia.
    - apply (Hmove (c + 10)); lia. }
  destruct (key_is key ["home"]).
  { do 2 eexists. split; [reflexivity|]. apply Hmove; int_bounds. }
  destruct (key_is key ["end"]).
  { do 2 eexists. split; [reflexivity|]. apply Hmove; lia. }
  do 2 eexists. split; [reflexivity | assumption].
Qed.

Lemma Update_in_bounds m msg :
  in_bounds m -> fits msg ->
  exists m' cmd, Update m msg = Some (m', cmd) /\ in_bounds m'.
Proof.
  intros Hm Hmsg. destruct msg as [key|w h|es [e|]|]; simpl.
  - apply handleKeyPress_in_bounds, Hm.
  - do 2 eexists. split; [reflexivity|]. destruct m; exact Hm.
  - do 2 eexists. split; [reflexivity|]. destruct m; exact Hm.
  - do 2 eexists. split; [reflexivity|].
    destruct m; unfold in_bounds, len in *; cbn in *. tauto.
  - do 2 eexists. split; [reflexivity | assumption].
Qed.

Lemma run_in_bounds msgs : forall m,
  in_bounds m -> Forall fits msgs ->
  exists m', run m msgs = Some m' /\ in_bounds m'.
Proof.
  induction msgs as [|msg msgs IH]; intros m Hm Hfits.
  - exists m. split; [reflexivity | assumption].
  - apply List.Forall_cons_iff in Hfits as [Hmsg Hfits].
    destruct (Update_in_bounds m msg Hm Hmsg) as (m1 & cmd & Hstep & Hm1).
    destruct (IH m1 Hm1 Hfits) as (m' & Hrun & Hm').
    exists m'. split; [|assumption]. simpl. rewrite Hstep. exact Hrun.
Qed.

Lemma View_in_bounds m : in_bounds m -> is_Some (View st m).
Proof.
  intros (Hn & Hc0 & Hc & Hso). unfold View, View_rows.
  destruct (err m); [eauto|]. destruct (loading m); [eauto|].
  destruct (len m =? 0) eqn:E0; [eauto|]. zprop.
  unfold visibleRange.
  match goal with
  | |- context [view_loop st ?f m ?i ?e ?b ?r] =>
      set (end_ := e); set (b0 := b);
      pose proof (view_loop_rows st m end_
                    (Z.to_nat (Z.max 0 (Z.min end_ (len m - 1)
                                        - scrollOffset m + 1)))
                    f (scrollOffset m) b0 r) as Hloop
  end.
  destruct (view_loop st _ m (scrollOffset m) end_ b0 [])
    as [[b rows]|]; [simpl; eauto|].
  exfalso. clearbody end_.
  assert (Hlen : len m = Z.of_nat (length (entries m))) by reflexivity.
  discriminate Hloop; lia.
Qed.

(** X13.  The browser never panics: from the initial model, whatever
    messages arrive (key presses, resizes to any height, loaded lists
    that leave room for a page step within a Go [int], load errors, other
    messages) and in whatever order, [Update] returns a model for each of
    them and [View] renders the model reached; the cursor and the scroll
    offset never become negative. *)
Theorem browser_never_panics (dir : string) (pl : Z) (msgs : list Msg) :
  Forall fits msgs ->
  exists m,
    run (NewModel dir pl) msgs = Some m
    /\ is_Some (View st m)
    /\ 0 <= cursor m /\ 0 <= scrollOffset m.
Proof.
  intros Hfits.
  destruct (run_in_bounds msgs (NewModel dir pl)) as (m & Hrun & Hm); auto.
  { unfold in_bounds, len, GoSlice.len; cbn. rewrite !max_int_val. lia. }
  exists m. split; [assumption|]. split; [apply View_in_bounds, Hm|].
  destruct Hm as (_ & ? & _ & ? & _). auto.
Qed.

End BrowserSafety.

Lemma browser_never_panics_witness :
  exists m,
    Tui.run (Tui.NewModel "/j" 5)
            [Tui.KeyMsg "enter"; Tui.WindowSizeMsg 80 3;
             Tui.LoadEntriesMsg (Spec.sample 3) None; Tui.KeyMsg "pgdown";
             Tui.KeyMsg "enter"; Tui.LoadEntriesMsg (Spec.sample 1) None;
             Tui.KeyMsg " "; Tui.KeyMsg "end"] = Some m
    /\ is_Some (Tui.View Props.plain m).
Proof.
  destruct (browser_never_panics Props.plain "/j" 5
              [Tui.KeyMsg "enter"; Tui.WindowSizeMsg 80 3;
               Tui.LoadEntriesMsg (Spec.sample 3) None; Tui.KeyMsg "pgdown";
               Tui.KeyMsg "enter"; Tui.LoadEntriesMsg (Spec.sample 1) None;
               Tui.KeyMsg " "; Tui.KeyMsg "end"])
    as (m & Hrun & Hview & _).
  - repeat (apply List.Forall_cons;
            [first [exact I
                   | unfold Props.fits, GoSlice.len; simpl;
                     rewrite max_int_val; lia]|]).
    apply List.Forall_nil.
  - exists m. split; [exact Hrun | exact Hview].
Defined.

(** ** What key presses and messages leave alone *)

Section BrowserKeys.
Import Tui Spec Props.
Variable st : Styles.

Lemma unexpanded_flipped e : unexpanded (flipped e) = unexpanded e.
Proof. reflexivity. Qed.

Lemma flipped_flipped e : flipped (flipped e) = e.
Proof. destruct e; unfold flipped; simpl. now rewrite negb_involutive. Qed.

Lemma toggle_at_flipped es i es' :
  toggle_at es i = Some es' ->
  exists e, es !! Z.to_nat i = Some e /\ 0 <= i
            /\ es' = <[Z.to_nat i := flipped e]> es.
Proof.
  unfold toggle_at, GoSlice.index.
  destruct (i <? 0) eqn:E; [discriminate|]. zprop.
  destruct (es !! Z.to_nat i) as [e|] eqn:He; simpl; [|discriminate].
  intros [= <-]. exists e. auto.
Qed.

Lemma toggle_at_unexpanded es i es' :
  toggle_at es i = Some es' -> map unexpanded es' = map unexpanded es.
Proof.
  intros (e & He & _ & ->)%toggle_at_flipped.
  change (unexpanded <$> <[Z.to_nat i := flipped e]> es = unexpanded <$> es).
  rewrite list_fmap_insert, unexpanded_flipped.
  apply list_insert_id. rewrite list_lookup_fmap, He. reflexivity.
Qed.

Lemma handleKeyPress_same_journal m key m' cmd :
  handleKeyPress m key = Some (m', cmd) ->
  same_journal m m' /\ (quitting m = true -> quitting m' = true).
Proof.
  assert (Hrefl : same_journal m m) by (unfold same_journal; tauto).
  assert (Hmove : forall m0, same_journal m m0 ->
            quitting m0 = quitting m ->
            same_journal m (adjustScroll m0)
            /\ (quitting m = true -> quitting (adjustScroll m0) = true)).
  { intros m0 H0 Hq. destruct (adjustScroll_frame m0) as [s ->].
    destruct m0; unfold same_journal in *; cbn in *. rewrite Hq. tauto. }
  unfold handleKeyPress.
  repeat match goal with
    | |- context [if ?b then _ else _] => destruct b
    end;
    try (intros [= <- <-]; first
           [ split; [exact Hrefl | tauto]
           | apply Hmove; [destruct m; exact Hrefl | reflexivity]
           | destruct m; split; [exact Hrefl | reflexivity] ]).
  destruct (toggle_at (entries m) (cursor m)) as [es'|] eqn:Hes';
    simpl; [|discriminate].
  intros [= <- <-]. apply toggle_at_unexpanded in Hes'.
  destruct m; unfold same_journal; cbn in *. tauto.
Qed.

Lemma run_keys_same_journal keys : forall m m',
  run m (key_msgs keys) = Some m' ->
  same_journal m m' /\ (quitting m = true -> quitting m' = true).
Proof.
  induction keys as [|key keys IH]; intros m m'; simpl.
  - intros [= <-]. unfold same_journal; tauto.
  - destruct (handleKeyPress m key) as [[m1 cmd]|] eqn:Hstep; [|discriminate].
    intros Hrun. apply handleKeyPress_same_journal in Hstep as [H1 Hq1].
    apply IH in Hrun as [H2 Hq2]. unfold same_journal in *.
    repeat split; try (etransitivity; [apply H2 | apply H1]); tauto.
Qed.

(** X14.  Key presses never add, drop, reorder or rewrite entries:
    after any sequence of key presses the entries are the same up to
    their [Expanded] flags, and the viewport height, the loading flag,
    the error, the vault directory and the number of preview lines are
    unchanged. *)
Theorem key_presses_keep_the_journal (m m' : Model) (keys : list string) :
  run m (key_msgs keys) = Some m' ->
  map unexpanded (entries m') = map unexpanded (entries m)
  /\ len m' = len m
  /\ viewportHeight m' = viewportHeight m
  /\ loading m' = loading m /\ err m' = err m
  /\ vaultDir m' = vaultDir m /\ previewLines m' = previewLines m.
Proof.
  intros [H _]%run_keys_same_journal. destruct H as (He & H).
  split; [assumption|]. split; [|assumption].
  unfold len, GoSlice.len. f_equal.
  rewrite <- (length_map unexpanded (entries m')), He. apply length_map.
Qed.

Lemma key_presses_keep_the_journal_witness :
  exists m',
    run (loaded "/j" 5 (sample 3) 9) (key_msgs ["j"; "enter"; "end"; "x"])
    = Some m'
    /\ map unexpanded (entries m') = map unexpanded (sample 3)
    /\ len m' = 3.
Proof.
  eexists. split; [reflexivity|].
  pose proof (key_presses_keep_the_journal (loaded "/j" 5 (sample 3) 9) _
                ["j"; "enter"; "end"; "x"] eq_refl) as H.
  split; [apply H|]. etransitivity; [apply H | reflexivity].
Defined.

Lemma Update_phases m msg m' cmd :
  Update m msg = Some (m', cmd) ->
  (loading m = false -> loading m' = false)
  /\ (is_Some (err m) -> is_Some (err m'))
  /\ (quitting m = true -> quitting m' = true).
Proof.
  destruct msg as [key|w h|es [e|]|]; simpl.
  - intros [(_ & _ & -> & -> & _) Hq]%handleKeyPress_same_journal. tauto.
  - intros [= <- <-]. destruct m; cbn. tauto.
  - intros [= <- <-]. destruct m; cbn. eauto.
  - intros [= <- <-]. destruct m; cbn. tauto.
  - intros [= <- <-]. tauto.
Qed.

(** X15.  The phases of the browser are one-way: along any sequence of
    messages that [Update] handles, a model that has stopped loading never
    loads again, a model that is quitting stays so, and a model with an
    error keeps an error, so that every later frame [View] renders is the
    error line. *)
Theorem phases_are_one_way (m m' : Model) (msgs : list Msg) :
  run m msgs = Some m' ->
  (loading m = false -> loading m' = false)
  /\ (is_Some (err m) ->
      exists e, err m' = Some e
                /\ View st m' = Some (errorStyle st ("Error: " ++ e)))
  /\ (quitting m = true -> quitting m' = true).
Proof.
  revert m. induction msgs as [|msg msgs IH]; intros m; simpl.
  - intros [= <-]. split; [tauto|]. split; [|tauto].
    intros [e He]. exists e. split; [assumption|].
    unfold View, View_rows. rewrite He. reflexivity.
  - destruct (Update m msg) as [[m1 cmd]|] eqn:Hstep; [|discriminate].
    intros Hrun. apply Update_phases in Hstep as (H1 & H2 & H3).
    apply IH in Hrun as (H1' & H2' & H3'). auto.
Qed.

Lemma toggle_key key :
  delivers ToggleExpand key ->
  key_is key ["q"; "ctrl+c"] = false /\ key_is key ["up"; "k"] = false
  /\ key_is key ["down"; "j"] = false /\ key_is key ["enter"; " "] = true.
Proof.
  intros [<-|[<-|[]]]; repeat split; reflexivity.
Qed.

Lemma toggle_step m key :
  delivers ToggleExpand key -> 0 <= cursor m < len m ->
  exists e,
    entries m !! Z.to_nat (cursor m) = Some e
    /\ handleKeyPress m key
       = Some (set_entries m (<[Z.to_nat (cursor m) := flipped e]> (entries m)),
               None).
Proof.
  intros (Hq & Hu & Hd & He)%toggle_key Hc.
  unfold handleKeyPress. rewrite Hq, Hu, Hd, He.
  destruct (len m =? 0) eqn:E0; zprop; [lia|].
  destruct (cursor m <? len m) eqn:E; zprop; [|lia].
  destruct (toggle_at_in_range (entries m) (cursor m)) as [es' Hes'].
  { unfold len in E. lia. }
  rewrite Hes'. simpl.
  apply toggle_at_flipped in Hes' as (e & Hl & _ & ->). eauto.
Qed.

(** X16.  Expanding and collapsing: with the cursor on an entry, a
    toggle key inverts the [Expanded] flag of that entry and changes
    nothing else (no other entry, not the cursor, not the scroll
    offset), and a second toggle key gives back the model the first one
    was pressed in. *)
Theorem toggle_twice_restores (m : Model) (key1 key2 : string) :
  delivers ToggleExpand key1 -> delivers ToggleExpand key2 ->
  0 <= cursor m < len m ->
  (exists e m1,
      entries m !! Z.to_nat (cursor m) = Some e
      /\ Update m (KeyMsg key1) = Some (m1, None)
      /\ entries m1 !! Z.to_nat (cursor m) = Some (flipped e)
      /\ (forall j, j <> Z.to_nat (cursor m) ->
                    entries m1 !! j = entries m !! j)
      /\ cursor m1 = cursor m /\ scrollOffset m1 = scrollOffset m)
  /\ run m (key_msgs [key1; key2]) = Some m.
Proof.
  intros Hk1 Hk2 Hc.
  destruct (toggle_step m key1 Hk1 Hc) as (e & He & Hstep).
  assert (Hlt : (Z.to_nat (cursor m) < length (entries m))%nat).
  { eapply lookup_lt_Some, He. }
  split.
  - exists e. eexists. split; [exact He|]. split; [exact Hstep|].
    destruct m as [es c vh so q l er d pl]; cbn in *.
    split; [apply list_lookup_insert_eq; assumption|].
    split; [|auto]. intros j Hj. apply list_lookup_insert_ne. auto.
  - simpl. rewrite Hstep.
    set (m1 := set_entries m _).
    destruct (toggle_step m1 key2 Hk2) as (e1 & He1 & Hstep1).
    { subst m1. destruct m; unfold len, GoSlice.len in *; cbn in *.
      rewrite length_insert. lia. }
    rewrite Hstep1. f_equal. subst m1.
    destruct m as [es c vh so q l er d pl]; unfold set_entries; cbn in *.
    rewrite list_lookup_insert_eq in He1 by assumption.
    injection He1 as <-.
    rewrite list_insert_insert_eq, flipped_flipped, list_insert_id by assumption.
    reflexivity.
Qed.

Lemma toggle_twice_restores_witness :
  run (loaded "/j" 5 (sample 3) 9) (key_msgs ["enter"; " "])
  = Some (loaded "/j" 5 (sample 3) 9).
Proof.
  apply (toggle_twice_restores (loaded "/j" 5 (sample 3) 9) "enter" " ").
  - left. reflexivity.
  - right. left. reflexivity.
  - unfold len, GoSlice.len. simpl. lia.
Defined.

End BrowserKeys.

Lemma phases_are_one_way_witness :
  exists m',
    Tui.run (Tui.NewModel "/j" 5)
        [Tui.LoadEntriesMsg [] (Some "failed to list entries");
         Tui.WindowSizeMsg 80 24; Tui.LoadEntriesMsg (Spec.sample 2) None;
         Tui.KeyMsg "j"]
    = Some m'
    /\ Tui.loading m' = false
    /\ Tui.View Props.plain m' = Some "Error: failed to list entries".
Proof.
  eexists. split; [reflexivity|].
  pose proof (phases_are_one_way Props.plain
                (Tui.set_err (Tui.set_loading (Tui.NewModel "/j" 5) false)
                             (Some "failed to list entries")) _
                [Tui.WindowSizeMsg 80 24;
                 Tui.LoadEntriesMsg (Spec.sample 2) None;
                 Tui.KeyMsg "j"] eq_refl) as (H1 & H2 & _).
  split; [apply H1; reflexivity|].
  destruct H2 as (e & He & Hv); [eexists; reflexivity|].
  injection He as <-. exact Hv.
Defined.

(** ** Where the cursor and the window go *)

Section BrowserMoves.
Import Tui Spec Props.

Lemma reclamped_home so vh n :
  5 <= vh <= GoInt.max_int -> GoInt.in_range so -> 0 <= n <= GoInt.max_int ->
  reclamped 0 so vh n = 0.
Proof.
  intros Hvh Hso Hn. unfold reclamped.
  rewrite (sub_id vh 4) by int_bounds. set (V := vh - 4).
  assert (HV : 1 <= V <= GoInt.max_int - 4) by (subst V; int_bounds).
  clearbody V.
  set (s1 := if 0 <? so then 0 else so).
  assert (Hs1 : s1 <= 0 /\ GoInt.in_range s1).
  { subst s1. destruct (0 <? so) eqn:E; zprop; int_bounds. }
  clearbody s1.
  set (s2 := if 0 >=? GoInt.add s1 V then _ else s1).
  assert (Hs2 : s2 <= 0).
  { subst s2. unfold GoInt.add, GoInt.sub.
    rewrite (wrap_id (0 - V)) by int_bounds.
    rewrite (wrap_id (0 - V + 1)) by int_bounds.
    destruct (0 >=? GoInt.wrap (s1 + V)); lia. }
  clearbody s2.
  set (s3 := if s2 <? 0 then 0 else s2).
  assert (Hs3 : s3 = 0).
  { subst s3. destruct (s2 <? 0) eqn:E; zprop; lia. }
  rewrite Hs3.
  unfold GoInt.sub. rewrite (wrap_id (n - V)) by int_bounds.
  destruct (n - V <? 0) eqn:E1; zprop;
    match goal with
    | |- context [if ?b then _ else _] => destruct b eqn:E2
    end; zprop; lia.
Qed.

Lemma reclamped_end so vh n :
  5 <= vh <= GoInt.max_int -> GoInt.in_range so -> 1 <= n <= GoInt.max_int ->
  reclamped (n - 1) so vh n = Z.max 0 (n - (vh - 4)).
Proof.
  intros Hvh Hso Hn. unfold reclamped.
  rewrite (sub_id vh 4) by int_bounds. set (V := vh - 4).
  assert (HV : 1 <= V <= GoInt.max_int - 4) by (subst V; int_bounds).
  clearbody V.
  set (s1 := if n - 1 <? so then n - 1 else so).
  assert (Hs1 : s1 <= n - 1 /\ GoInt.in_range s1
                /\ (s1 = so \/ (s1 = n - 1 /\ n - 1 < so))).
  { subst s1. destruct (n - 1 <? so) eqn:E; zprop; int_bounds. }
  clearbody s1.
  set (s2 := if n - 1 >=? GoInt.add s1 V then _ else s1).
  assert (Hs2 : (s2 = n - V \/ (n - V <= s2 <= n - 1))
                /\ GoInt.in_range s2).
  { subst s2. unfold GoInt.add, GoInt.sub.
    rewrite (wrap_id (n - 1 - V)) by int_bounds.
    rewrite (wrap_id (n - 1 - V + 1)) by int_bounds.
    destruct (Z_le_gt_dec (s1 + V) GoInt.max_int).
    - rewrite (wrap_id (s1 + V)) by int_bounds.
      destruct (n - 1 >=? s1 + V) eqn:E; zprop; int_bounds.
    - rewrite (wrap_overflow (s1 + V)) by int_bounds.
      destruct (n - 1 >=? s1 + V - 2 ^ 64) eqn:E; zprop; int_bounds. }
  clearbody s2.
  set (s3 := if s2 <? 0 then 0 else s2).
  assert (Hs3 : s3 = Z.max 0 (n - V) \/ (Z.max 0 (n - V) <= s3)).
  { subst s3. destruct (s2 <? 0) eqn:E; zprop; lia. }
  clearbody s3.
  unfold GoInt.sub. rewrite (wrap_id (n - V)) by int_bounds.
  destruct (n - V <? 0) eqn:E1; zprop;
    match goal with
    | |- context [if ?b then _ else _] => destruct b eqn:E2
    end; zprop; lia.
Qed.

Lemma plain_key key :
  In key ["pgup"; "pgdown"; "home"; "end"] ->
  key_is key ["q"; "ctrl+c"] = false /\ key_is key ["up"; "k"] = false
  /\ key_is key ["down"; "j"] = false /\ key_is key ["enter"; " "] = false.
Proof.
  intros [<-|[<-|[<-|[<-|[]]]]]; repeat split; reflexivity.
Qed.

(** X17.  Home and End: in a list of at least one entry with at least
    one visible row, whatever the scroll offset was, the Home key puts
    the cursor on the first entry with the window at the top, and the End
    key puts the cursor on the last entry with the window as far down as
    the bound allows, at [max(0, N - (H - 4))]. *)
Theorem home_and_end_positions (m : Model) :
  1 <= len m <= GoInt.max_int ->
  5 <= viewportHeight m <= GoInt.max_int ->
  GoInt.in_range (scrollOffset m) ->
  (exists m',
      Update m (KeyMsg "home") = Some (m', None)
      /\ cursor m' = 0 /\ scrollOffset m' = 0)
  /\ (exists m',
         Update m (KeyMsg "end") = Some (m', None)
         /\ cursor m' = len m - 1
         /\ scrollOffset m'
            = Z.max 0 (len m - (viewportHeight m - 4))).
Proof.
  intros Hn Hvh Hso. simpl. unfold handleKeyPress.
  destruct (len m =? 0) eqn:E0; zprop; [lia|].
  cbn [key_is existsb String.eqb Ascii.eqb Bool.eqb orb andb].
  rewrite !adjustScroll_reclamped.
  rewrite (sub_id (len m) 1) by int_bounds.
  split; eexists; (split; [reflexivity|]);
    destruct m as [es c vh so q l e d pl];
    unfold set_scrollOffset, set_cursor, len in *;
    cbn [scrollOffset cursor viewportHeight entries] in *.
  - split; [reflexivity|]. apply reclamped_home; auto. lia.
  - split; [reflexivity|]. apply reclamped_end; auto.
Qed.

Lemma home_and_end_positions_witness :
  exists m',
    Update (set_scrollOffset (loaded "/j" 5 (sample 30) 9) 25) (KeyMsg "end")
    = Some (m', None)
    /\ cursor m' = 29 /\ scrollOffset m' = 25.
Proof.
  destruct (home_and_end_positions
              (set_scrollOffset (loaded "/j" 5 (sample 30) 9) 25))
    as [_ (m' & H1 & H2 & H3)].
  - unfold len, GoSlice.len. simpl. rewrite max_int_val. lia.
  - simpl. rewrite max_int_val. lia.
  - simpl. rewrite range_bounds. lia.
  - exists m'. split; [exact H1|]. split; [exact H2 | exact H3].
Defined.

(** X18.  A stale scroll offset is repaired by the next cursor move:
    with the cursor on an entry and at least one visible row, whatever
    the scroll offset is (for instance after a resize), each of PageUp,
    PageDown, Home and End leads to a state in which the cursor is
    visible and the scroll offset is within its bound, and so does every
    key press that changes the cursor. *)
Theorem cursor_move_repairs_scroll (m : Model) :
  1 <= len m -> len m + 10 <= GoInt.max_int ->
  5 <= viewportHeight m <= GoInt.max_int ->
  0 <= cursor m < len m ->
  GoInt.in_range (scrollOffset m) ->
  (forall key, In key ["pgup"; "pgdown"; "home"; "end"] ->
     exists m', Update m (KeyMsg key) = Some (m', None)
                /\ browsing (len m) (viewportHeight m) m')
  /\ (forall key m' cmd,
         Update m (KeyMsg key) = Some (m', cmd) ->
         cursor m' <> cursor m ->
         browsing (len m) (viewportHeight m) m').
Proof.
  intros HN1 HN HH Hc Hso.
  assert (Hmove : forall c', 0 <= c' < len m ->
            browsing (len m) (viewportHeight m)
                     (adjustScroll (set_cursor m c'))).
  { intros c' Hc'. apply reclamp_after_move; auto. int_bounds. }
  split.
  - intros key Hkey. pose proof (plain_key key Hkey) as (Hq & Hu & Hd & He).
    simpl. unfold handleKeyPress. rewrite Hq, Hu, Hd, He.
    destruct (len m =? 0) eqn:E0; zprop; [lia|].
    destruct (key_is key ["pgup"]) eqn:E1.
    { eexists. split; [reflexivity|].
      rewrite sub_id by int_bounds.
      destruct m as [es c vh so q l e d pl]; unfold set_cursor; cbn in *.
      destruct (c - 10 <? 0) eqn:E; zprop.
      - apply (Hmove 0). lia.
      - apply (Hmove (c - 10)). lia. }
    destruct (key_is key ["pgdown"]) eqn:E2.
    { eexists. split; [reflexivity|].
      rewrite add_id by int_bounds.
      destruct m as [es c vh so q l e d pl]; unfold set_cursor, len in *;
        cbn in *.
      rewrite (sub_id (GoSlice.len es) 1) by int_bounds.
      destruct (c + 10 >=? GoSlice.len es) eqn:E; zprop.
      - apply (Hmove (GoSlice.len es - 1)). lia.
      - apply (Hmove (c + 10)). lia. }
    rewrite (sub_id (len m) 1) by int_bounds.
    destruct (key_is key ["home"]) eqn:E3.
    { eexists. split; [reflexivity|]. apply Hmove. lia. }
    destruct (key_is key ["end"]) eqn:E4.
    { eexists. split; [reflexivity|]. apply Hmove. lia. }
    exfalso. destruct Hkey as [<-|[<-|[<-|[<-|[]]]]];
      [discriminate E1 | discriminate E2 | discriminate E3 | discriminate E4].
  - intros key m' cmd. simpl. unfold handleKeyPress.
    destruct (len m =? 0) eqn:E0; zprop; [lia|].
    destruct (key_is key ["q"; "ctrl+c"]).
    { intros [= <- <-]. destruct m; cbn. congruence. }
    destruct (key_is key ["up"; "k"]).
    { destruct (cursor m >? 0) eqn:E; zprop; intros [= <- <-];
        [|congruence].
      intros _. apply Hmove. rewrite sub_id by int_bounds. lia. }
    rewrite (sub_id (len m) 1) by int_bounds.
    destruct (key_is key ["down"; "j"]).
    { destruct (cursor m <? len m - 1) eqn:E; zprop; intros [= <- <-];
        [|congruence].
      intros _. apply Hmove. rewrite add_id by int_bounds. lia. }
    destruct (key_is key ["enter"; " "]).
    { destruct (cursor m <? len m); [|intros [= <- <-]; congruence].
      destruct (toggle_at (entries m) (cursor m)); simpl; [|discriminate].
      intros [= <- <-]. destruct m; cbn. congruence. }
    destruct (key_is key ["pgup"]).
    { intros [= <- <-] _. rewrite sub_id by int_bounds.
      destruct m as [es c vh so q l e d pl]; unfold set_cursor; cbn in *.
      destruct (c - 10 <? 0) eqn:E; zprop.
      - apply (Hmove 0). lia.
      - apply (Hmove (c - 10)). lia. }
    destruct (key_is key ["pgdown"]).
    { intros [= <- <-] _. rewrite add_id by int_bounds.
      destruct m as [es c vh so q l e d pl]; unfold set_cursor, len in *;
        cbn in *.
      rewrite (sub_id (GoSlice.len es) 1) by int_bounds.
      destruct (c + 10 >=? GoSlice.len es) eqn:E; zprop.
      - apply (Hmove (GoSlice.len es - 1)). lia.
      - apply (Hmove (c + 10)). lia. }
    destruct (key_is key ["home"]).
    { intros [= <- <-] _. apply Hmove. lia. }
    destruct (key_is key ["end"]).
    { intros [= <- <-] _. apply Hmove. lia. }
    intros [= <- <-]. congruence.
Qed.

Lemma cursor_move_repairs_scroll_witness :
  let stale := set_viewportHeight
                 (set_scrollOffset (set_cursor (loaded "/j" 5 (sample 10) 20) 9) 0)
                 5 in
  exists m',
    Update stale (KeyMsg "k") = Some (m', None)
    /\ browsing 10 5 m'.
Proof.
  cbv zeta. eexists. split; [reflexivity|].
  refine (proj2 (cursor_move_repairs_scroll
            (set_viewportHeight
               (set_scrollOffset (set_cursor (loaded "/j" 5 (sample 10) 20) 9) 0)
               5) _ _ _ _ _) "k" _ None eq_refl _).
  1-5: unfold len, GoSlice.len; simpl;
    rewrite ?max_int_val, ?range_bounds; lia.
  vm_compute. discriminate.
Defined.

(** The offset [adjustScroll] computes when the cursor is at [c] and the
    window of [vh - 4] rows starting at [so] lies within the list: the
    window moves just far enough to take the cursor in. *)
Lemma reclamped_nearest c so vh n :
  5 <= vh <= GoInt.max_int -> n <= GoInt.max_int ->
  0 <= c < n -> 0 <= so <= Z.max 0 (n - (vh - 4)) ->
  reclamped c so vh n
  = if c <? so then c
    else if so + (vh - 4) <=? c then c - (vh - 4) + 1
    else so.
Proof.
  intros Hvh Hn Hc Hso. unfold reclamped.
  rewrite (sub_id vh 4) by int_bounds. set (V := vh - 4) in *.
  assert (HV : 1 <= V <= GoInt.max_int - 4) by (subst V; int_bounds).
  clearbody V.
  unfold GoInt.add, GoInt.sub.
  rewrite (wrap_id (c - V)) by int_bounds.
  rewrite (wrap_id (c - V + 1)) by int_bounds.
  rewrite (wrap_id (n - V)) by int_bounds.
  destruct (c <? so) eqn:E1; zprop.
  - rewrite (wrap_id (c + V)) by int_bounds.
    destruct (c >=? c + V) eqn:E2; zprop; [lia|].
    destruct (c <? 0) eqn:E3; zprop; [lia|].
    destruct (n - V <? 0) eqn:E4; zprop;
      match goal with
      | |- context [if ?b then _ else _] => destruct b eqn:E5
      end; zprop; lia.
  - rewrite (wrap_id (so + V)) by int_bounds.
    rewrite Z.geb_leb.
    destruct (so + V <=? c) eqn:E2; zprop.
    + destruct (c - V + 1 <? 0) eqn:E3; zprop; [lia|].
      destruct (n - V <? 0) eqn:E4; zprop;
        match goal with
        | |- context [if ?b then _ else _] => destruct b eqn:E5
        end; zprop; lia.
    + destruct (so <? 0) eqn:E3; zprop; [lia|].
      destruct (n - V <? 0) eqn:E4; zprop;
        match goal with
        | |- context [if ?b then _ else _] => destruct b eqn:E5
        end; zprop; lia.
Qed.

(** X19.  [adjustScroll] leaves a good state alone: in a state in which
    the cursor is visible and the scroll offset is within its bound it
    changes nothing, and applied twice it does what it does applied
    once. *)
Theorem adjustScroll_is_stable (N H : Z) (m : Model) :
  5 <= H <= GoInt.max_int -> N <= GoInt.max_int ->
  (browsing N H m -> adjustScroll m = m)
  /\ (len m = N -> viewportHeight m = H -> 0 <= cursor m < N ->
      GoInt.in_range (scrollOffset m) ->
      adjustScroll (adjustScroll m) = adjustScroll m).
Proof.
  intros HH HN.
  assert (Hstable : forall m0, browsing N H m0 -> adjustScroll m0 = m0).
  { intros m0 (Hlen & Hvh & Hc & Hso & [Hvis Hb]).
    unfold cursor_visible, scroll_bounded, visible_rows in *.
    rewrite Hvh, ?Hlen in *.
    rewrite adjustScroll_reclamped, Hlen, Hvh.
    rewrite reclamped_nearest by lia.
    destruct (cursor m0 <? scrollOffset m0) eqn:E1; zprop; [lia|].
    destruct (scrollOffset m0 + (H - 4) <=? cursor m0) eqn:E2; zprop; [lia|].
    destruct m0; reflexivity. }
  split; [apply Hstable|].
  intros Hlen Hvh Hc Hso. apply Hstable.
  pose proof (reclamp_after_move N H m (cursor m) HH HN Hlen Hvh Hso Hc) as Hb.
  destruct m; exact Hb.
Qed.

Lemma adjustScroll_is_stable_witness :
  let m := set_scrollOffset (set_cursor (loaded "/j" 5 (sample 30) 9) 12) 10 in
  adjustScroll m = m.
Proof.
  cbv zeta.
  apply (proj1 (adjustScroll_is_stable 30 9
                  (set_scrollOffset
                     (set_cursor (loaded "/j" 5 (sample 30) 9) 12) 10)
                  ltac:(rewrite max_int_val; lia)
                  ltac:(rewrite max_int_val; lia))).
  unfold browsing, scroll_invariant, cursor_visible, scroll_bounded,
    visible_rows, len, GoSlice.len. simpl. lia.
Defined.

Lemma step_key (e : NavEvent) key :
  e = MoveUp \/ e = MoveDown -> delivers e key ->
  key_is key ["q"; "ctrl+c"] = false
  /\ key_is key ["up"; "k"] = (if e is MoveUp then true else false)
  /\ key_is key ["down"; "j"] = (if e is MoveDown then true else false).
Proof.
  intros [->| ->] [<-|[<-|[]]]; repeat split; reflexivity.
Qed.

(** X20.  Single steps scroll by at most one row: from a state that
    satisfies the scroll invariant, a Down key above the last entry moves
    the cursor down by one and the window down by one row exactly when
    the cursor would leave it at the bottom; an Up key below the first
    entry moves the cursor up by one and the window up by one row exactly
    when the cursor was on its first row. *)
Theorem single_step_scrolls_one_row (N H : Z) (m : Model) (key : string) :
  5 <= H <= GoInt.max_int -> N <= GoInt.max_int ->
  browsing N H m ->
  (delivers MoveDown key -> cursor m < N - 1 ->
   exists m',
     Update m (KeyMsg key) = Some (m', None)
     /\ cursor m' = cursor m + 1
     /\ scrollOffset m'
        = (if cursor m + 1 <? scrollOffset m + (H - 4)
           then scrollOffset m else scrollOffset m + 1))
  /\ (delivers MoveUp key -> 0 < cursor m ->
      exists m',
        Update m (KeyMsg key) = Some (m', None)
        /\ cursor m' = cursor m - 1
        /\ scrollOffset m'
           = (if scrollOffset m <? cursor m
              then scrollOffset m else scrollOffset m - 1)).
Proof.
  intros HH HN (Hlen & Hvh & Hc & Hso & [Hvis Hb]).
  unfold cursor_visible, scroll_bounded, visible_rows in *.
  rewrite Hvh, ?Hlen in *.
  split; intros Hkey Hmove; simpl; unfold handleKeyPress;
    [destruct (step_key MoveDown key ltac:(auto) Hkey) as (Hq & Hu & Hd)
    |destruct (step_key MoveUp key ltac:(auto) Hkey) as (Hq & Hu & Hd)];
    rewrite Hq, Hu, ?Hd, Hlen;
    (destruct (N =? 0) eqn:E0; zprop; [lia|]).
  - rewrite (sub_id N 1) by int_bounds.
    destruct (cursor m <? N - 1) eqn:E; zprop; [|lia].
    eexists. split; [reflexivity|].
    rewrite adjustScroll_reclamped, add_id by int_bounds.
    destruct m as [es c vh so q l e d pl];
      unfold set_scrollOffset, set_cursor, len in *;
      cbn [scrollOffset cursor viewportHeight entries] in *.
    split; [reflexivity|]. subst.
    rewrite reclamped_nearest by lia.
    destruct (c + 1 <? so) eqn:E1; zprop; [lia|].
    destruct (so + (H - 4) <=? c + 1) eqn:E2,
             (c + 1 <? so + (H - 4)) eqn:E3; zprop; lia.
  - destruct (cursor m >? 0) eqn:E; zprop; [|lia].
    eexists. split; [reflexivity|].
    rewrite adjustScroll_reclamped, sub_id by int_bounds.
    destruct m as [es c vh so q l e d pl];
      unfold set_scrollOffset, set_cursor, len in *;
      cbn [scrollOffset cursor viewportHeight entries] in *.
    split; [reflexivity|]. subst.
    rewrite reclamped_nearest by lia.
    destruct (c - 1 <? so) eqn:E1, (so <? c) eqn:E3; zprop; try lia.
    destruct (so + (H - 4) <=? c - 1) eqn:E2; zprop; lia.
Qed.

Lemma single_step_scrolls_one_row_witness :
  let m := set_scrollOffset (set_cursor (loaded "/j" 5 (sample 30) 9) 14) 10 in
  exists m',
    Update m (KeyMsg "j") = Some (m', None)
    /\ cursor m' = 15 /\ scrollOffset m' = 11.
Proof.
  cbv zeta.
  apply (proj1 (single_step_scrolls_one_row 30 9
                  (set_scrollOffset
                     (set_cursor (loaded "/j" 5 (sample 30) 9) 14) 10) "j"
                  ltac:(rewrite max_int_val; lia)
                  ltac:(rewrite max_int_val; lia)
                  ltac:(unfold browsing, scroll_invariant, cursor_visible,
                          scroll_bounded, visible_rows, len, GoSlice.len;
                        simpl; lia))).
  - right. left. reflexivity.
  - simpl. lia.
Defined.

End BrowserMoves.

(** ** The rows of a frame and the preview of an entry *)

Section Frame.
Import GoStrings Tui Spec Props.
Variable st : Styles.

(** X21.  The rows of a frame: for a model that shows entries and
    satisfies the scroll invariant, [View] renders one row for each index
    from the scroll offset on, [H - 3] of them unless the list ends
    before, and the row of the entry under the cursor is among them. *)
Theorem frame_shows_the_cursor_row (N H : Z) (m : Model) :
  browsing N H m -> err m = None -> loading m = false ->
  N + H <= GoInt.max_int ->
  exists frame,
    View_rows st m
    = Some (frame,
            seqZ (scrollOffset m) (Z.min (H - 3) (N - scrollOffset m)))
    /\ scrollOffset m <= cursor m
       < scrollOffset m + Z.min (H - 3) (N - scrollOffset m).
Proof.
  intros (Hlen & Hvh & Hc & Hso & [Hvis _]) Herr Hload Hfit.
  unfold cursor_visible, visible_rows in Hvis. rewrite Hvh in Hvis.
  assert (HH : 5 <= H) by lia.
  pose proof (view_rows_range st m Herr Hload) as Hrows.
  rewrite Hlen, Hvh in Hrows.
  replace (Z.max 0 (Z.min (scrollOffset m + H - 4) (N - 1)
                    - scrollOffset m + 1))
    with (Z.min (H - 3) (N - scrollOffset m)) in Hrows by lia.
  destruct (View_rows st m) as [[frame rows]|].
  - simpl in Hrows. exists frame. split; [|lia].
    f_equal. f_equal.
    assert (Hs : Some rows
                 = Some (seqZ (scrollOffset m)
                           (Z.min (H - 3) (N - scrollOffset m)))).
    { apply Hrows; rewrite ?range_bounds, ?max_int_val in *; lia. }
    injection Hs as ->. reflexivity.
  - exfalso. simpl in Hrows.
    assert (Hs : None
                 = Some (seqZ (scrollOffset m)
                           (Z.min (H - 3) (N - scrollOffset m)))).
    { apply Hrows; rewrite ?range_bounds, ?max_int_val in *; lia. }
    discriminate Hs.
Qed.

(** X22.  The preview of an entry: for a content whose length is a Go
    [int] below the maximum, [extractTitleAndPreview] returns; the
    preview has at most [previewLines] lines, its first line is not
    blank, and its lines are consecutive lines of the content. *)
Theorem preview_is_bounded (content : string) (previewLines : Z) :
  strlen content < GoInt.max_int ->
  exists title preview before after,
    extractTitleAndPreview content previewLines = Some (title, preview)
    /\ (length preview <= Z.to_nat previewLines)%nat
    /\ (forall line, head preview = Some line -> blank line = false)
    /\ Split content "010"%char = (before ++ preview ++ after)%list.
Proof.
  intros Hfit. rewrite extractTitleAndPreview_total by assumption.
  unfold title_and_preview.
  assert (Hskip : forall lines,
            exists blanks, lines = (blanks ++ skip_blank lines)%list
              /\ forall line, head (skip_blank lines) = Some line ->
                              blank line = false).
  { induction lines as [|l rest (blanks & Hb & Hh)]; simpl.
    - exists []. split; [reflexivity | discriminate].
    - destruct (blank l) eqn:E.
      + exists (l :: blanks). simpl. rewrite <- Hb. auto.
      + exists []. split; [reflexivity|]. simpl. intros ? [= <-]. exact E. }
  assert (Hprev : forall pre lines,
            Split content "010"%char = (pre ++ lines)%list ->
            exists before after,
              (length (preview_of lines previewLines)
               <= Z.to_nat previewLines)%nat
              /\ (forall line,
                     head (preview_of lines previewLines) = Some line ->
                     blank line = false)
              /\ Split content "010"%char
                 = (before ++ preview_of lines previewLines ++ after)%list).
  { intros pre lines Hsplit. unfold preview_of.
    destruct (Hskip lines) as (blanks & Hb & Hh).
    exists (pre ++ blanks)%list,
           (drop (Z.to_nat previewLines) (skip_blank lines)).
    split; [rewrite length_take; lia|]. split.
    - intros line Hl. apply Hh.
      destruct (Z.to_nat previewLines), (skip_blank lines);
        simpl in *; congruence.
    - rewrite take_drop, <- app_assoc, <- Hb. exact Hsplit. }
  destruct (first_heading (Split content "010"%char)) as [[i line]|].
  - destruct (Hprev (take (S i) (Split content "010"%char))
                    (drop (S i) (Split content "010"%char)))
      as (before & after & H1 & H2 & H3).
    { symmetry. apply take_drop. }
    do 4 eexists. split; [reflexivity|]. eauto.
  - destruct (Hprev [] (Split content "010"%char) eq_refl)
      as (before & after & H1 & H2 & H3).
    do 4 eexists. split; [reflexivity|]. eauto.
Qed.

Lemma preview_is_bounded_witness :
  exists title preview,
    extractTitleAndPreview
      ("# Day" ++ newline ++ newline ++ "a" ++ newline ++ "b" ++ newline ++ "c")
      2 = Some (title, preview)
    /\ (length preview <= 2)%nat.
Proof.
  destruct (preview_is_bounded
              ("# Day" ++ newline ++ newline ++ "a" ++ newline ++ "b"
                 ++ newline ++ "c") 2)
    as (title & preview & _ & _ & He & Hlen & _).
  - vm_compute. reflexivity.
  - exists title, preview. split; [exact He | exact Hlen].
Defined.

End Frame.

Lemma frame_shows_the_cursor_row_witness :
  exists frame,
    Tui.View_rows Props.plain
      (Tui.set_scrollOffset (Tui.set_cursor (Spec.loaded "/j" 5 (Spec.sample 10) 7) 4) 2)
    = Some (frame, [2; 3; 4; 5]).
Proof.
  destruct (frame_shows_the_cursor_row Props.plain 10 7
              (Tui.set_scrollOffset
                 (Tui.set_cursor (Spec.loaded "/j" 5 (Spec.sample 10) 7) 4) 2))
    as (frame & Hv & _).
  - unfold Spec.browsing, Spec.scroll_invariant, Spec.cursor_visible,
      Spec.scroll_bounded, Spec.visible_rows, Tui.len, GoSlice.len.
    simpl. lia.
  - reflexivity.
  - reflexivity.
  - rewrite max_int_val. lia.
  - exists frame. exact Hv.
Defined.

(** ** Today's entry *)

Section TodayCommand.
Import GoStrings GoOS GoDirs Vault VaultDir Spec Today.
Variable clock : nat -> string.

Lemma CreateEntry_other fs fs' v date other :
  absolute (Vault.Directory v) ->
  has_separator date = false -> has_separator other = false ->
  other <> date ->
  CreateEntry fs v date = (fs', None) ->
  EntryExists fs' v date = true
  /\ EntryExists fs' v other = EntryExists fs v other.
Proof.
  intros Habs Hd Ho Hne. unfold CreateEntry.
  destruct (EntryExists fs v date); [discriminate|].
  intros Hput%WriteEntry_ok. split.
  - apply walk_put in Hput as [w Hwalk].
    unfold EntryExists, Stat. rewrite Hwalk. reflexivity.
  - rewrite DatePath_names in Hput by assumption.
    unfold EntryExists, Stat.
    rewrite (DatePath_names v other) by assumption.
    erewrite walk_put_other; [reflexivity | exact Hput |].
    intros Heq%append_inj_r. congruence.
Qed.

Lemma CreateEntry_exists fs fs' v date :
  CreateEntry fs v date = (fs', None) ->
  EntryExists fs' v date = true /\ ReadEntry fs' v date = Ok (template date).
Proof.
  unfold CreateEntry at 1.
  destruct (EntryExists fs v date); [discriminate|].
  intros Hput%WriteEntry_ok. apply walk_put in Hput as [w Hwalk].
  unfold ReadEntry, EntryExists, ReadFile, Stat. rewrite Hwalk. auto.
Qed.

(** X23.  The [today] command on one day: when the three clock readings
    behind [TodayPath], [TodayExists] and [CreateTodayEntry] give the
    same date, the command either fails to create the entry and does not
    start the editor, or starts the editor on the path of that date in a
    file system in which the entry exists; an entry that existed before
    is handed to the editor unchanged (the command has not written to the
    file system), and a new entry holds the template. *)
Theorem today_opens_todays_entry (w : World) (fs fs1 : FileSystem) (t : nat)
        (cfg : Config) (v : Vault) (d : string) :
  config_Load w = Ok cfg ->
  New fs (cfg_Directory cfg) = (fs1, Ok v) ->
  clock (S t) = d -> clock (S (S t)) = d -> clock (S (S (S t))) = d ->
  exists fs2,
    (EntryExists fs1 v d = true -> fs2 = fs1)
    /\ (EntryExists fs1 v d = false -> CreateEntry fs1 v d = (fs2, None) ->
        ReadEntry fs2 v d = Ok (template d))
    /\ ((EntryExists fs1 v d = false
         /\ exists e, CreateEntry fs1 v d = (fs2, Some e)
                      /\ runTodayCommand clock w fs t
                         = (fs2, [], Some (ErrCreateToday e)))
        \/ (EntryExists fs2 v d = true
            /\ fst (fst (runTodayCommand clock w fs t))
               = fst (exec_Run w fs2 (cfg_Editor cfg) (DatePath v d)))).
Proof.
  intros Hcfg HN H1 H2 H3. unfold runTodayCommand.
  rewrite Hcfg, HN. unfold TodayPath, TodayExists, CreateTodayEntry.
  rewrite H1, H2, H3. fold (DatePath v d).
  destruct (EntryExists fs1 v d) eqn:Hex; simpl.
  - exists fs1. split; [reflexivity|]. split; [discriminate|].
    right. split; [assumption|]. unfold launchEditor.
    destruct (exec_Run w fs1 (cfg_Editor cfg) (DatePath v d))
      as [fs3 [[code|cause]|]]; reflexivity.
  - destruct (CreateEntry fs1 v d) as [fs2 [e|]] eqn:Hc.
    + exists fs2. split; [discriminate|]. split; [discriminate|].
      left. split; [reflexivity|]. eauto.
    + exists fs2. apply CreateEntry_exists in Hc as [Hex2 Hread].
      split; [discriminate|]. split; [auto|].
      right. split; [assumption|]. unfold launchEditor.
      destruct (exec_Run w fs2 (cfg_Editor cfg) (DatePath v d))
        as [fs3 [[code|cause]|]]; reflexivity.
Qed.

(** X24.  The [today] command across midnight: the command reads the
    clock once for the path, once for the existence check and once for
    the creation.  When the first two readings give a date without an
    entry and the third gives another date, the command creates the
    entry of the other date, and starts the editor on the path of the
    first date, where there is still no entry; the line it prints names
    the date of yet another reading, the first of the run. *)
Theorem today_across_midnight (w : World) (fs fs1 fs2 : FileSystem) (t : nat)
        (cfg : Config) (v : Vault) (d d' : string) :
  config_Load w = Ok cfg ->
  New fs (cfg_Directory cfg) = (fs1, Ok v) ->
  clock (S t) = d -> clock (S (S t)) = d -> clock (S (S (S t))) = d' ->
  d <> d' -> has_separator d = false -> has_separator d' = false ->
  EntryExists fs1 v d = false ->
  CreateEntry fs1 v d' = (fs2, None) ->
  EntryExists fs2 v d = false
  /\ EntryExists fs2 v d' = true
  /\ fst (fst (runTodayCommand clock w fs t))
     = fst (exec_Run w fs2 (cfg_Editor cfg) (DatePath v d))
  /\ head (snd (fst (runTodayCommand clock w fs t)))
     = Some ("Created new journal entry: " ++ clock t ++ Tui.newline).
Proof.
  intros Hcfg HN H1 H2 H3 Hne Hd Hd' Hex Hc.
  pose proof HN as [-> _]%New_ok.
  destruct (CreateEntry_other fs1 fs2 (mkVault (Abs (cfg_Directory cfg)))
              d' d (absolute_Abs _) Hd' Hd Hne Hc) as [Hex' Hsame].
  rewrite Hex in Hsame. split; [assumption|]. split; [assumption|].
  unfold runTodayCommand.
  rewrite Hcfg, HN. unfold TodayPath, TodayExists, CreateTodayEntry.
  rewrite H1, H2, H3, Hex. simpl. rewrite Hc.
  fold (DatePath (mkVault (Abs (cfg_Directory cfg))) d).
  unfold launchEditor.
  destruct (exec_Run w fs2 (cfg_Editor cfg) _) as [fs3 [[code|cause]|]];
    split; reflexivity.
Qed.

End TodayCommand.

Lemma today_opens_todays_entry_witness :
  let w := Today.mkWorld (Ok (Today.mkConfig "/j" "vim" 5))
                         (fun fs _ _ => (fs, None)) in
  let v := Vault.mkVault "/j" in
  exists fs2,
    Vault.EntryExists fs2 v "2024-01-15" = true
    /\ fst (fst (Today.runTodayCommand (fun _ => "2024-01-15") w
                                       Props.diary 0))
       = fst (Today.exec_Run w fs2 "vim" (Vault.DatePath v "2024-01-15")).
Proof.
  cbv zeta.
  destruct (today_opens_todays_entry (fun _ => "2024-01-15")
              (Today.mkWorld (Ok (Today.mkConfig "/j" "vim" 5))
                             (fun fs _ _ => (fs, None)))
              Props.diary Props.diary 0 (Today.mkConfig "/j" "vim" 5)
              (Vault.mkVault "/j") "2024-01-15"
              eq_refl eq_refl eq_refl eq_refl eq_refl)
    as (fs2 & _ & _ & [[Hex _]|[Hex Hrun]]).
  - vm_compute in Hex. discriminate Hex.
  - exists fs2. split; [exact Hex | exact Hrun].
Defined.

Lemma today_across_midnight_witness :
  let clock := fun n : nat =>
                 if (n <? 3)%nat then "2024-01-15" else "2024-01-16" in
  let w := Today.mkWorld (Ok (Today.mkConfig "/j" "vim" 5))
                         (fun fs _ _ => (fs, None)) in
  let v := Vault.mkVault "/j" in
  exists fs2,
    Vault.CreateEntry (Spec.journal []) v "2024-01-16" = (fs2, None)
    /\ Vault.EntryExists fs2 v "2024-01-15" = false
    /\ fst (fst (Today.runTodayCommand clock w (Spec.journal []) 0)) = fs2.
Proof.
  cbv zeta. eexists. split; [reflexivity|].
  destruct (today_across_midnight
              (fun n : nat =>
                 if (n <? 3)%nat then "2024-01-15" else "2024-01-16")
              (Today.mkWorld (Ok (Today.mkConfig "/j" "vim" 5))
                             (fun fs _ _ => (fs, None)))
              (Spec.journal []) (Spec.journal []) _ 0
              (Today.mkConfig "/j" "vim" 5) (Vault.mkVault "/j")
              "2024-01-15" "2024-01-16"
              eq_refl eq_refl eq_refl eq_refl eq_refl
              ltac:(discriminate) eq_refl eq_refl eq_refl eq_refl)
    as (Hex & _ & Hrun & _).
  split; [exact Hex | exact Hrun].
Defined.

(** ** The front matter of an entry *)

Section FrontMatter.
Import GoStrings Markdown.

Lemma Join_Split s sep :
  Join (Split s sep) (String sep "") = s.
Proof.
  induction s as [|c rest IH]; [reflexivity|]. simpl.
  pose proof (Split_nonempty rest sep) as Hne.
  destruct (Ascii.eqb_spec c sep) as [->|Hc].
  - destruct (Split rest sep) as [|p ps] eqn:E; [contradiction|].
    change (Join ("" :: p :: ps) (String sep ""))
      with (String sep (Join (p :: ps) (String sep ""))).
    rewrite IH. reflexivity.
  - destruct (Split rest sep) as [|p ps] eqn:E; [contradiction|].
    rewrite <- IH. destruct ps; reflexivity.
Qed.

Lemma closing_none rest : forall i n,
  Forall (fun line => line <> "---") rest -> closing rest i n = None.
Proof.
  induction rest as [|l rest IH]; intros i n Hall; simpl; [reflexivity|].
  apply List.Forall_cons_iff in Hall as [Hl Hall].
  destruct (String.eqb_spec l "---"); [contradiction|]. apply IH, Hall.
Qed.

Lemma closing_found pre after n : forall i,
  Forall (fun line => line <> "---") pre ->
  0 <= i -> i + GoSlice.len pre + 1 <= GoInt.max_int ->
  closing (pre ++ "---" :: after) i n
  = Some (if i + GoSlice.len pre + 1 <? n
          then Join after (String "010" "") else "").
Proof.
  unfold GoSlice.len.
  induction pre as [|l pre IH]; intros i Hall Hi Hfit.
  - replace (i + Z.of_nat (length (@nil string)) + 1) with (i + 1)
      by (simpl; lia).
    simpl in *.
    rewrite add_id by (rewrite range_bounds, max_int_val in *; lia).
    destruct (i + 1 <? n); reflexivity.
  - apply List.Forall_cons_iff in Hall as [Hl Hall].
    replace (i + Z.of_nat (length (l :: pre)) + 1)
      with (i + 1 + Z.of_nat (length pre) + 1) by (simpl length; lia).
    simpl length in Hfit. simpl.
    destruct (String.eqb_spec l "---"); [contradiction|].
    rewrite add_id by (rewrite range_bounds, max_int_val in *; lia).
    apply IH; [assumption | lia | lia].
Qed.

(** X25.  [StripFrontMatter]: a content that starts with a [---] line,
    lines that are not [---] and a closing [---] line is reduced to what
    follows the closing line; so is a content that starts with two
    [---] lines.  A content whose first line is not [---], a content
    without a [---] line after the first line, and a content of fewer
    than three lines (such as the two delimiters alone) are returned as
    they are. *)
Theorem strip_front_matter_cases :
  (forall fm body,
      strlen fm + 3 <= GoInt.max_int ->
      Forall (fun line => line <> "---") (Split fm "010"%char) ->
      StripFrontMatter ("---" ++ String "010" (fm ++ String "010"
                           ("---" ++ String "010" body)))
      = body)
  /\ (forall body,
         StripFrontMatter ("---" ++ String "010" ("---" ++ String "010" body))
         = body)
  /\ (forall content,
         head (Split content "010"%char) <> Some "---" ->
         StripFrontMatter content = content)
  /\ (forall content,
         Forall (fun line => line <> "---") (tail (Split content "010"%char)) ->
         StripFrontMatter content = content)
  /\ (forall content,
         (length (Split content "010"%char) < 3)%nat ->
         StripFrontMatter content = content).
Proof.
  split; [|split; [|split; [|split]]].
  - intros fm body Hfit Hfm. unfold StripFrontMatter.
    rewrite !Split_app_sep.
    change (Split "---" "010"%char) with ["---"]. simpl app.
    set (pre := Split fm "010"%char) in *.
    set (after := Split body "010"%char).
    assert (Hpre : (1 <= length pre <= S (String.length fm))%nat).
    { subst pre. split; [|apply Split_length].
      pose proof (Split_nonempty fm "010"%char).
      destruct (Split fm "010"%char); simpl; [contradiction | lia]. }
    assert (Hafter : (1 <= length after)%nat).
    { subst after. pose proof (Split_nonempty body "010"%char).
      destruct (Split body "010"%char); simpl; [contradiction | lia]. }
    assert (Hlen : GoSlice.len ("---" :: (pre ++ "---" :: after)%list)
                   = 1 + GoSlice.len pre + 1 + GoSlice.len after).
    { unfold GoSlice.len. simpl. rewrite length_app. simpl. lia. }
    rewrite Hlen.
    destruct (Z.ltb_spec (1 + GoSlice.len pre + 1 + GoSlice.len after) 3);
      [unfold GoSlice.len in *; lia|].
    simpl. rewrite closing_found; auto; try lia.
    + destruct (Z.ltb_spec (1 + GoSlice.len pre + 1)
                  (1 + GoSlice.len pre + 1 + GoSlice.len after));
        [|unfold GoSlice.len in *; lia].
      apply Join_Split.
    + unfold GoSlice.len, strlen in *. lia.
  - intros body. unfold StripFrontMatter.
    rewrite !Split_app_sep.
    change (Split "---" "010"%char) with ["---"]. simpl app.
    set (after := Split body "010"%char).
    assert (Hafter : (1 <= length after)%nat).
    { subst after. pose proof (Split_nonempty body "010"%char).
      destruct (Split body "010"%char); simpl; [contradiction | lia]. }
    destruct (Z.ltb_spec (GoSlice.len ("---" :: "---" :: after)) 3);
      [unfold GoSlice.len in *; simpl in *; lia|].
    simpl.
    destruct (Z.ltb_spec (GoInt.add 1 1) (GoSlice.len ("---" :: "---" :: after)));
      [apply Join_Split|].
    exfalso. unfold GoSlice.len in *. simpl in *.
    change (GoInt.add 1 1) with 2 in *. lia.
  - intros content Hhead. unfold StripFrontMatter.
    destruct (GoSlice.len _ <? 3); [reflexivity|].
    destruct (Split content "010"%char) as [|first rest]; [reflexivity|].
    destruct (String.eqb_spec first "---") as [->|]; [|reflexivity].
    exfalso. apply Hhead. reflexivity.
  - intros content Hrest. unfold StripFrontMatter.
    destruct (GoSlice.len _ <? 3); [reflexivity|].
    destruct (Split content "010"%char) as [|first rest]; [reflexivity|].
    destruct (negb _); [reflexivity|].
    simpl in Hrest. rewrite closing_none by assumption. reflexivity.
  - intros content Hlen. unfold StripFrontMatter.
    destruct (Z.ltb_spec (GoSlice.len (Split content "010"%char)) 3);
      [reflexivity|].
    unfold GoSlice.len in *. lia.
Qed.

End FrontMatter.
